(** * nrekit/framework.py: the training and evaluation harness

    A shallow embedding of [Model.__accuracy__] and of the [Framework]
    class ([__load_model__], [item], [train], [eval]).

    Conventions of the embedding.
    - Python ints are [Z].  Python floats are exact rationals ([Q]):
      rounding, infinities and NaN are not represented; where PyTorch
      yields NaN (the mean of an empty tensor) the model says so with
      [None].  Float division raises [ZeroDivisionError] on a zero
      divisor, integer [%] likewise.
    - The objects a run mutates (the model, the data loaders, the file
      system) live in one store [St] that every method threads; an
      exception leaves the store as it was when it was raised.
    - Every method also yields the list of the actions it performed, in
      order: the lines written to standard output, the calls into the
      data loaders, what [model.loss()] and [model.accuracy()] returned,
      [torch.load], [torch.save], [os.makedirs], and the calls to and
      returns from [Framework.eval].  The progress lines and the test
      report are kept as the numbers they format.
    - The file system is a finite map from path strings to the checkpoint
      dict stored there, plus the set of directories known to exist.
    - [item] returns the one element of its argument in both of its
      branches; the test that chooses the branch, on the version string of
      PyTorch, is modelled on its own as [item_uses_index]. *)

From Stdlib Require Import ZArith QArith Lia Lqa List String Ascii.
From stdpp Require Import gmap strings list fin_maps.

Local Open Scope string_scope.
Local Open Scope list_scope.
Local Open Scope Z_scope.

(** ** Exceptions and results *)

Inductive exn : Type :=
| Exception (msg : string)      (* raise Exception(msg) *)
| KeyError (key : string)       (* d[key] on a dict without key *)
| TypeError                     (* a dict entry of the wrong kind *)
| RuntimeError                  (* tensor sizes that do not match, no flat view *)
| ZeroDivisionError
| FileNotFoundError (path : string).

Inductive res (A : Type) : Type :=
| Ok (a : A)
| Raise (e : exn).
Arguments Ok {A} a.
Arguments Raise {A} e.

(** ** Python arithmetic *)

(** [range(start, stop)] *)
Definition range (start stop : Z) : list Z := seqZ start (stop - start).

(** [a % b] on ints: the sign of the result follows the divisor, as
    [Z.modulo] does; a zero divisor raises. *)
Definition py_mod (a b : Z) : res Z :=
  if b =? 0 then Raise ZeroDivisionError else Ok (a mod b).

(** [x / y] on floats. *)
Definition py_div (x y : Q) : res Q :=
  if Qeq_bool y 0 then Raise ZeroDivisionError else Ok (x / y)%Q.

(** [x > y] on floats. *)
Definition py_gt (x y : Q) : bool :=
  match (y ?= x)%Q with Lt => true | _ => false end.

(** ** os.path *)

Definition newline : string := String (ascii_of_nat 10) EmptyString.

Definition startswith_sep (s : string) : bool :=
  match s with
  | String c _ => Ascii.eqb c "/"%char
  | EmptyString => false
  end.

Fixpoint endswith_sep (s : string) : bool :=
  match s with
  | EmptyString => false
  | String c EmptyString => Ascii.eqb c "/"%char
  | String _ r => endswith_sep r
  end.

(** [os.path.join(a, b)] (posixpath, two components). *)
Definition os_path_join (a b : string) : string :=
  if startswith_sep b then b
  else if (String.eqb a EmptyString || endswith_sep a)%bool then a +:+ b
  else a +:+ "/" +:+ b.

(** ** Model.__accuracy__ *)

(** A tensor is given by its elements in row-major order, which is what
    [view(-1)] exposes. *)
Definition Tensor : Type := list Z.

Definition view_flat (t : Tensor) : list Z := t.

(** [a == b] on two flat tensors of one length (elementwise). *)
Fixpoint tensor_eq (a b : list Z) : list bool :=
  match a, b with
  | x :: a', y :: b' => (x =? y) :: tensor_eq a' b'
  | _, _ => []
  end.

(** [a == b] with PyTorch's broadcasting: a one-element operand is
    compared with every element of the other one; other sizes that
    differ are a size error. *)
Definition tensor_eq_broadcast (a b : list Z) : res (list bool) :=
  if (length a =? length b)%nat then Ok (tensor_eq a b)
  else match a, b with
       | [x], _ => Ok (map (fun y => x =? y) b)
       | _, [y] => Ok (map (fun x => x =? y) a)
       | _, _ => Raise RuntimeError
       end.

(** [.type(torch.FloatTensor)] on a tensor of booleans. *)
Definition to_float (l : list bool) : list Q :=
  map (fun b : bool => if b then 1%Q else 0%Q) l.

Definition Qsum (l : list Q) : Q := fold_left Qplus l 0%Q.

(** [torch.mean]: the sum over the number of elements; NaN ([None]) on an
    empty tensor. *)
Definition torch_mean (l : list Q) : option Q :=
  match l with
  | [] => None
  | _ => Some (Qsum l / inject_Z (Z.of_nat (length l)))%Q
  end.

(** [Model.__accuracy__(pred, label)] *)
Definition __accuracy__ (pred label : Tensor) : res (option Q) :=
  match tensor_eq_broadcast (view_flat pred) (view_flat label) with
  | Ok eqs => Ok (torch_mean (to_float eqs))
  | Raise e => Raise e
  end.

(** The arithmetic mean of a sequence. *)
Definition mean (l : list Q) : Q :=
  (Qsum l / inject_Z (Z.of_nat (length l)))%Q.

(** The number of positions at which two sequences agree. *)
Fixpoint matches (pred label : list Z) : nat :=
  match pred, label with
  | x :: pred', y :: label' =>
      ((if Z.eq_dec x y then 1 else 0) + matches pred' label')%nat
  | _, _ => 0%nat
  end.

(** *** The arguments as tensor objects

    A tensor of an integer dtype, as [__accuracy__] meets it: its elements
    in row-major order, and whether its layout in memory admits the flat
    view that [view(-1)] asks for.  PyTorch decides the latter from the
    sizes and strides of the tensor; every contiguous tensor has a flat
    view, a transposed or strided one may have none.  On integer dtypes
    [==] compares the values exactly; a floating-point operand, which
    PyTorch would promote the other one to, is not represented. *)
Record TensorObj : Type := {
  data : Tensor;
  viewable : bool
}.

(** [t.view(-1)]: the elements as a flat tensor; RuntimeError when the
    tensor has no flat view. *)
Definition tensor_view (t : TensorObj) : res Tensor :=
  if viewable t then Ok (data t) else Raise RuntimeError.

(** The call [__accuracy__(pred, label)] on tensor objects: the operands
    of [==] are evaluated from left to right, [pred.view(-1)] then
    [label.view(-1)], and compared as [__accuracy__] does. *)
Definition accuracy_call (pred label : TensorObj) : res (option Q) :=
  match tensor_view pred with
  | Raise e => Raise e
  | Ok p =>
      match tensor_view label with
      | Raise e => Raise e
      | Ok l => __accuracy__ p l
      end
  end.

(** ** The monad of methods

    A method runs on a store, yields the actions it performed and either
    returns a value or raises; the store reached is kept in both cases. *)

Section Monad.
Context {S E : Type}.

Definition M (A : Type) : Type := S -> S * list E * res A.

Definition ret {A} (a : A) : M A := fun s => (s, [], Ok a).

Definition bind {A B} (m : M A) (f : A -> M B) : M B :=
  fun s =>
    match m s with
    | (s1, l1, Ok a) =>
        match f a s1 with (s2, l2, r) => (s2, l1 ++ l2, r) end
    | (s1, l1, Raise e) => (s1, l1, Raise e)
    end.

Definition raise {A} (e : exn) : M A := fun s => (s, [], Raise e).
Definition emit (ev : E) : M unit := fun s => (s, [ev], Ok tt).
Definition gets {A} (f : S -> A) : M A := fun s => (s, [], Ok (f s)).
Definition modify (f : S -> S) : M unit := fun s => (f s, [], Ok tt).
Definition lift {A} (r : res A) : M A := fun s => (s, [], r).

(** [for it in its: locals = body(it, locals)] *)
Fixpoint for_ {L} (its : list Z) (body : Z -> L -> M L) (locals : L) : M L :=
  match its with
  | [] => ret locals
  | it :: rest => bind (body it locals) (for_ rest body)
  end.

End Monad.
Arguments M : clear implicits.

Notation "x <- c ;; k" := (bind c (fun x => k))
  (at level 100, c at next level, k at level 200, right associativity).
Notation "c ;;; k" := (bind c (fun _ => k))
  (at level 100, k at level 200, right associativity).

(** The parts of a run. *)
Definition store {S E A} (x : S * list E * res A) : S := fst (fst x).
Definition actions {S E A} (x : S * list E * res A) : list E := snd (fst x).
Definition outcome {S E A} (x : S * list E * res A) : res A := snd x.

(** A run that comes after the actions [l]. *)
Definition after {S E A} (l : list E) (x : S * list E * res A)
  : S * list E * res A :=
  (store x, l ++ actions x, outcome x).

(** ** The model and the collaborators of the harness *)

(** [Model]: the module's parameters (with those of the sentence
    encoder), the last loss and accuracy, and the flags of [nn.Module]. *)
Record Model (Params : Type) : Type := {
  state_dict : Params;
  _loss : Q;
  _accuracy : Q;
  training : bool;
  on_cuda : bool
}.
Arguments state_dict {Params} m.
Arguments _loss {Params} m.
Arguments _accuracy {Params} m.
Arguments training {Params} m.
Arguments on_cuda {Params} m.

(** [Model.__init__] *)
Definition Model_init {Params} (sd : Params) : Model Params :=
  {| state_dict := sd; _loss := 0; _accuracy := 0;
     training := true; on_cuda := false |}.

Definition load_state_dict {Params} (sd : Params) (m : Model Params) : Model Params :=
  {| state_dict := sd; _loss := _loss m; _accuracy := _accuracy m;
     training := training m; on_cuda := on_cuda m |}.

(** [model.cuda()] *)
Definition model_cuda {Params} (m : Model Params) : Model Params :=
  {| state_dict := state_dict m; _loss := _loss m; _accuracy := _accuracy m;
     training := training m; on_cuda := true |}.

(** [model.train()] *)
Definition model_train {Params} (m : Model Params) : Model Params :=
  {| state_dict := state_dict m; _loss := _loss m; _accuracy := _accuracy m;
     training := true; on_cuda := on_cuda m |}.

(** What the harness takes from its collaborators: a concrete model, one
    that overrides [forward_base] and [forward_new] (those of the base
    class only raise NotImplementedError), the data loaders and the
    optimizer. *)
Class Collaborators : Type := {
  Params : Type;          (* a state dict: the parameters of the model *)
  Batch : Type;
  Episode : Type;         (* a (support, query) pair *)
  Loader : Type;          (* a reference to a data-loader object *)
  Heap : Type;            (* the state of the data-loader objects *)
  OptState : Type;        (* the optimizer with its scheduler *)
  forward_base : Batch -> Model Params -> Model Params;
  forward_new : Episode -> Model Params -> Model Params;
  next_batch : Loader -> Z -> Heap -> Batch * Heap;
  next_new_relation : Loader -> Loader -> Z -> Z -> Z -> Heap -> Episode * Heap;
  (* optimizer(parameters, learning_rate, weight_decay=weight_decay) and
     StepLR(optimizer, step_size=lr_step_size) *)
  make_optimizer : Model Params -> Q -> Q -> Z -> OptState;
  scheduler_step : OptState -> OptState;
  (* optimizer.zero_grad(); loss.backward(); optimizer.step() *)
  optimizer_step : OptState -> Model Params -> OptState * Model Params
}.

Section Framework.
Context `{C : Collaborators}.

(** A value stored in a checkpoint dict. *)
Inductive value : Type :=
| VState (sd : Params)
| VInt (i : Z).

Record St : Type := {
  model : Model Params;
  heap : Heap;
  files : gmap string (gmap string value);
  dirs : gset string
}.

Definition set_model (m : Model Params) (s : St) : St :=
  {| model := m; heap := heap s; files := files s; dirs := dirs s |}.
Definition set_heap (h : Heap) (s : St) : St :=
  {| model := model s; heap := h; files := files s; dirs := dirs s |}.
Definition set_files (f : gmap string (gmap string value)) (s : St) : St :=
  {| model := model s; heap := heap s; files := f; dirs := dirs s |}.
Definition set_dirs (d : gset string) (s : St) : St :=
  {| model := model s; heap := heap s; files := files s; dirs := d |}.

Inductive event : Type :=
| Println (line : string)
| PrintTestAccuracy (test_acc : Q)
| TrainProgress (step : Z) (loss accuracy : Q)
| EvalProgress (step : Z) (accuracy : Q)
| NextBatch (l : Loader) (batch_size : Z)
| NextNewRelation (l reference : Loader)
    (support_size query_size query_class : Z)
| ModelLoss (loss : Q)            (* what model.loss() returned *)
| ModelAccuracy (right : Q)       (* what model.accuracy() returned *)
| TorchLoad (path : string)
| MakeDirs (path : string)
| TorchSave (obj : gmap string value) (path : string)
| EvalCall (ckpt : option string) (eval_iter : Z)
| EvalReturn (acc : Q).

(** ** Primitives of the host libraries *)

(** [os.path.isfile(path)] *)
Definition os_path_isfile (path : string) : M St event bool :=
  gets (fun s => bool_decide (is_Some (files s !! path))).

(** [os.path.exists(path)] *)
Definition os_path_exists (path : string) : M St event bool :=
  gets (fun s => bool_decide (path ∈ dirs s ∨ is_Some (files s !! path))).

(** [os.makedirs(path)] *)
Definition os_makedirs (path : string) : M St event unit :=
  emit (MakeDirs path) ;;;
  modify (fun s => set_dirs ({[path]} ∪ dirs s) s).

(** [torch.load(path)] *)
Definition torch_load (path : string) : M St event (gmap string value) :=
  fs <- gets files ;;
  match fs !! path with
  | Some obj => emit (TorchLoad path) ;;; ret obj
  | None => raise (FileNotFoundError path)
  end.

(** [torch.save(obj, path)]: the file is replaced as a whole. *)
Definition torch_save (obj : gmap string value) (path : string)
  : M St event unit :=
  emit (TorchSave obj path) ;;;
  modify (fun s => set_files (<[path := obj]> (files s)) s).

(** [d[key]] *)
Definition getitem (d : gmap string value) (key : string) : M St event value :=
  match d !! key with
  | Some v => ret v
  | None => raise (KeyError key)
  end.

(** [model.load_state_dict(v)] *)
Definition model_load_state_dict (v : value) : M St event unit :=
  match v with
  | VState sd => modify (fun s => set_model (load_state_dict sd (model s)) s)
  | VInt _ => raise TypeError
  end.

(** [v + 1] *)
Definition value_succ (v : value) : M St event Z :=
  match v with
  | VInt i => ret (i + 1)
  | VState _ => raise TypeError
  end.

(** [loader.next_batch(batch_size)] *)
Definition loader_next_batch (l : Loader) (batch_size : Z) : M St event Batch :=
  fun s =>
    (set_heap (snd (next_batch l batch_size (heap s))) s,
     [NextBatch l batch_size],
     Ok (fst (next_batch l batch_size (heap s)))).

(** [loader.next_new_relation(reference, support_size, query_size,
    query_class)] *)
Definition loader_next_new_relation (l reference : Loader)
    (support_size query_size query_class : Z) : M St event Episode :=
  fun s =>
    let r := next_new_relation l reference support_size query_size
               query_class (heap s) in
    (set_heap (snd r) s,
     [NextNewRelation l reference support_size query_size query_class],
     Ok (fst r)).

(** [model.forward_base(data)] and [model.forward_new(data)] *)
Definition model_forward_base (data : Batch) : M St event unit :=
  modify (fun s => set_model (forward_base data (model s)) s).
Definition model_forward_new (data : Episode) : M St event unit :=
  modify (fun s => set_model (forward_new data (model s)) s).

(** [optimizer.zero_grad(); loss.backward(); optimizer.step()] *)
Definition optimizer_update (opt : OptState) : M St event OptState :=
  fun s =>
    let r := optimizer_step opt (model s) in
    (set_model (snd r) s, [], Ok (fst r)).

(** [model.loss()] and [model.accuracy()] *)
Definition model_loss : M St event Q :=
  loss <- gets (fun s => _loss (model s)) ;;
  emit (ModelLoss loss) ;;; ret loss.
Definition model_accuracy : M St event Q :=
  right <- gets (fun s => _accuracy (model s)) ;;
  emit (ModelAccuracy right) ;;; ret right.

(** ** Framework *)

Record Framework : Type := {
  train_data_loader : Loader;
  val_data_loader : Loader;
  test_data_loader : Loader
}.

Definition __load_model__ (ckpt : string) : M St event (gmap string value) :=
  isfile <- os_path_isfile ckpt ;;
  if isfile : bool then
    checkpoint <- torch_load ckpt ;;
    emit (Println ("Successfully loaded checkpoint '" +:+ ckpt +:+ "'")) ;;;
    ret checkpoint
  else
    raise (Exception ("No checkpoint found at '" +:+ ckpt +:+ "'")).

(** [Framework.item]: [x[0]] before PyTorch 0.4 and [x.item()] from then
    on; both read the one element of a scalar tensor. *)
Definition item (x : Q) : Q := x.

(** Lines 194-199 of [eval]: the choice of [eval_dataset]. *)
Definition eval_dataset_of (self : Framework) (ckpt : option string)
  : M St event Loader :=
  match ckpt with
  | None => ret (val_data_loader self)
  | Some ckpt =>
      checkpoint <- __load_model__ ckpt ;;
      sd <- getitem checkpoint "state_dict" ;;
      model_load_state_dict sd ;;;
      ret (test_data_loader self)
  end.

(** The body of the loop of [eval]; its locals are [iter_right] and
    [iter_sample]. *)
Definition eval_body (self : Framework) (eval_dataset : Loader)
    (support_size query_size query_class : Z)
    (it : Z) (locals : Q * Q) : M St event (Q * Q) :=
  let '(iter_right, iter_sample) := locals in
  data <- loader_next_new_relation eval_dataset (train_data_loader self)
            support_size query_size query_class ;;
  model_forward_new data ;;;
  right <- model_accuracy ;;
  let iter_right := (iter_right + item right)%Q in
  let iter_sample := (iter_sample + 1)%Q in
  shown <- lift (py_div (100 * iter_right) iter_sample) ;;
  emit (EvalProgress (it + 1) shown) ;;;
  ret (iter_right, iter_sample).

Definition eval (self : Framework)
    (support_size query_size query_class eval_iter : Z)
    (ckpt : option string) : M St event Q :=
  emit (EvalCall ckpt eval_iter) ;;;
  emit (Println EmptyString) ;;;
  eval_dataset <- eval_dataset_of self ckpt ;;
  locals <- for_ (range 0 eval_iter)
              (eval_body self eval_dataset support_size query_size query_class)
              (0%Q, 0%Q) ;;
  emit (Println EmptyString) ;;;
  acc <- lift (py_div (fst locals) (snd locals)) ;;
  emit (EvalReturn acc) ;;;
  ret acc.

(** The locals of [train] that its loop updates ([not_best_count] is
    never read nor written again). *)
Record TrainLocals : Type := {
  optimizer : OptState;
  best_acc : Q;
  iter_loss : Q;
  iter_right : Q;
  iter_sample : Q
}.

(** Lines 123-128 of [train]: the optional warm start; yields
    [start_iter].  [None] and the empty string are false. *)
Definition train_resume (pretrain_model : option string) : M St event Z :=
  match pretrain_model with
  | Some path =>
      if String.eqb path EmptyString then ret 0
      else
        checkpoint <- __load_model__ path ;;
        sd <- getitem checkpoint "state_dict" ;;
        model_load_state_dict sd ;;;
        i <- getitem checkpoint "iter" ;;
        value_succ i
  | None => ret 0
  end.

(** Lines 164-170 of [train]: what is done with the accuracy of a
    validation. *)
Definition train_checkpoint (model_name ckpt_dir : string)
    (acc : Q) (lc : TrainLocals) : M St event TrainLocals :=
  if py_gt acc (best_acc lc) then
    emit (Println "Best checkpoint") ;;;
    there <- os_path_exists ckpt_dir ;;
    (if there : bool then ret tt else os_makedirs ckpt_dir) ;;;
    let save_path := os_path_join ckpt_dir (model_name +:+ ".pth.tar") in
    sd <- gets (fun s => state_dict (model s)) ;;
    torch_save {["state_dict" := VState sd]} save_path ;;;
    ret {| optimizer := optimizer lc; best_acc := acc;
           iter_loss := iter_loss lc; iter_right := iter_right lc;
           iter_sample := iter_sample lc |}
  else ret lc.

(** Lines 141-170 of [train]: one iteration of the training loop. *)
Definition train_body (self : Framework) (model_name : string)
    (batch_size : Z) (ckpt_dir : string) (val_iter val_step : Z)
    (it : Z) (lc : TrainLocals) : M St event TrainLocals :=
  let opt := scheduler_step (optimizer lc) in
  batch_data <- loader_next_batch (train_data_loader self) batch_size ;;
  model_forward_base batch_data ;;;
  loss <- model_loss ;;
  right <- model_accuracy ;;
  opt <- optimizer_update opt ;;
  let iter_loss := (iter_loss lc + item loss)%Q in
  let iter_right := (iter_right lc + item right)%Q in
  let iter_sample := (iter_sample lc + 1)%Q in
  shown_loss <- lift (py_div iter_loss iter_sample) ;;
  shown_acc <- lift (py_div (100 * iter_right) iter_sample) ;;
  emit (TrainProgress (it + 1) shown_loss shown_acc) ;;;
  r <- lift (py_mod it val_step) ;;
  let lc :=
    if r =? 0
    then {| optimizer := opt; best_acc := best_acc lc;
            iter_loss := 0; iter_right := 0; iter_sample := 0 |}
    else {| optimizer := opt; best_acc := best_acc lc;
            iter_loss := iter_loss; iter_right := iter_right;
            iter_sample := iter_sample |} in
  r <- lift (py_mod (it + 1) val_step) ;;
  if r =? 0 then
    acc <- eval self 10 10 2 val_iter None ;;
    modify (fun s => set_model (model_train (model s)) s) ;;;
    train_checkpoint model_name ckpt_dir acc lc
  else ret lc.

(** The locals at the entry of the loop of [train]. *)
Definition train_locals (opt : OptState) : TrainLocals :=
  {| optimizer := opt; best_acc := 0;
     iter_loss := 0; iter_right := 0; iter_sample := 0 |}.

(** Lines 172-175 of [train]: the test evaluation on the saved
    checkpoint. *)
Definition train_finish (self : Framework) (model_name ckpt_dir : string)
    (test_iter : Z) : M St event unit :=
  emit (Println (newline +:+ "####################" +:+ newline)) ;;;
  emit (Println ("Finish training " +:+ model_name)) ;;;
  test_acc <- eval self 10 10 2 test_iter
                (Some (os_path_join ckpt_dir (model_name +:+ ".pth.tar"))) ;;
  emit (PrintTestAccuracy test_acc).

Definition train (self : Framework) (model_name : string) (batch_size : Z)
    (ckpt_dir test_result_dir : string)
    (learning_rate : Q) (lr_step_size : Z) (weight_decay : Q)
    (train_iter val_iter val_step test_iter : Z)
    (cuda : bool) (pretrain_model : option string) : M St event unit :=
  emit (Println "Start training...") ;;;
  opt <- gets (fun s =>
                 make_optimizer (model s) learning_rate weight_decay
                   lr_step_size) ;;
  start_iter <- train_resume pretrain_model ;;
  (if cuda : bool then modify (fun s => set_model (model_cuda (model s)) s)
   else ret tt) ;;;
  for_ (range start_iter (start_iter + train_iter))
    (train_body self model_name batch_size ckpt_dir val_iter val_step)
    (train_locals opt) ;;;
  train_finish self model_name ckpt_dir test_iter.

End Framework.

(** ** Reading the actions of a run *)

Section Observations.
Context `{C : Collaborators}.

(** The landmarks of a run of [train]: the steps it displays, the calls
    to and returns from [eval], and the checkpoint writes. *)
Inductive mark : Type :=
| MStep (step : Z)
| MEval (ckpt : option string)
| MAcc (acc : Q)
| MSave (path : string).

Definition mark_of (e : event) : option mark :=
  match e with
  | TrainProgress step _ _ => Some (MStep step)
  | EvalCall ckpt _ => Some (MEval ckpt)
  | EvalReturn acc => Some (MAcc acc)
  | TorchSave _ path => Some (MSave path)
  | _ => None
  end.

Definition marks (log : list event) : list mark := omap mark_of log.

(** The steps displayed by the training loop, in order. *)
Definition step_of (e : event) : option Z :=
  match e with TrainProgress n _ _ => Some n | _ => None end.
Definition steps (log : list event) : list Z := omap step_of log.

(** The receiver and the reference loader of every episode drawn. *)
Definition loaders_of (e : event) : option (Loader * Loader) :=
  match e with NextNewRelation l r _ _ _ => Some (l, r) | _ => None end.
Definition episode_loaders (log : list event) : list (Loader * Loader) :=
  omap loaders_of log.

(** What the successive calls of [model.accuracy()] returned. *)
Definition accuracy_of (e : event) : option Q :=
  match e with ModelAccuracy a => Some a | _ => None end.
Definition accuracies (log : list event) : list Q := omap accuracy_of log.

(** The paths read by [torch.load]. *)
Definition load_of (e : event) : option string :=
  match e with TorchLoad p => Some p | _ => None end.
Definition loads (log : list event) : list string := omap load_of log.

(** The test accuracies printed. *)
Definition report_of (e : event) : option Q :=
  match e with PrintTestAccuracy a => Some a | _ => None end.
Definition test_reports (log : list event) : list Q := omap report_of log.

(** The paths of the checkpoint writes among the landmarks. *)
Definition write_of (m : mark) : option string :=
  match m with MSave p => Some p | _ => None end.
Definition writes (ms : list mark) : list string := omap write_of ms.

(** The accuracies returned by the validations of a run of [train]. *)
Fixpoint validation_accs (ms : list mark) : list Q :=
  match ms with
  | MEval None :: ((MAcc a :: _) as rest) => a :: validation_accs rest
  | _ :: rest => validation_accs rest
  | [] => []
  end.

End Observations.

(** ** Vocabulary of the statements *)

(** The landmarks a training loop can leave, from a best accuracy [b] on:
    displays, validations that raise, are skipped or are saved, and the
    final test evaluation. [p] is the path of the checkpoint. *)
Inductive trace (p : string) : Q -> list mark -> Prop :=
| tr_nil b : trace p b []
| tr_step b n m : trace p b m -> trace p b (MStep n :: m)
| tr_abort b : trace p b [MEval None]
| tr_save b a m :
    (b < a)%Q -> trace p a m ->
    trace p b (MEval None :: MAcc a :: MSave p :: m)
| tr_skip b a m :
    (a <= b)%Q -> trace p b m -> trace p b (MEval None :: MAcc a :: m)
| tr_test b q tail :
    tail = [] \/ (exists t, tail = [MAcc t]) ->
    trace p b (MEval (Some q) :: tail).

(** The landmarks of the complete iterations [its], from the best
    accuracy before them to the best accuracy after them. *)
Inductive loop_marks (p : string) (val_step : Z)
  : Q -> list Z -> list mark -> Q -> Prop :=
| lm_nil b : loop_marks p val_step b [] [] b
| lm_plain b it its m b' :
    (it + 1) mod val_step <> 0 ->
    loop_marks p val_step b its m b' ->
    loop_marks p val_step b (it :: its) (MStep (it + 1) :: m) b'
| lm_skip b it its a m b' :
    (it + 1) mod val_step = 0 -> (a <= b)%Q ->
    loop_marks p val_step b its m b' ->
    loop_marks p val_step b (it :: its)
      (MStep (it + 1) :: MEval None :: MAcc a :: m) b'
| lm_save b it its a m b' :
    (it + 1) mod val_step = 0 -> (b < a)%Q ->
    loop_marks p val_step a its m b' ->
    loop_marks p val_step b (it :: its)
      (MStep (it + 1) :: MEval None :: MAcc a :: MSave p :: m) b'.

(** The loop of [train] entered at iteration [start] runs all of its
    [train_iter] iterations: it has none, or val_step is not 0 and every
    validation it reaches has an episode to draw. *)
Definition loop_completes (start train_iter val_iter val_step : Z) : Prop :=
  train_iter <= 0 \/
  (val_step <> 0 /\
   (1 <= val_iter \/
    forall k, 0 <= k < train_iter -> (start + k + 1) mod val_step <> 0)).

Section Vocabulary.
Context `{C : Collaborators}.

(** A stretch of a log that only draws episodes from [ds] and reads the
    accuracy of each. *)
Definition episodes_only (self : Framework) (ds : Loader) (n : nat)
    (log : list event) : Prop :=
  episode_loaders log = replicate n (ds, train_data_loader self) /\
  length (accuracies log) = n /\
  marks log = [] /\ steps log = [] /\ loads log = [] /\
  test_reports log = [].

(** What [__load_model__] raises and prints. *)
Definition not_found (path : string) : exn :=
  Exception ("No checkpoint found at '" +:+ path +:+ "'").
Definition loaded_line (path : string) : event :=
  Println ("Successfully loaded checkpoint '" +:+ path +:+ "'").

(** The path of the checkpoint of a model. *)
Definition save_path (model_name ckpt_dir : string) : string :=
  os_path_join ckpt_dir (model_name +:+ ".pth.tar").

Definition with_best (acc : Q) (lc : TrainLocals) : TrainLocals :=
  {| optimizer := optimizer lc; best_acc := acc;
     iter_loss := iter_loss lc; iter_right := iter_right lc;
     iter_sample := iter_sample lc |}.

(** [iter_sample] after the display of iteration [it]. *)
Definition sample_after (val_step it : Z) (c : Q) : Q :=
  if it mod val_step =? 0 then 0%Q else (c + 1)%Q.

(** The store at the entry of the loop of [train]. *)
Definition on_device (cuda : bool) (s : St) : St :=
  if cuda then set_model (model_cuda (model s)) s else s.

(** The ways one iteration of the training loop can end, with the
    landmarks that follow its display. *)
Inductive body_case (model_name ckpt_dir : string) (val_iter val_step : Z)
    (it : Z) (lc : TrainLocals) (s s' : St)
  : list mark -> res TrainLocals -> Prop :=
| bc_zero_step :
    val_step = 0 -> files s' = files s ->
    body_case model_name ckpt_dir val_iter val_step it lc s s'
      [] (Raise ZeroDivisionError)
| bc_plain lc' :
    val_step <> 0 -> (it + 1) mod val_step <> 0 ->
    best_acc lc' = best_acc lc ->
    iter_sample lc' = sample_after val_step it (iter_sample lc) ->
    files s' = files s ->
    body_case model_name ckpt_dir val_iter val_step it lc s s' [] (Ok lc')
| bc_eval_raises :
    val_step <> 0 -> (it + 1) mod val_step = 0 -> val_iter <= 0 ->
    files s' = files s ->
    body_case model_name ckpt_dir val_iter val_step it lc s s'
      [MEval None] (Raise ZeroDivisionError)
| bc_not_best lc' acc :
    val_step <> 0 -> (it + 1) mod val_step = 0 -> 1 <= val_iter ->
    py_gt acc (best_acc lc) = false ->
    best_acc lc' = best_acc lc ->
    iter_sample lc' = sample_after val_step it (iter_sample lc) ->
    files s' = files s ->
    body_case model_name ckpt_dir val_iter val_step it lc s s'
      [MEval None; MAcc acc] (Ok lc')
| bc_best lc' acc :
    val_step <> 0 -> (it + 1) mod val_step = 0 -> 1 <= val_iter ->
    py_gt acc (best_acc lc) = true ->
    best_acc lc' = acc ->
    iter_sample lc' = sample_after val_step it (iter_sample lc) ->
    files s' = <[save_path model_name ckpt_dir :=
                   {["state_dict" := VState (state_dict (model s'))]}]>
                 (files s) ->
    body_case model_name ckpt_dir val_iter val_step it lc s s'
      [MEval None; MAcc acc; MSave (save_path model_name ckpt_dir)] (Ok lc').

End Vocabulary.

(** ** A scripted instance

    The heap is the list of the accuracies the model will reach on the
    episodes still to come; parameters are a number that every optimizer
    step increments. *)

Module Demo.

Definition touch (loss acc : Q) (m : Model Z) : Model Z :=
  {| state_dict := state_dict m; _loss := loss; _accuracy := acc;
     training := training m; on_cuda := on_cuda m |}.

Definition bump (m : Model Z) : Model Z :=
  {| state_dict := state_dict m + 1; _loss := _loss m; _accuracy := _accuracy m;
     training := training m; on_cuda := on_cuda m |}.

Definition world : Collaborators := {|
  Params := Z;
  Batch := Z;
  Episode := Q;
  Loader := nat;
  Heap := list Q;
  OptState := unit;
  forward_base := fun _ m => touch (1 # 2) (1 # 2) m;
  forward_new := fun ep m => touch (_loss m) ep m;
  next_batch := fun _ batch_size h => (batch_size, h);
  next_new_relation := fun _ _ _ _ _ h =>
    match h with
    | [] => (0%Q, [])
    | a :: h' => (a, h')
    end;
  make_optimizer := fun _ _ _ _ => tt;
  scheduler_step := fun o => o;
  optimizer_step := fun o m => (o, bump m)
|}.

Definition fw : @Framework world :=
  @Build_Framework world 0%nat 1%nat 2%nat.

(** A fresh model, no file, and the episodes to come. *)
Definition start (script : list Q) : @St world :=
  @Build_St world (Model_init 0) script ∅ ∅.



(** The locals of [train] at the entry of its loop. *)
Definition locals : @TrainLocals world := @train_locals world tt.

(** [train] with the defaults of the source for what is not given. *)
Definition run_train (train_iter val_iter val_step test_iter : Z)
    (pretrain_model : option string) (s : @St world)
  : @St world * list (@event world) * res unit :=
  train fw "m" 500 "./checkpoint" "./test_result"
    1 200000000 (1 # 100000) train_iter val_iter val_step test_iter
    false pretrain_model s.

End Demo.

(** ** More of what a run shows *)

Section Displays.
Context `{C : Collaborators}.

(** The progress lines of [eval]: the step and the accuracy shown. *)
Definition progress_of (e : event) : option (Z * Q) :=
  match e with EvalProgress step a => Some (step, a) | _ => None end.
Definition eval_progress (log : list event) : list (Z * Q) :=
  omap progress_of log.

(** What the successive calls of [model.loss()] returned. *)
Definition loss_of (e : event) : option Q :=
  match e with ModelLoss l => Some l | _ => None end.
Definition losses (log : list event) : list Q := omap loss_of log.

(** The progress lines of [train]: the step and the loss shown. *)
Definition shown_loss_of (e : event) : option (Z * Q) :=
  match e with TrainProgress step l _ => Some (step, l) | _ => None end.
Definition shown_losses (log : list event) : list (Z * Q) :=
  omap shown_loss_of log.

(** The directories created. *)
Definition made_dir_of (e : event) : option string :=
  match e with MakeDirs p => Some p | _ => None end.
Definition made_dirs (log : list event) : list string := omap made_dir_of log.

(** The steps of a run of [train] that a validation follows. *)
Fixpoint validated_steps (ms : list mark) : list Z :=
  match ms with
  | MStep k :: ((MEval None :: _) as rest) => k :: validated_steps rest
  | _ :: rest => validated_steps rest
  | [] => []
  end.

(** The actions that touch the file system. *)
Definition is_fs_write (e : event) : bool :=
  match e with MakeDirs _ | TorchSave _ _ => true | _ => false end.

(** What [os.path.exists] tests. *)
Definition present (path : string) (s : St) : Prop :=
  path ∈ dirs s ∨ is_Some (files s !! path).

(** Lines 166-167 of [train]. *)
Definition ensure_dir (ckpt_dir : string) : M St event unit :=
  there <- os_path_exists ckpt_dir ;;
  if there : bool then ret tt else os_makedirs ckpt_dir.

(** The actions a call of [eval] with these arguments can perform. *)
Definition eval_action (self : Framework)
    (support_size query_size query_class eval_iter : Z)
    (ckpt : option string) (e : event) : Prop :=
  match e with
  | Println _ | EvalProgress _ _ | ModelAccuracy _ | EvalReturn _ => True
  | EvalCall c n => c = ckpt /\ n = eval_iter
  | NextNewRelation l reference ss qs qc =>
      l = match ckpt with
          | None => val_data_loader self
          | Some _ => test_data_loader self
          end /\
      reference = train_data_loader self /\
      ss = support_size /\ qs = query_size /\ qc = query_class
  | TorchLoad p => ckpt = Some p
  | _ => False
  end.

(** The actions a call of [train] with these arguments can perform: those
    of its validations, those of its test evaluation, and its own. *)
Definition train_action (self : Framework) (model_name : string)
    (batch_size : Z) (ckpt_dir : string) (val_iter test_iter : Z)
    (pretrain_model : option string) (e : event) : Prop :=
  eval_action self 10 10 2 val_iter None e \/
  eval_action self 10 10 2 test_iter
    (Some (os_path_join ckpt_dir (model_name +:+ ".pth.tar"))) e \/
  match e with
  | Println _ | TrainProgress _ _ _ | ModelLoss _ | ModelAccuracy _
  | PrintTestAccuracy _ => True
  | NextBatch l n => l = train_data_loader self /\ n = batch_size
  | TorchLoad p => pretrain_model = Some p
  | MakeDirs p => p = ckpt_dir
  | TorchSave obj p =>
      p = os_path_join ckpt_dir (model_name +:+ ".pth.tar") /\
      exists sd, obj = {["state_dict" := VState sd]}
  | _ => False
  end.

(** A relation between the store before a run, its actions and the store
    after that holds of a run without action, is kept by sequencing and
    does not look at the model nor at the data loaders. *)
Class RunInvariant (R : St -> list event -> St -> Prop) : Prop := {
  inv_nil : forall s, R s [] s;
  inv_app : forall s l1 s1 l2 s2,
    R s l1 s1 -> R s1 l2 s2 -> R s (l1 ++ l2) s2;
  inv_model : forall s m, R s [] (set_model m s);
  inv_heap : forall s h, R s [] (set_heap h s)
}.

(** Every run of [m] is in [R]. *)
Definition respects (R : St -> list event -> St -> Prop) {A}
    (m : M St event A) : Prop :=
  forall s, R s (actions (m s)) (store (m s)).

End Displays.

(** ** Invariants of runs *)

Section Invariants.
Context `{C : Collaborators}.

(** Every action of the run is one of [P]. *)
Definition only (P : event -> Prop) : St -> list event -> St -> Prop :=
  fun _ log _ => Forall P log.

(** The run leaves the file system as it is. *)
Definition unchanged : St -> list event -> St -> Prop :=
  fun s _ s' => files s' = files s /\ dirs s' = dirs s.

(** The run creates no directory but [d], creates it at most once and not
    at all when it exists; what exists keeps existing. *)
Definition dir_once (d : string) : St -> list event -> St -> Prop :=
  fun s log s' =>
    (present d s -> present d s' /\ made_dirs log = []) /\
    (made_dirs log = [] \/ made_dirs log = [d] /\ present d s').

End Invariants.

Section LastSave.
Context `{C : Collaborators}.

(** The object of the last [torch.save] of a log. *)
Definition save_of (e : event) : option (gmap string value) :=
  match e with TorchSave obj _ => Some obj | _ => None end.
Definition last_save (log : list event) : option (gmap string value) :=
  last (omap save_of log).

(** After the run, [path] holds the object that the run saved last, a
    state dict alone, or what it held before when the run saved
    nothing. *)
Definition saved_last (path : string) : St -> list event -> St -> Prop :=
  fun s log s' =>
    match last_save log with
    | Some obj =>
        files s' !! path = Some obj /\
        exists sd, obj = {["state_dict" := VState sd]}
    | None => files s' !! path = files s !! path
    end.

End LastSave.

(** ** The windows of the displayed averages *)

(** The number of iterations that the display of iteration [k] of a run
    of [train] from iteration 0 averages: iteration 0 alone, and from then
    on the iterations after the last multiple of [val_step] below [k]. *)
Definition window_size (val_step : Z) (k : nat) : nat :=
  match k with
  | O => 1
  | S j => S (Z.to_nat (Z.of_nat j mod val_step))
  end.

(** ** The version test of [Framework.item] *)

(** What the test of line 77 can raise. *)
Inductive version_error : Type :=
| IndexError                    (* the version has no second component *)
| ValueError (literal : string) (* int() of a string that is no integer *).

(** [s.split(sep)] for a separator of one character. *)
Fixpoint split_on (sep : ascii) (s : string) : list string :=
  match s with
  | EmptyString => [EmptyString]
  | String c r =>
      if Ascii.eqb c sep then EmptyString :: split_on sep r
      else match split_on sep r with
           | w :: ws => String c w :: ws
           | [] => [String c EmptyString]
           end
  end.

(** The characters that [int] skips around a literal: the ASCII white
    space, and of the characters above 127 the two that are spaces
    (next line and no-break space). *)
Definition is_space (c : ascii) : bool :=
  let n := nat_of_ascii c in
  ((9 <=? n) && (n <=? 13) || (n =? 32) || (n =? 133) || (n =? 160))%nat.

Definition digit_of (c : ascii) : option Z :=
  let n := nat_of_ascii c in
  if ((48 <=? n) && (n <=? 57))%nat then Some (Z.of_nat (n - 48)) else None.

Fixpoint lstrip (s : string) : string :=
  match s with
  | String c r => if is_space c then lstrip r else s
  | EmptyString => s
  end.

Fixpoint all_space (s : string) : bool :=
  match s with
  | String c r => is_space c && all_space r
  | EmptyString => true
  end.

(** The rest of a decimal literal after a digit: digits, single
    underscores between digits, then white space only. *)
Fixpoint digits_tail (s : string) (acc : Z) : option Z :=
  match s with
  | EmptyString => Some acc
  | String c r =>
      match digit_of c with
      | Some d => digits_tail r (10 * acc + d)
      | None =>
          if Ascii.eqb c "_" then
            match r with
            | String c' r' =>
                match digit_of c' with
                | Some d => digits_tail r' (10 * acc + d)
                | None => None
                end
            | EmptyString => None
            end
          else if all_space s then Some acc
          else None
      end
  end.

(** [int(s)] on a string of characters below 256, in base 10 ([None]:
    ValueError).  The limit that recent interpreters put on the number of
    digits is not modelled. *)
Definition python_int (s : string) : option Z :=
  let unsigned (body : string) : option Z :=
    match body with
    | String c r =>
        match digit_of c with
        | Some d => digits_tail r d
        | None => None
        end
    | EmptyString => None
    end in
  match lstrip s with
  | String c r =>
      if Ascii.eqb c "+" then unsigned r
      else if Ascii.eqb c "-" then option_map Z.opp (unsigned r)
      else unsigned (String c r)
  | EmptyString => None
  end.

(** Line 77: [int(torch.__version__.split('.')[1]) < 4], the test that
    sends [item] to [x[0]] rather than to [x.item()]. *)
Definition item_uses_index (version : string) : version_error + bool :=
  match split_on "." version with
  | _ :: minor :: _ =>
      match python_int minor with
      | Some n => inr (n <? 4)
      | None => inl (ValueError minor)
      end
  | _ => inl IndexError
  end.

(** No character of [s] is a dot. *)
Fixpoint no_dot (s : string) : bool :=
  match s with
  | String c r => negb (Ascii.eqb c ".") && no_dot r
  | EmptyString => true
  end.

(** ** More stores for the scripted instance *)

Module Stores.

(** A checkpoint file without a state dict. *)
Definition without_state_dict : @St Demo.world :=
  @Build_St Demo.world (Model_init 0) [1 # 2]
    {["bad.pth.tar" := {["iter" := @VInt Demo.world 3]}]} ∅.

(** A checkpoint file as [train] writes it: a state dict and no
    iteration index. *)
Definition without_iter : @St Demo.world :=
  @Build_St Demo.world (Model_init 0) [1 # 2]
    {["half.pth.tar" := {["state_dict" := @VState Demo.world 7]}]} ∅.

(** The checkpoint of an earlier run under the name of the model, and
    two validations to come that reach nothing. *)
Definition with_old_checkpoint : @St Demo.world :=
  @Build_St Demo.world (Model_init 0) [0 # 1; 0 # 1; 1 # 2]
    {["./checkpoint/m.pth.tar" := {["state_dict" := @VState Demo.world 7]}]}
    ∅.

End Stores.

(** * Facts about rationals and [__accuracy__] *)

Lemma Qsum_from (l : list Q) (acc : Q) :
  (fold_left Qplus l acc == acc + Qsum l)%Q.
Proof.
  unfold Qsum. revert acc.
  induction l as [|x l IH]; intros acc; simpl.
  - lra.
  - rewrite (IH (acc + x)%Q), (IH (0 + x)%Q). lra.
Qed.

Lemma Qsum_cons (x : Q) (l : list Q) : (Qsum (x :: l) == x + Qsum l)%Q.
Proof. unfold Qsum at 1. simpl. rewrite Qsum_from. lra. Qed.

Lemma inject_nat_S (n : nat) :
  (inject_Z (Z.of_nat (S n)) == 1 + inject_Z (Z.of_nat n))%Q.
Proof.
  rewrite Nat2Z.inj_succ. unfold Z.succ. rewrite inject_Z_plus.
  change (inject_Z 1) with 1%Q. ring.
Qed.

Lemma inject_nat_nonneg (n : nat) : (0 <= inject_Z (Z.of_nat n))%Q.
Proof. change 0%Q with (inject_Z 0). rewrite <- Zle_Qle. lia. Qed.

Lemma Qsum_bounds (l : list Q) :
  (forall x, In x l -> (0 <= x <= 1)%Q) ->
  (0 <= Qsum l <= inject_Z (Z.of_nat (length l)))%Q.
Proof.
  induction l as [|x l IH]; intros H.
  - split; apply Qle_refl.
  - rewrite Qsum_cons. cbn [length]. rewrite inject_nat_S.
    assert (Hx : (0 <= x <= 1)%Q) by (apply H; now left).
    assert (Hl : (0 <= Qsum l <= inject_Z (Z.of_nat (length l)))%Q)
      by (apply IH; intros y Hy; apply H; now right).
    lra.
Qed.

Lemma mean_in_unit (a n : Q) : (0 < n)%Q -> (0 <= a <= n)%Q -> (0 <= a / n <= 1)%Q.
Proof.
  intros Hn [Ha Han]. split.
  - apply Qle_shift_div_l; [exact Hn | lra].
  - apply Qle_shift_div_r; [exact Hn | lra].
Qed.

Lemma tensor_eq_length (a b : list Z) :
  length a = length b -> length (tensor_eq a b) = length a.
Proof.
  revert b. induction a as [|x a IH]; intros [|y b] H; simpl in *; try lia.
  f_equal. apply IH. lia.
Qed.

Lemma Qsum_tensor_eq (a b : list Z) :
  (Qsum (to_float (tensor_eq a b)) == inject_Z (Z.of_nat (matches a b)))%Q.
Proof.
  revert b. induction a as [|x a IH]; intros [|y b]; simpl;
    try (unfold Qsum; simpl; reflexivity).
  unfold to_float in *. cbn [map]. rewrite Qsum_cons, IH.
  destruct (Z.eqb_spec x y) as [E|E]; destruct (Z.eq_dec x y) as [E'|E'];
    try contradiction.
  - change (1 + matches a b)%nat with (S (matches a b)).
    rewrite inject_nat_S. lra.
  - simpl. lra.
Qed.

Lemma matches_le (a b : list Z) : (matches a b <= length a)%nat.
Proof.
  revert b. induction a as [|x a IH]; intros [|y b]; simpl; try lia.
  specialize (IH b). destruct (Z.eq_dec x y); lia.
Qed.

(** C8 (amended). For every pair of non-empty prediction and label
    sequences of one length, [__accuracy__] returns the number of positions
    where they agree divided by the length, a value in [0,1].  (On empty
    tensors the mean is NaN.) *)
Theorem accuracy_fraction (pred label : Tensor) :
  length pred = length label ->
  pred <> [] ->
  exists q : Q,
    __accuracy__ pred label = Ok (Some q) /\
    (q == inject_Z (Z.of_nat (matches pred label))
          / inject_Z (Z.of_nat (length pred)))%Q /\
    (0 <= q <= 1)%Q.
Proof.
  intros Hlen Hne.
  unfold __accuracy__, tensor_eq_broadcast, view_flat.
  rewrite <- Hlen, Nat.eqb_refl.
  assert (Hl : length (to_float (tensor_eq pred label)) = length pred).
  { unfold to_float. rewrite length_map. now apply tensor_eq_length. }
  unfold torch_mean.
  destruct (to_float (tensor_eq pred label)) as [|x l] eqn:E.
  - destruct pred; [congruence | discriminate].
  - rewrite <- E in *. rewrite Hl. eexists. split; [reflexivity|].
    assert (Hpos : (0 < inject_Z (Z.of_nat (length pred)))%Q).
    { change 0%Q with (inject_Z 0). rewrite <- Zlt_Qlt.
      destruct pred; [congruence | simpl; lia]. }
    split.
    + rewrite Qsum_tensor_eq. reflexivity.
    + rewrite Qsum_tensor_eq. apply mean_in_unit; [exact Hpos|].
      split; [apply inject_nat_nonneg|].
      rewrite <- Zle_Qle. pose proof (matches_le pred label). lia.
Qed.

(** * Running the monad *)


Section MonadFacts.
Context {S E : Type}.
Implicit Types (s : S) (l : list E).

Lemma after_nil {A} (x : S * list E * res A) : after [] x = x.
Proof. now destruct x as [[? ?] ?]. Qed.

Lemma after_after {A} l k (x : S * list E * res A) :
  after l (after k x) = after (l ++ k) x.
Proof. unfold after, store, actions, outcome. cbn. now rewrite app_assoc. Qed.

Lemma after_triple {A} l s k (r : res A) : after l (s, k, r) = (s, l ++ k, r).
Proof. reflexivity. Qed.

Lemma bind_ok {A B} (m : M S E A) (f : A -> M S E B) s s1 l1 a :
  m s = (s1, l1, Ok a) -> bind m f s = after l1 (f a s1).
Proof.
  intros H. unfold bind, after, store, actions, outcome. rewrite H.
  now destruct (f a s1) as [[s2 l2] r].
Qed.

Lemma bind_raise {A B} (m : M S E A) (f : A -> M S E B) s s1 l1 e :
  m s = (s1, l1, Raise e) -> bind m f s = (s1, l1, Raise e).
Proof. intros H. unfold bind. now rewrite H. Qed.

Lemma bind_bind {A B D} (m : M S E A) (f : A -> M S E B) (g : B -> M S E D) s :
  bind (bind m f) g s = bind m (fun a => bind (f a) g) s.
Proof.
  unfold bind. destruct (m s) as [[s1 l1] [a|e]]; [|reflexivity].
  destruct (f a s1) as [[s2 l2] [b|e]]; [|reflexivity].
  destruct (g b s2) as [[s3 l3] r]. now rewrite app_assoc.
Qed.

Lemma bind_ret {A B} (a : A) (f : A -> M S E B) s : bind (ret a) f s = f a s.
Proof. rewrite (bind_ok _ _ s s [] a) by reflexivity. apply after_nil. Qed.

Lemma bind_emit {B} (ev : E) (f : unit -> M S E B) s :
  bind (emit ev) f s = after [ev] (f tt s).
Proof. now apply bind_ok. Qed.

Lemma bind_gets {A B} (g : S -> A) (f : A -> M S E B) s :
  bind (gets g) f s = f (g s) s.
Proof. rewrite (bind_ok _ _ s s [] (g s)) by reflexivity. apply after_nil. Qed.

Lemma bind_modify {B} (g : S -> S) (f : unit -> M S E B) s :
  bind (modify g) f s = f tt (g s).
Proof. rewrite (bind_ok _ _ s (g s) [] tt) by reflexivity. apply after_nil. Qed.

Lemma bind_lift_ok {A B} (a : A) (f : A -> M S E B) s :
  bind (lift (Ok a)) f s = f a s.
Proof. apply bind_ret. Qed.

Lemma bind_lift_raise {A B} (e : exn) (f : A -> M S E B) s :
  bind (lift (Raise e)) f s = (s, [], Raise e).
Proof. reflexivity. Qed.

Lemma bind_raise_now {A B} (e : exn) (f : A -> M S E B) s :
  bind (raise e) f s = (s, [], Raise e).
Proof. reflexivity. Qed.

Lemma run_emit (ev : E) s : emit ev s = (s, [ev], Ok tt).
Proof. reflexivity. Qed.

Lemma run_ret {A} (a : A) s : @ret S E A a s = (s, [], Ok a).
Proof. reflexivity. Qed.

Lemma run_lift {A} (r : res A) s : @lift S E A r s = (s, [], r).
Proof. reflexivity. Qed.

Lemma store_after {A} l (x : S * list E * res A) : store (after l x) = store x.
Proof. reflexivity. Qed.
Lemma actions_after {A} l (x : S * list E * res A) :
  actions (after l x) = l ++ actions x.
Proof. reflexivity. Qed.
Lemma outcome_after {A} l (x : S * list E * res A) :
  outcome (after l x) = outcome x.
Proof. reflexivity. Qed.

Lemma run_eta {A} (x : S * list E * res A) : x = (store x, actions x, outcome x).
Proof. now destruct x as [[? ?] ?]. Qed.

End MonadFacts.

Create Rewrite HintDb run.

#[export] Hint Rewrite @bind_bind @bind_ret @bind_emit @bind_gets @bind_modify
  @bind_lift_ok @bind_lift_raise @bind_raise_now @after_after @after_triple
  @run_emit @run_ret @run_lift : run.

Lemma omap_cons_from {A B} (f : A -> option B) (x : A) (l : list A) :
  omap f (x :: l) = from_option (fun y => y :: omap f l) (omap f l) (f x).
Proof. cbn. now destruct (f x). Qed.

Section ObservationFacts.
Context `{C : Collaborators}.
Implicit Types (e : event) (l k : list event).

Lemma marks_app l k : marks (l ++ k) = marks l ++ marks k.
Proof. apply omap_app. Qed.
Lemma marks_cons e l :
  marks (e :: l) = from_option (fun y => y :: marks l) (marks l) (mark_of e).
Proof. apply omap_cons_from. Qed.
Lemma steps_app l k : steps (l ++ k) = steps l ++ steps k.
Proof. apply omap_app. Qed.
Lemma steps_cons e l :
  steps (e :: l) = from_option (fun y => y :: steps l) (steps l) (step_of e).
Proof. apply omap_cons_from. Qed.
Lemma episode_loaders_app l k :
  episode_loaders (l ++ k) = episode_loaders l ++ episode_loaders k.
Proof. apply omap_app. Qed.
Lemma episode_loaders_cons e l :
  episode_loaders (e :: l)
  = from_option (fun y => y :: episode_loaders l) (episode_loaders l)
      (loaders_of e).
Proof. apply omap_cons_from. Qed.
Lemma accuracies_app l k : accuracies (l ++ k) = accuracies l ++ accuracies k.
Proof. apply omap_app. Qed.
Lemma accuracies_cons e l :
  accuracies (e :: l)
  = from_option (fun y => y :: accuracies l) (accuracies l) (accuracy_of e).
Proof. apply omap_cons_from. Qed.
Lemma loads_app l k : loads (l ++ k) = loads l ++ loads k.
Proof. apply omap_app. Qed.
Lemma loads_cons e l :
  loads (e :: l) = from_option (fun y => y :: loads l) (loads l) (load_of e).
Proof. apply omap_cons_from. Qed.
Lemma test_reports_app l k :
  test_reports (l ++ k) = test_reports l ++ test_reports k.
Proof. apply omap_app. Qed.
Lemma test_reports_cons e l :
  test_reports (e :: l)
  = from_option (fun y => y :: test_reports l) (test_reports l) (report_of e).
Proof. apply omap_cons_from. Qed.
Lemma writes_app (l k : list mark) : writes (l ++ k) = writes l ++ writes k.
Proof. apply omap_app. Qed.
Lemma writes_cons (m : mark) (l : list mark) :
  writes (m :: l) = from_option (fun y => y :: writes l) (writes l) (write_of m).
Proof. apply omap_cons_from. Qed.

Lemma marks_nil : marks [] = [].
Proof. reflexivity. Qed.
Lemma steps_nil : steps [] = [].
Proof. reflexivity. Qed.
Lemma episode_loaders_nil : episode_loaders [] = [].
Proof. reflexivity. Qed.
Lemma accuracies_nil : accuracies [] = [].
Proof. reflexivity. Qed.
Lemma loads_nil : loads [] = [].
Proof. reflexivity. Qed.
Lemma test_reports_nil : test_reports [] = [].
Proof. reflexivity. Qed.
Lemma writes_nil : writes [] = [].
Proof. reflexivity. Qed.

End ObservationFacts.

Create Rewrite HintDb obs.

#[export] Hint Rewrite @marks_app @marks_cons @marks_nil
  @steps_app @steps_cons @steps_nil
  @episode_loaders_app @episode_loaders_cons @episode_loaders_nil
  @accuracies_app @accuracies_cons @accuracies_nil
  @loads_app @loads_cons @loads_nil
  @test_reports_app @test_reports_cons @test_reports_nil
  @writes_app @writes_cons @writes_nil : obs.

(** Evaluate the observations of a log built from known events. *)
Ltac observe :=
  autorewrite with obs;
  cbn beta iota delta [from_option mark_of step_of loaders_of accuracy_of
                       load_of report_of write_of].

Lemma py_div_ok (x y : Q) : ~ (y == 0)%Q -> py_div x y = Ok (x / y)%Q.
Proof.
  intros H. unfold py_div.
  destruct (Qeq_bool y 0) eqn:E; [|reflexivity].
  apply Qeq_bool_iff in E. contradiction.
Qed.

Lemma py_div_zero (x y : Q) : (y == 0)%Q -> py_div x y = Raise ZeroDivisionError.
Proof.
  intros H. unfold py_div. apply Qeq_bool_iff in H. now rewrite H.
Qed.

Lemma py_gt_spec (x y : Q) : py_gt x y = true <-> (y < x)%Q.
Proof.
  unfold py_gt. rewrite Qlt_alt. destruct (y ?= x)%Q; split; congruence.
Qed.

Lemma py_gt_false (x y : Q) : py_gt x y = false <-> (x <= y)%Q.
Proof.
  split; intros H.
  - apply Qnot_lt_le. intros L. apply py_gt_spec in L. congruence.
  - destruct (py_gt x y) eqn:E; [|reflexivity].
    apply py_gt_spec in E. lra.
Qed.

Lemma py_mod_zero a : py_mod a 0 = Raise ZeroDivisionError.
Proof. reflexivity. Qed.

Lemma py_mod_ok a b : b <> 0 -> py_mod a b = Ok (a mod b).
Proof. intros H. unfold py_mod. now destruct (Z.eqb_spec b 0). Qed.

Lemma range_length (n : Z) : length (range 0 n) = Z.to_nat n.
Proof. unfold range. rewrite length_seqZ. f_equal. lia. Qed.

Lemma range_nil (a b : Z) : b <= a -> range a b = [].
Proof.
  intros H. unfold range, seqZ.
  replace (Z.to_nat (b - a)) with 0%nat by lia. reflexivity.
Qed.

Section CallFacts.
Context `{C : Collaborators}.
Variable self : Framework.

Lemma bind_next_new_relation {B} l r ss qs qc (f : Episode -> M St event B) s :
  bind (loader_next_new_relation l r ss qs qc) f s
  = after [NextNewRelation l r ss qs qc]
      (f (fst (next_new_relation l r ss qs qc (heap s)))
         (set_heap (snd (next_new_relation l r ss qs qc (heap s))) s)).
Proof. now apply bind_ok. Qed.

Lemma bind_next_batch {B} l bs (f : Batch -> M St event B) s :
  bind (loader_next_batch l bs) f s
  = after [NextBatch l bs]
      (f (fst (next_batch l bs (heap s)))
         (set_heap (snd (next_batch l bs (heap s))) s)).
Proof. now apply bind_ok. Qed.

Lemma bind_optimizer_update {B} opt (f : OptState -> M St event B) s :
  bind (optimizer_update opt) f s
  = f (fst (optimizer_step opt (model s)))
      (set_model (snd (optimizer_step opt (model s))) s).
Proof.
  rewrite (bind_ok _ _ s _ [] _) by reflexivity. apply after_nil.
Qed.

End CallFacts.

#[export] Hint Rewrite @bind_next_new_relation @bind_next_batch
  @bind_optimizer_update : run.

(** * [__load_model__] and [eval] *)

Section EvalFacts.
Context `{C : Collaborators}.
Variable self : Framework.

Lemma eval_body_run ds ss qs qc it ir isamp s :
  (0 <= isamp)%Q ->
  let ep := fst (next_new_relation ds (train_data_loader self) ss qs qc (heap s)) in
  let h := snd (next_new_relation ds (train_data_loader self) ss qs qc (heap s)) in
  let m := forward_new ep (model s) in
  eval_body self ds ss qs qc it (ir, isamp) s =
    (set_model m (set_heap h s),
     [NextNewRelation ds (train_data_loader self) ss qs qc;
      ModelAccuracy (_accuracy m);
      EvalProgress (it + 1) (100 * (ir + _accuracy m) / (isamp + 1))%Q],
     Ok ((ir + _accuracy m)%Q, (isamp + 1)%Q)).
Proof.
  intros Hs ep h m.
  unfold eval_body, model_forward_new, model_accuracy, item.
  autorewrite with run. cbn [set_model set_heap model heap].
  rewrite py_div_ok by lra.
  autorewrite with run. reflexivity.
Qed.


Lemma eval_loop_run ds ss qs qc its : forall ir isamp s,
  (0 <= isamp)%Q ->
  exists s' log ir' isamp',
    for_ its (eval_body self ds ss qs qc) (ir, isamp) s
      = (s', log, Ok (ir', isamp')) /\
    ir' = fold_left Qplus (accuracies log) ir /\
    (isamp' == isamp + inject_Z (Z.of_nat (length its)))%Q /\
    episodes_only self ds (length its) log /\
    files s' = files s /\ dirs s' = dirs s.
Proof.
  induction its as [|it its IH]; intros ir isamp s Hs.
  - exists s, [], ir, isamp. cbn. repeat split; try reflexivity.
    change (inject_Z 0) with 0%Q. ring.
  - pose proof (eval_body_run ds ss qs qc it ir isamp s Hs) as Hb.
    cbn zeta in Hb.
    set (m := forward_new _ (model s)) in Hb.
    set (s1 := set_model m _) in Hb.
    destruct (IH (ir + _accuracy m)%Q (isamp + 1)%Q s1) as
      (s' & log & ir' & isamp' & Hrun & Hir & His & Hep & Hf & Hd); [lra|].
    cbn [for_]. rewrite (bind_ok _ _ _ _ _ _ Hb), Hrun, after_triple.
    do 4 eexists. split; [reflexivity|].
    destruct Hep as (He1 & He2 & He3 & He4 & He5 & He6).
    cbn [length]. rewrite inject_nat_S.
    unfold episodes_only. observe.
    cbn [length replicate app].
    rewrite ?He1, ?He2, ?He3, ?He4, ?He5, ?He6.
    repeat split; try assumption; try congruence.
    rewrite His. ring.
Qed.

(** [eval] once its data set is chosen. *)
Lemma eval_raise_select ss qs qc n ckpt s s1 l1 e :
  eval_dataset_of self ckpt s = (s1, l1, Raise e) ->
  eval self ss qs qc n ckpt s
    = (s1, EvalCall ckpt n :: Println EmptyString :: l1, Raise e).
Proof.
  intros H. unfold eval. autorewrite with run.
  rewrite (bind_raise _ _ _ _ _ _ H). reflexivity.
Qed.

Lemma eval_no_iteration ss qs qc n ckpt s s1 l1 ds :
  eval_dataset_of self ckpt s = (s1, l1, Ok ds) ->
  n <= 0 ->
  eval self ss qs qc n ckpt s
    = (s1, EvalCall ckpt n :: Println EmptyString :: l1 ++ [Println EmptyString],
       Raise ZeroDivisionError).
Proof.
  intros H Hn. unfold eval. autorewrite with run.
  rewrite (bind_ok _ _ _ _ _ _ H), (range_nil 0 n Hn).
  cbn [for_]. autorewrite with run. cbn [fst snd].
  rewrite py_div_zero by reflexivity.
  autorewrite with run. rewrite <- ?app_assoc. reflexivity.
Qed.

Lemma eval_iterations ss qs qc n ckpt s s1 l1 ds :
  eval_dataset_of self ckpt s = (s1, l1, Ok ds) ->
  1 <= n ->
  exists s' log acc,
    eval self ss qs qc n ckpt s
      = (s', EvalCall ckpt n :: Println EmptyString :: l1 ++ log
               ++ [Println EmptyString; EvalReturn acc], Ok acc) /\
    (acc == Qsum (accuracies log) / inject_Z n)%Q /\
    episodes_only self ds (Z.to_nat n) log /\
    files s' = files s1 /\ dirs s' = dirs s1.
Proof.
  intros H Hn.
  destruct (eval_loop_run ds ss qs qc (range 0 n) 0%Q 0%Q s1) as
    (s' & log & ir' & isamp' & Hrun & Hir & His & Hep & Hf & Hd); [lra|].
  rewrite range_length in His, Hep.
  assert (Hpos : (0 < inject_Z n)%Q).
  { change 0%Q with (inject_Z 0). rewrite <- Zlt_Qlt. lia. }
  rewrite Z2Nat.id in His by lia.
  exists s', log, (ir' / isamp')%Q.
  split.
  - unfold eval. autorewrite with run.
    rewrite (bind_ok _ _ _ _ _ _ H).
    rewrite (bind_ok _ _ _ _ _ _ Hrun).
    autorewrite with run. cbn [fst snd].
    rewrite py_div_ok by (rewrite His; lra).
    autorewrite with run. rewrite <- ?app_assoc. reflexivity.
  - split; [|auto].
    rewrite His, Hir. fold (Qsum (accuracies log)).
    apply Qdiv_comp; [reflexivity | ring].
Qed.


Lemma load_missing path s :
  files s !! path = None ->
  __load_model__ path s = (s, [], Raise (not_found path)).
Proof.
  intros H. unfold __load_model__, os_path_isfile. autorewrite with run.
  rewrite bool_decide_eq_false_2 by (intros [? ?]; congruence).
  reflexivity.
Qed.

Lemma load_found path ck s :
  files s !! path = Some ck ->
  __load_model__ path s = (s, [TorchLoad path; loaded_line path], Ok ck).
Proof.
  intros H. unfold __load_model__, os_path_isfile, torch_load.
  autorewrite with run.
  rewrite bool_decide_eq_true_2 by eauto. cbn iota.
  autorewrite with run. rewrite H.
  autorewrite with run. reflexivity.
Qed.

Lemma select_none s :
  eval_dataset_of self None s = (s, [], Ok (val_data_loader self)).
Proof. reflexivity. Qed.

Lemma select_missing path s :
  files s !! path = None ->
  eval_dataset_of self (Some path) s = (s, [], Raise (not_found path)).
Proof.
  intros H. unfold eval_dataset_of.
  now rewrite (bind_raise _ _ _ _ _ _ (load_missing path s H)).
Qed.

Lemma select_loaded path ck sd s :
  files s !! path = Some ck ->
  ck !! "state_dict" = Some (VState sd) ->
  eval_dataset_of self (Some path) s
    = (set_model (load_state_dict sd (model s)) s,
       [TorchLoad path; loaded_line path], Ok (test_data_loader self)).
Proof.
  intros H Hsd. unfold eval_dataset_of.
  rewrite (bind_ok _ _ _ _ _ _ (load_found path ck s H)).
  unfold getitem. rewrite Hsd. unfold model_load_state_dict.
  autorewrite with run. reflexivity.
Qed.

(** Whatever the checkpoint, choosing the data set writes no file and
    shows nothing of a training run. *)
Lemma select_quiet ckpt s :
  forall s1 l1 r, eval_dataset_of self ckpt s = (s1, l1, r) ->
  files s1 = files s /\ dirs s1 = dirs s /\
  marks l1 = [] /\ steps l1 = [] /\
  test_reports l1 = [] /\ episode_loaders l1 = [] /\
  accuracies l1 = [].
Proof.
  intros s1 l1 r.
  destruct ckpt as [path|]; [|intros [= <- <- <-]; cbn; auto 10].
  destruct (files s !! path) as [ck|] eqn:H.
  - unfold eval_dataset_of.
    rewrite (bind_ok _ _ _ _ _ _ (load_found path ck s H)).
    unfold getitem, model_load_state_dict.
    destruct (ck !! "state_dict") as [[sd|i]|]; autorewrite with run;
      intros [= <- <- <-]; cbn; auto 10.
  - rewrite (select_missing path s H). intros [= <- <- <-]. cbn; auto 10.
Qed.

(** The ways [eval] can end. *)
Lemma eval_cases ss qs qc n ckpt s :
  exists s' log r,
    eval self ss qs qc n ckpt s = (s', log, r) /\
    files s' = files s /\ dirs s' = dirs s /\
    steps log = [] /\ test_reports log = [] /\
    ((exists acc, r = Ok acc /\ 1 <= n /\ marks log = [MEval ckpt; MAcc acc]) \/
     (exists e, r = Raise e /\ marks log = [MEval ckpt])).
Proof.
  destruct (eval_dataset_of self ckpt s) as [[s1 l1] [ds|e]] eqn:Hsel;
    destruct (select_quiet ckpt s _ _ _ Hsel) as (Hf & Hd & Hm & Hst & Htr & _ & _).
  - destruct (Z_le_gt_dec n 0) as [Hn|Hn].
    + rewrite (eval_no_iteration ss qs qc n ckpt s s1 l1 ds Hsel Hn).
      do 3 eexists. split; [reflexivity|].
      observe. rewrite Hm, Hst, Htr. cbn.
      repeat split; auto. right. eauto.
    + destruct (eval_iterations ss qs qc n ckpt s s1 l1 ds Hsel)
        as (s' & log & acc & Hrun & _ & Hep & Hf' & Hd'); [lia|].
      rewrite Hrun. do 3 eexists. split; [reflexivity|].
      destruct Hep as (_ & _ & Hm' & Hst' & _ & Htr').
      observe. rewrite Hm, Hst, Htr, Hm', Hst', Htr'. cbn.
      repeat split; try congruence. left. exists acc. repeat split; auto. lia.
  - rewrite (eval_raise_select ss qs qc n ckpt s s1 l1 e Hsel).
    do 3 eexists. split; [reflexivity|].
    observe. rewrite Hm, Hst, Htr.
    repeat split; auto. right. eauto.
Qed.

End EvalFacts.

(** * One iteration of the training loop *)

Section TrainFacts.
Context `{C : Collaborators}.
Variable self : Framework.
Variables (model_name ckpt_dir : string) (batch_size val_iter val_step : Z).



Lemma checkpoint_skipped acc lc s :
  py_gt acc (best_acc lc) = false ->
  train_checkpoint model_name ckpt_dir acc lc s = (s, [], Ok lc).
Proof. intros H. unfold train_checkpoint. now rewrite H. Qed.

Lemma checkpoint_written acc lc s :
  py_gt acc (best_acc lc) = true ->
  exists s' log,
    train_checkpoint model_name ckpt_dir acc lc s
      = (s', log, Ok (with_best acc lc)) /\
    marks log = [MSave (save_path model_name ckpt_dir)] /\ steps log = [] /\
    test_reports log = [] /\
    files s' = <[save_path model_name ckpt_dir := {["state_dict" := VState (state_dict (model s))]}]>
                 (files s) /\
    model s' = model s /\ heap s' = heap s.
Proof.
  intros H. unfold train_checkpoint. rewrite H.
  unfold os_path_exists, os_makedirs, torch_save.
  autorewrite with run.
  destruct (bool_decide _); autorewrite with run;
    do 2 eexists; (split; [reflexivity|]); observe; cbn; auto 10.
Qed.


Lemma train_body_cases it lc s :
  (0 <= iter_sample lc)%Q ->
  exists s' log r vm,
    train_body self model_name batch_size ckpt_dir val_iter val_step it lc s
      = (s', log, r) /\
    marks log = MStep (it + 1) :: vm /\
    steps log = [it + 1] /\
    test_reports log = [] /\
    body_case model_name ckpt_dir val_iter val_step it lc s s' vm r.
Proof.
  intros Hs.
  unfold train_body, model_forward_base, model_loss, model_accuracy, item.
  autorewrite with run.
  rewrite !(py_div_ok _ (iter_sample lc + 1)) by lra.
  autorewrite with run.
  cbn [set_model set_heap model heap].
  set (b := fst (next_batch _ _ _)).
  set (h := snd (next_batch _ _ _)).
  set (o := fst (optimizer_step _ _)).
  set (m2 := snd (optimizer_step _ _)).
  destruct (Z.eq_dec val_step 0) as [Hz|Hz].
  - replace (py_mod it val_step) with (@Raise Z ZeroDivisionError)
      by (now rewrite Hz).
    autorewrite with run.
    do 4 eexists. split; [reflexivity|]. observe. cbn.
    repeat split. now constructor.
  - rewrite !py_mod_ok by assumption. autorewrite with run.
    set (lc1 := if it mod val_step =? 0 then _ else _).
    assert (Hb1 : best_acc lc1 = best_acc lc)
      by (subst lc1; now destruct (it mod val_step =? 0)).
    assert (Hs1 : iter_sample lc1 = sample_after val_step it (iter_sample lc))
      by (subst lc1; unfold sample_after; now destruct (it mod val_step =? 0)).
    clearbody lc1.
    destruct (Z.eqb_spec ((it + 1) mod val_step) 0) as [Hv|Hv]; cbn iota.
    + destruct (Z_le_gt_dec val_iter 0) as [Hn|Hn].
      * rewrite (bind_raise _ _ _ _ _ _
                   (eval_no_iteration self 10 10 2 val_iter None _ _ _ _
                      (select_none self _) Hn)).
        autorewrite with run.
        do 4 eexists. split; [reflexivity|]. observe. cbn.
        repeat split. now constructor.
      * match goal with
        |- context [bind (eval self 10 10 2 val_iter None) _ ?s0] =>
          destruct (eval_iterations self 10 10 2 val_iter None s0 _ _ _
                      (select_none self s0)) as
            (s1 & log & acc & Hrun & _ & Hep & Hf & _); [lia|]
        end.
        rewrite (bind_ok _ _ _ _ _ _ Hrun). autorewrite with run.
        destruct Hep as (_ & _ & Hm & Hst & _ & Htr).
        destruct (py_gt acc (best_acc lc1)) eqn:Hgt.
        -- match goal with |- context [train_checkpoint _ _ acc lc1 ?s0] =>
             destruct (checkpoint_written acc lc1 s0 Hgt) as
               (s2 & log2 & Hck & Hm2 & Hst2 & Htr2 & Hf2 & Hmo & _)
           end.
           rewrite Hck. autorewrite with run.
           do 4 eexists. split; [reflexivity|].
           observe. rewrite Hm, Hst, Htr, Hm2, Hst2, Htr2. cbn.
           repeat split.
           apply bc_best; auto; try lia; try congruence.
           rewrite Hf2, Hmo. cbn. now rewrite Hf.
        -- rewrite (checkpoint_skipped acc lc1 _ Hgt). autorewrite with run.
           do 4 eexists. split; [reflexivity|].
           observe. rewrite Hm, Hst, Htr. cbn.
           repeat split.
           apply bc_not_best; auto; try lia; try congruence.
    + do 4 eexists. split; [reflexivity|]. observe. cbn.
      repeat split. now apply bc_plain.
Qed.

End TrainFacts.

(** * The training loop *)

Lemma trace_no_save_first p b q m : ~ trace p b (MSave q :: m).
Proof. intros H. inversion H. Qed.

(** In a trace, a validation is followed by a write exactly when its
    accuracy exceeds the best so far and all the earlier accuracies. *)
Lemma trace_decompose p b m :
  trace p b m ->
  forall pre a post,
    m = pre ++ MEval None :: MAcc a :: post ->
    ((exists post', post = MSave p :: post') <->
     (b < a)%Q /\ forall a', In (MAcc a') pre -> (a' < a)%Q).
Proof.
  induction 1 as [b|b n m H IH|b|b a0 m Hlt H IH|b a0 m Hle H IH|b q tail Ht];
    intros pre a post E.
  - destruct pre; discriminate.
  - destruct pre as [|x pre]; [discriminate|].
    injection E as <- E. rewrite (IH _ _ _ E).
    split; intros [Hb Hp]; (split; [exact Hb|]); intros a' Hin.
    + destruct Hin as [Hin|Hin]; [discriminate | now apply Hp].
    + apply Hp. now right.
  - destruct pre as [|? [|? ?]]; discriminate.
  - destruct pre as [|x pre].
    + injection E as <- <-. split; [intros _|eauto].
      split; [exact Hlt | intros ? []].
    + destruct pre as [|y pre]; [discriminate|].
      destruct pre as [|z pre]; [discriminate|].
      injection E as <- <- <- E. rewrite (IH _ _ _ E).
      split; intros [Hb Hp].
      * split; [lra|]. intros a' [Hin|[Hin|[Hin|Hin]]]; try discriminate.
        -- injection Hin as <-. exact Hb.
        -- now apply Hp.
      * split.
        -- apply Hp. right. now left.
        -- intros a' Hin. apply Hp. now do 3 right.
  - destruct pre as [|x pre].
    + injection E as <- <-. split.
      * intros [post' ->]. now apply trace_no_save_first in H.
      * intros [Hb _]. lra.
    + destruct pre as [|y pre]; [discriminate|].
      injection E as <- <- E. rewrite (IH _ _ _ E).
      split; intros [Hb Hp].
      * split; [exact Hb|]. intros a' [Hin|[Hin|Hin]]; try discriminate.
        -- injection Hin as <-. lra.
        -- now apply Hp.
      * split; [exact Hb|]. intros a' Hin. apply Hp. now do 2 right.
  - destruct pre as [|x pre]; [discriminate|].
    injection E as <- E.
    destruct Ht as [->|[t ->]].
    + destruct pre; discriminate.
    + destruct pre as [|? [|? ?]]; discriminate.
Qed.

(** Without an accuracy above the best one, nothing is written. *)
Lemma loop_marks_no_improvement p vs b its m b' :
  loop_marks p vs b its m b' ->
  (forall a, In (MAcc a) m -> (a <= b)%Q) ->
  writes m = [] /\ b' = b.
Proof.
  induction 1 as [b|b it its m b' Hv H IH|b it its a m b' Hv Hle H IH
                 |b it its a m b' Hv Hlt H IH]; intros Hall.
  - auto.
  - destruct IH as [Hw ->]; [intros a Ha; apply Hall; now right|].
    observe. auto.
  - destruct IH as [Hw ->]; [intros a' Ha; apply Hall; now do 3 right|].
    observe. auto.
  - exfalso. assert (a <= b)%Q by (apply Hall; right; right; now left). lra.
Qed.

(** The accuracies of complete iterations are validation accuracies of
    the run. *)
Lemma loop_marks_validation_accs p vs b its m b' :
  loop_marks p vs b its m b' ->
  forall a q tail,
    In (MAcc a) m -> In a (validation_accs (m ++ MEval (Some q) :: tail)).
Proof.
  induction 1 as [b|b it its m b' Hv H IH|b it its a0 m b' Hv Hle H IH
                 |b it its a0 m b' Hv Hlt H IH]; intros a q tail Hin.
  - destruct Hin.
  - destruct Hin as [E|Hin]; [discriminate|]. cbn. now apply IH.
  - destruct Hin as [E|[E|[E|Hin]]]; try discriminate; cbn.
    + injection E as ->. now left.
    + right. now apply IH.
  - destruct Hin as [E|[E|[E|[E|Hin]]]]; try discriminate; cbn.
    + injection E as ->. now left.
    + right. now apply IH.
Qed.

Lemma loop_marks_plain p vs b it its m b' :
  (it + 1) mod vs <> 0 ->
  loop_marks p vs b (it :: its) m b' ->
  exists m', m = MStep (it + 1) :: m' /\ loop_marks p vs b its m' b'.
Proof. intros Hv H. inversion H; subst; try contradiction. eauto. Qed.

Lemma loop_marks_validation p vs b it its m b' :
  (it + 1) mod vs = 0 ->
  loop_marks p vs b (it :: its) m b' ->
  exists a w m' b1,
    m = MStep (it + 1) :: MEval None :: MAcc a :: w ++ m' /\
    loop_marks p vs b1 its m' b' /\
    (((a <= b)%Q /\ w = [] /\ b1 = b) \/ ((b < a)%Q /\ w = [MSave p] /\ b1 = a)).
Proof.
  intros Hv H. inversion H; subst; try contradiction.
  - do 4 eexists. split; [|split; [eassumption|left; eauto]]. reflexivity.
  - do 4 eexists. split; [|split; [eassumption|right; eauto]]. reflexivity.
Qed.

Lemma loop_marks_end p vs b m b' : loop_marks p vs b [] m b' -> m = [].
Proof. now inversion 1. Qed.

Section LoopFacts.
Context `{C : Collaborators}.
Variable self : Framework.
Variables (model_name ckpt_dir : string) (batch_size val_iter val_step : Z).

Abbreviation body :=
  (train_body self model_name batch_size ckpt_dir val_iter val_step).
Abbreviation path := (save_path model_name ckpt_dir).

Lemma sample_after_nonneg it c : (0 <= c)%Q -> (0 <= sample_after val_step it c)%Q.
Proof. intros H. unfold sample_after. destruct (_ =? _); lra. Qed.

(** Any run of the loop, also one that raises. *)
Lemma loop_any its : forall lc s,
  (0 <= iter_sample lc)%Q ->
  exists s' log r,
    for_ its body lc s = (s', log, r) /\
    steps log `prefix_of` map (fun it => it + 1) its /\
    test_reports log = [] /\
    forall K,
      match r with
      | Ok lc' => trace path (best_acc lc') K
      | Raise _ => K = []
      end ->
      trace path (best_acc lc) (marks log ++ K).
Proof.
  induction its as [|it its IH]; intros lc s Hs.
  - exists s, [], (Ok lc). repeat split; auto.
  - destruct (train_body_cases self model_name ckpt_dir batch_size val_iter
                val_step it lc s Hs)
      as (s1 & log1 & r1 & vm & Hrun & Hm & Hst & Htr & Hc).
    cbn [for_]. revert Hrun Hm.
    destruct Hc as [Hz Hf | lc1 Hz Hv Hb Hsm Hf | Hz Hv Hn Hf
                   | lc1 acc Hz Hv Hn Hgt Hb Hsm Hf
                   | lc1 acc Hz Hv Hn Hgt Hb Hsm Hf]; intros Hrun Hm;
      try (rewrite (bind_raise _ _ _ _ _ _ Hrun);
           do 3 eexists; (split; [reflexivity|]);
           rewrite Hst, Htr, Hm; cbn [map];
           (split; [apply prefix_cons, prefix_nil|]); (split; [reflexivity|]);
           intros K ->; cbn [app]; repeat constructor);
      (assert (Hs1 : (0 <= iter_sample lc1)%Q)
         by (rewrite Hsm; now apply sample_after_nonneg));
      destruct (IH lc1 s1 Hs1) as (s' & log & r & Hrun' & Hpre & Htr' & Htrace);
      rewrite (bind_ok _ _ _ _ _ _ Hrun), Hrun', after_triple;
      do 3 eexists; (split; [reflexivity|]);
      observe; rewrite Hst, Htr, Htr', Hm; cbn [map app];
      (split; [now apply prefix_cons|]); (split; [reflexivity|]);
      intros K HK; specialize (Htrace K HK); apply tr_step.
    + now rewrite <- Hb.
    + apply tr_skip; [now apply py_gt_false | now rewrite <- Hb].
    + apply tr_save; [now apply py_gt_spec | now rewrite <- Hb].
Qed.

(** A run of the loop when validation is well configured. *)
Lemma loop_complete its : forall lc s,
  val_step <> 0 -> 1 <= val_iter ->
  (0 <= iter_sample lc)%Q ->
  exists s' log lc',
    for_ its body lc s = (s', log, Ok lc') /\
    loop_marks path val_step (best_acc lc) its (marks log) (best_acc lc') /\
    steps log = map (fun it => it + 1) its /\
    test_reports log = [] /\
    iter_sample lc'
      = fold_left (fun c it => sample_after val_step it c) its (iter_sample lc) /\
    (writes (marks log) = [] -> files s' = files s).
Proof.
  induction its as [|it its IH]; intros lc s Hvs Hvi Hs.
  - exists s, [], lc. repeat split; auto. constructor.
  - destruct (train_body_cases self model_name ckpt_dir batch_size val_iter
                val_step it lc s Hs)
      as (s1 & log1 & r1 & vm & Hrun & Hm & Hst & Htr & Hc).
    cbn [for_ fold_left map]. revert Hrun Hm.
    destruct Hc as [Hz Hf | lc1 Hz Hv Hb Hsm Hf | Hz Hv Hn Hf
                   | lc1 acc Hz Hv Hn Hgt Hb Hsm Hf
                   | lc1 acc Hz Hv Hn Hgt Hb Hsm Hf]; intros Hrun Hm;
      try contradiction; try lia;
      (assert (Hs1 : (0 <= iter_sample lc1)%Q)
         by (rewrite Hsm; now apply sample_after_nonneg));
      destruct (IH lc1 s1 Hvs Hvi Hs1) as
        (s' & log & lc' & Hrun' & Hlm & Hst' & Htr' & Hsamp & Hfiles);
      rewrite <- Hsm;
      rewrite (bind_ok _ _ _ _ _ _ Hrun), Hrun', after_triple;
      do 3 eexists; (split; [reflexivity|]);
      observe; rewrite Hst, Htr, Hst', Htr', Hm; cbn [app];
      (split; [|split; [reflexivity|split; [reflexivity|split; [exact Hsamp|]]]]).
    + apply lm_plain; [assumption|]. now rewrite <- Hb.
    + intros Hw. rewrite (Hfiles Hw). assumption.
    + apply lm_skip; [assumption | now apply py_gt_false |]. now rewrite <- Hb.
    + observe. intros Hw. rewrite (Hfiles Hw). assumption.
    + apply lm_save; [assumption | now apply py_gt_spec | now rewrite <- Hb].
    + observe. discriminate.
Qed.

End LoopFacts.

(** * [train] *)

Section ResumeFacts.
Context `{C : Collaborators}.

Lemma resume_none s : train_resume None s = (s, [], Ok 0).
Proof. reflexivity. Qed.


Lemma resume_missing path s :
  path <> EmptyString ->
  files s !! path = None ->
  train_resume (Some path) s = (s, [], Raise (not_found path)).
Proof.
  intros Hne H. unfold train_resume.
  destruct (String.eqb_spec path EmptyString) as [E|_]; [contradiction|].
  now rewrite (bind_raise _ _ _ _ _ _ (load_missing path s H)).
Qed.

Lemma resume_without_iter path ck sd s :
  path <> EmptyString ->
  files s !! path = Some ck ->
  ck !! "state_dict" = Some (VState sd) ->
  ck !! "iter" = None ->
  train_resume (Some path) s
    = (set_model (load_state_dict sd (model s)) s,
       [TorchLoad path; loaded_line path], Raise (KeyError "iter")).
Proof.
  intros Hne H Hsd Hi. unfold train_resume.
  destruct (String.eqb_spec path EmptyString) as [E|_]; [contradiction|].
  rewrite (bind_ok _ _ _ _ _ _ (load_found path ck s H)).
  unfold getitem, model_load_state_dict, value_succ. rewrite Hsd, Hi.
  autorewrite with run. reflexivity.
Qed.

Lemma resume_quiet pretrain_model s s1 l1 r :
  train_resume pretrain_model s = (s1, l1, r) ->
  files s1 = files s /\ marks l1 = [] /\ steps l1 = [] /\ test_reports l1 = [].
Proof.
  unfold train_resume.
  destruct pretrain_model as [path|]; [|intros [= <- <- <-]; cbn; auto].
  destruct (String.eqb path EmptyString); [intros [= <- <- <-]; cbn; auto|].
  destruct (files s !! path) as [ck|] eqn:H.
  - rewrite (bind_ok _ _ _ _ _ _ (load_found path ck s H)).
    unfold getitem, model_load_state_dict, value_succ.
    destruct (ck !! "state_dict") as [[sd|i]|]; autorewrite with run;
      try (intros [= <- <- <-]; cbn; now auto).
    destruct (ck !! "iter") as [[sd'|i]|]; autorewrite with run;
      intros [= <- <- <-]; cbn; auto.
  - rewrite (bind_raise _ _ _ _ _ _ (load_missing path s H)).
    intros [= <- <- <-]. cbn; auto.
Qed.

End ResumeFacts.

Section TrainRun.
Context `{C : Collaborators}.
Variable self : Framework.
Variables (model_name : string) (batch_size : Z)
  (ckpt_dir test_result_dir : string)
  (learning_rate : Q) (lr_step_size : Z) (weight_decay : Q)
  (train_iter val_iter val_step test_iter : Z) (cuda : bool).

Abbreviation path := (save_path model_name ckpt_dir).
Abbreviation body :=
  (train_body self model_name batch_size ckpt_dir val_iter val_step).
Abbreviation train_ :=
  (train self model_name batch_size ckpt_dir test_result_dir learning_rate
     lr_step_size weight_decay train_iter val_iter val_step test_iter cuda).


Lemma on_device_files s : files (on_device cuda s) = files s.
Proof. unfold on_device. now destruct cuda. Qed.

Lemma train_resume_raises pretrain_model s s1 l1 e :
  train_resume pretrain_model s = (s1, l1, Raise e) ->
  train_ pretrain_model s = (s1, Println "Start training..." :: l1, Raise e).
Proof.
  intros H. unfold train. autorewrite with run.
  now rewrite (bind_raise _ _ _ _ _ _ H).
Qed.

Lemma train_loop_raises pretrain_model s s1 l1 start s2 l2 e :
  train_resume pretrain_model s = (s1, l1, Ok start) ->
  for_ (range start (start + train_iter)) body
    (train_locals (make_optimizer (model s) learning_rate weight_decay
                     lr_step_size)) (on_device cuda s1) = (s2, l2, Raise e) ->
  train_ pretrain_model s
    = (s2, Println "Start training..." :: l1 ++ l2, Raise e).
Proof.
  intros H Hloop. unfold train. autorewrite with run.
  rewrite (bind_ok _ _ _ _ _ _ H).
  unfold on_device in Hloop.
  destruct cuda; autorewrite with run;
    rewrite (bind_raise _ _ _ _ _ _ Hloop); reflexivity.
Qed.

Lemma train_loop_returns pretrain_model s s1 l1 start s2 l2 lc :
  train_resume pretrain_model s = (s1, l1, Ok start) ->
  for_ (range start (start + train_iter)) body
    (train_locals (make_optimizer (model s) learning_rate weight_decay
                     lr_step_size)) (on_device cuda s1) = (s2, l2, Ok lc) ->
  train_ pretrain_model s
    = after (Println "Start training..." :: l1 ++ l2)
        (train_finish self model_name ckpt_dir test_iter s2).
Proof.
  intros H Hloop. unfold train. autorewrite with run.
  rewrite (bind_ok _ _ _ _ _ _ H).
  unfold on_device in Hloop.
  destruct cuda; autorewrite with run;
    rewrite (bind_ok _ _ _ _ _ _ Hloop); autorewrite with run;
    cbn [app]; rewrite <- ?app_assoc; reflexivity.
Qed.

(** [train] from the entry of its loop on. *)
Lemma train_from_loop pretrain_model s s1 l1 start :
  train_resume pretrain_model s = (s1, l1, Ok start) ->
  train_ pretrain_model s
    = after (Println "Start training..." :: l1)
        (bind (for_ (range start (start + train_iter)) body
                 (train_locals (make_optimizer (model s) learning_rate
                                  weight_decay lr_step_size)))
           (fun _ => train_finish self model_name ckpt_dir test_iter)
           (on_device cuda s1)).
Proof.
  intros H. unfold train. autorewrite with run.
  rewrite (bind_ok _ _ _ _ _ _ H). unfold on_device.
  destruct cuda; autorewrite with run; reflexivity.
Qed.

End TrainRun.

Section TrainShape.
Context `{C : Collaborators}.
Variable self : Framework.
Variables (model_name : string) (batch_size : Z)
  (ckpt_dir test_result_dir : string)
  (learning_rate : Q) (lr_step_size : Z) (weight_decay : Q)
  (train_iter val_iter val_step test_iter : Z) (cuda : bool).

Abbreviation path := (save_path model_name ckpt_dir).
Abbreviation train_ :=
  (train self model_name batch_size ckpt_dir test_result_dir learning_rate
     lr_step_size weight_decay train_iter val_iter val_step test_iter cuda).

(** The final test evaluation and its report. *)
Lemma test_phase s :
  exists s' log r tail,
    train_finish self model_name ckpt_dir test_iter s = (s', log, r) /\
    marks log = MEval (Some path) :: tail /\
    (tail = [] \/ exists t, tail = [MAcc t]) /\
    steps log = [] /\
    (files s !! path = None ->
     r = Raise (not_found path) /\ tail = [] /\ test_reports log = [] /\
     exists before,
       log = before ++ [EvalCall (Some path) test_iter; Println EmptyString]).
Proof.
  unfold train_finish. fold path. autorewrite with run.
  destruct (files s !! path) as [ck|] eqn:Hfile.
  - destruct (eval_cases self 10 10 2 test_iter (Some path) s)
      as (s' & log & r & Hrun & _ & _ & Hst & Htr
          & [(acc & -> & _ & Hm)|(e & -> & Hm)]).
    + rewrite (bind_ok _ _ _ _ _ _ Hrun). autorewrite with run.
      do 4 eexists. split; [reflexivity|].
      observe. rewrite Hm, Hst. cbn [app].
      split; [reflexivity|]. split; [eauto|]. split; [reflexivity|].
      discriminate.
    + rewrite (bind_raise _ _ _ _ _ _ Hrun). autorewrite with run.
      do 4 eexists. split; [reflexivity|].
      observe. rewrite Hm, Hst. cbn [app].
      split; [reflexivity|]. split; [eauto|]. split; [reflexivity|].
      discriminate.
  - rewrite (bind_raise _ _ _ _ _ _
               (eval_raise_select self 10 10 2 test_iter (Some path) s _ _ _
                  (select_missing self path s Hfile))).
    autorewrite with run.
    do 4 eexists. split; [reflexivity|].
    observe. cbn [app]. repeat split; eauto.
    now eexists [_; _].
Qed.

(** Every run of [train] leaves a trace from the initial best accuracy 0,
    and displays a prefix of the steps of its loop. *)
Lemma train_any pretrain_model s :
  exists s' log r,
    train_ pretrain_model s = (s', log, r) /\
    trace path 0 (marks log) /\
    forall s1 l1 start,
      train_resume pretrain_model s = (s1, l1, Ok start) ->
      steps log `prefix_of`
        map (fun it => it + 1) (range start (start + train_iter)).
Proof.
  destruct (train_resume pretrain_model s) as [[s1 l1] [start|e]] eqn:Hres;
    destruct (resume_quiet _ _ _ _ _ Hres) as (Hf & Hm & Hst & Htr).
  - destruct (loop_any self model_name ckpt_dir batch_size val_iter val_step
                (range start (start + train_iter))
                (train_locals (make_optimizer (model s) learning_rate
                                 weight_decay lr_step_size))
                (on_device cuda s1))
      as (s2 & l2 & r2 & Hloop & Hpre & Htr2 & Htrace); [cbn; lra|].
    destruct r2 as [lc|e].
    + rewrite (train_loop_returns _ _ _ _ _ _ _ _ _ _ _ _ _ _ _ _ _ _ _ _ _
                 Hres Hloop).
      destruct (test_phase s2) as (s' & log & r & tail & Hrun & Hm' & Htail & Hst' & _).
      rewrite Hrun, after_triple.
      do 3 eexists. split; [reflexivity|].
      observe. rewrite Hm, Hst, Hm', Hst'. cbn [app].
      rewrite !app_nil_r.
      split.
      * apply Htrace. now constructor.
      * intros ? ? ? [= <- <- <-]. exact Hpre.
    + rewrite (train_loop_raises _ _ _ _ _ _ _ _ _ _ _ _ _ _ _ _ _ _ _ _ _
                 Hres Hloop).
      do 3 eexists. split; [reflexivity|].
      observe. rewrite Hm, Hst. cbn [app].
      split.
      * rewrite <- (app_nil_r (marks l2)). now apply Htrace.
      * intros ? ? ? [= <- <- <-]. exact Hpre.
  - rewrite (train_resume_raises _ _ _ _ _ _ _ _ _ _ _ _ _ _ _ _ _ _ Hres).
    do 3 eexists. split; [reflexivity|].
    observe. rewrite Hm. split; [constructor | discriminate].
Qed.

(** A run of [train] whose warm start succeeds and whose validation is
    well configured reaches the final test evaluation. *)
Lemma train_complete pretrain_model s s1 l1 start :
  train_resume pretrain_model s = (s1, l1, Ok start) ->
  val_step <> 0 -> 1 <= val_iter ->
  exists s' log r lm b' tail,
    train_ pretrain_model s = (s', log, r) /\
    marks log = lm ++ MEval (Some path) :: tail /\
    (tail = [] \/ exists t, tail = [MAcc t]) /\
    loop_marks path val_step 0 (range start (start + train_iter)) lm b' /\
    steps log = map (fun it => it + 1) (range start (start + train_iter)) /\
    (writes lm = [] -> files s !! path = None ->
     r = Raise (not_found path) /\ tail = [] /\ test_reports log = [] /\
     exists before,
       log = before ++ [EvalCall (Some path) test_iter; Println EmptyString]).
Proof.
  intros Hres Hvs Hvi.
  destruct (resume_quiet _ _ _ _ _ Hres) as (Hf & Hm & Hst & Htr).
  destruct (loop_complete self model_name ckpt_dir batch_size val_iter val_step
              (range start (start + train_iter))
              (train_locals (make_optimizer (model s) learning_rate
                               weight_decay lr_step_size))
              (on_device cuda s1) Hvs Hvi)
    as (s2 & l2 & lc & Hloop & Hlm & Hst2 & Htr2 & _ & Hfiles); [cbn; lra|].
  rewrite (train_loop_returns _ _ _ _ _ _ _ _ _ _ _ _ _ _ _ _ _ _ _ _ _
             Hres Hloop).
  destruct (test_phase s2) as (s' & log & r & tail & Hrun & Hm' & Htail & Hst' & Hnone).
  rewrite Hrun, after_triple.
  do 6 eexists. split; [reflexivity|].
  observe. rewrite Hm, Hst, Htr, Hm', Hst', Hst2, Htr2.
  cbn [app]. rewrite !app_nil_r.
  split; [reflexivity|]. split; [exact Htail|]. split; [exact Hlm|].
  split; [reflexivity|].
  intros Hw Hnofile.
  destruct Hnone as (-> & -> & Htr' & before & ->).
  { rewrite (Hfiles Hw), on_device_files, Hf. exact Hnofile. }
  rewrite Htr'. repeat split; auto.
  exists (Println "Start training..." :: l1 ++ l2 ++ before).
  cbn [app]. now rewrite <- !app_assoc.
Qed.

End TrainShape.

(** * The accumulators *)

Lemma range_snoc (n : Z) : 0 <= n -> range 0 (n + 1) = range 0 n ++ [n].
Proof.
  intros H. unfold range.
  replace (n + 1 - 0) with (n - 0 + 1) by lia.
  rewrite seqZ_app by lia. f_equal.
  replace (0 + (n - 0)) with n by lia. reflexivity.
Qed.

Lemma mod_pred (n vs : Z) :
  0 < vs -> n mod vs <> 0 -> (n - 1) mod vs = n mod vs - 1.
Proof.
  intros Hvs Hn.
  pose proof (Z.mod_pos_bound n vs Hvs) as Hb.
  symmetry. apply (Z.mod_unique _ _ (n / vs)); [lia|].
  pose proof (Z.div_mod n vs). lia.
Qed.

(** [iter_sample] at the start of iteration [n] of a run from iteration 0:
    the number of iterations since the last multiple of [val_step],
    that multiple left out. *)
Lemma samples_before (vs : Z) (n : nat) :
  0 < vs -> (0 < n)%nat ->
  (fold_left (fun c it => sample_after vs it c) (range 0 (Z.of_nat n)) 0
   == inject_Z ((Z.of_nat n - 1) mod vs))%Q.
Proof.
  intros Hvs. induction n as [|n IH]; [lia|]. intros _.
  rewrite Nat2Z.inj_succ. unfold Z.succ. rewrite range_snoc by lia.
  rewrite fold_left_app. cbn [fold_left].
  replace (Z.of_nat n + 1 - 1) with (Z.of_nat n) by lia.
  unfold sample_after at 1.
  destruct (Z.eqb_spec (Z.of_nat n mod vs) 0) as [E|E].
  - now rewrite E.
  - destruct n as [|n]; [now rewrite Z.mod_0_l in E by lia|].
    rewrite IH by lia.
    rewrite (mod_pred _ _ Hvs E).
    change 1%Q with (inject_Z 1). rewrite <- inject_Z_plus.
    now replace (Z.of_nat (S n) mod vs - 1 + 1) with (Z.of_nat (S n) mod vs)
      by lia.
Qed.

(** * Runs of [train] whose loop completes, and the others *)

Lemma bind_ext {S E A B} (m : M S E A) (f g : A -> M S E B) s :
  (forall a s', f a s' = g a s') -> bind m f s = bind m g s.
Proof.
  intros H. unfold bind. destruct (m s) as [[s1 l1] [a|e]]; [|reflexivity].
  now rewrite H.
Qed.

Lemma for_app {S E L} (l1 l2 : list Z) (body : Z -> L -> M S E L) :
  forall lc s,
    for_ (l1 ++ l2) body lc s = bind (for_ l1 body lc) (for_ l2 body) s.
Proof.
  induction l1 as [|it l1 IH]; intros lc s; cbn [for_ app].
  - now rewrite bind_ret.
  - rewrite bind_bind. apply bind_ext. intros lc' s'. apply IH.
Qed.

Lemma range_cons (a b : Z) : a < b -> range a b = a :: range (a + 1) b.
Proof.
  intros H. unfold range. rewrite seqZ_cons by lia.
  f_equal. f_equal; lia.
Qed.

Lemma range_app (a m b : Z) :
  a <= m <= b -> range a b = range a m ++ range m b.
Proof.
  intros H. unfold range.
  replace (b - a) with ((m - a) + (b - m)) by lia.
  rewrite seqZ_app by lia. do 2 f_equal. lia.
Qed.

Lemma range_In (a b x : Z) : In x (range a b) <-> a <= x < b.
Proof.
  unfold range. rewrite <- list_elem_of_In, elem_of_seqZ. lia.
Qed.

(** The steps that the iterations of range(start, start + n) display. *)
Lemma range_steps (start n : Z) :
  map (fun it => it + 1) (range start (start + n))
  = map (fun k : nat => start + 1 + Z.of_nat k) (seq 0 (Z.to_nat n)).
Proof.
  destruct (Z_le_gt_dec n 0) as [Hn|Hn].
  - rewrite range_nil by lia.
    now replace (Z.to_nat n) with 0%nat by lia.
  - rewrite <- (Z2Nat.id n) at 1 by lia.
    generalize (Z.to_nat n) as k. clear Hn. intros k. revert start.
    induction k as [|k IH]; intros start.
    + now rewrite range_nil by lia.
    + rewrite range_cons by lia. cbn [map seq].
      replace (start + Z.of_nat (S k)) with (start + 1 + Z.of_nat k) by lia.
      rewrite IH, <- seq_shift, map_map.
      f_equal; [lia|]. apply map_ext. intros a. lia.
Qed.

Section Completion.
Context `{C : Collaborators}.
Variable self : Framework.
Variables (model_name : string) (batch_size : Z)
  (ckpt_dir test_result_dir : string)
  (learning_rate : Q) (lr_step_size : Z) (weight_decay : Q)
  (train_iter val_iter val_step test_iter : Z) (cuda : bool).

Abbreviation path := (save_path model_name ckpt_dir).
Abbreviation body :=
  (train_body self model_name batch_size ckpt_dir val_iter val_step).
Abbreviation train_ :=
  (train self model_name batch_size ckpt_dir test_result_dir learning_rate
     lr_step_size weight_decay train_iter val_iter val_step test_iter cuda).

(** Iterations none of which validates. *)
Lemma loop_plain its : forall lc s,
  val_step <> 0 ->
  Forall (fun it => (it + 1) mod val_step <> 0) its ->
  (0 <= iter_sample lc)%Q ->
  exists s' log lc',
    for_ its body lc s = (s', log, Ok lc') /\
    loop_marks path val_step (best_acc lc) its (marks log) (best_acc lc') /\
    steps log = map (fun it => it + 1) its /\
    test_reports log = [] /\
    files s' = files s.
Proof.
  induction its as [|it its IH]; intros lc s Hvs Hall Hs.
  - exists s, [], lc. repeat split; auto. constructor.
  - inversion Hall as [|? ? Hit Hrest]; subst.
    destruct (train_body_cases self model_name ckpt_dir batch_size val_iter
                val_step it lc s Hs)
      as (s1 & log1 & r1 & vm & Hrun & Hm & Hst & Htr & Hc).
    revert Hrun Hm.
    destruct Hc as [Hz Hf | lc1 Hz Hv Hb Hsm Hf | Hz Hv Hn Hf
                   | lc1 acc Hz Hv Hn Hgt Hb Hsm Hf
                   | lc1 acc Hz Hv Hn Hgt Hb Hsm Hf]; intros Hrun Hm;
      try contradiction.
    destruct (IH lc1 s1 Hvs Hrest)
      as (s' & log & lc' & Hrun' & Hlm & Hst' & Htr' & Hf').
    { rewrite Hsm. now apply sample_after_nonneg. }
    cbn [for_ map]. rewrite (bind_ok _ _ _ _ _ _ Hrun), Hrun', after_triple.
    do 3 eexists. split; [reflexivity|].
    observe. rewrite Hm, Hst, Htr, Hst', Htr'. cbn [app].
    split; [|repeat split; congruence].
    apply lm_plain; [assumption|]. now rewrite <- Hb.
Qed.

(** The loop of [train] when it completes. *)
Lemma loop_runs start lc s :
  loop_completes start train_iter val_iter val_step ->
  (0 <= iter_sample lc)%Q ->
  exists s' log lc',
    for_ (range start (start + train_iter)) body lc s = (s', log, Ok lc') /\
    loop_marks path val_step (best_acc lc) (range start (start + train_iter))
      (marks log) (best_acc lc') /\
    steps log = map (fun it => it + 1) (range start (start + train_iter)) /\
    test_reports log = [] /\
    (writes (marks log) = [] -> files s' = files s).
Proof.
  intros [Hn|[Hvs [Hvi|Hnone]]] Hs.
  - rewrite range_nil by lia. exists s, [], lc. repeat split; auto. constructor.
  - destruct (loop_complete self model_name ckpt_dir batch_size val_iter
                val_step (range start (start + train_iter)) lc s Hvs Hvi Hs)
      as (s' & log & lc' & Hrun & Hlm & Hst & Htr & _ & Hf).
    exists s', log, lc'. auto.
  - destruct (loop_plain (range start (start + train_iter)) lc s Hvs)
      as (s' & log & lc' & Hrun & Hlm & Hst & Htr & Hf); [|exact Hs|].
    { apply List.Forall_forall. intros it Hit. apply range_In in Hit.
      replace (it + 1) with (start + (it - start) + 1) by lia.
      apply Hnone. lia. }
    exists s', log, lc'. auto.
Qed.

(** With val_step = 0 the first iteration raises. *)
Lemma loop_zero_step it its lc s :
  val_step = 0 -> (0 <= iter_sample lc)%Q ->
  exists s' log e, for_ (it :: its) body lc s = (s', log, Raise e).
Proof.
  intros Hz Hs.
  destruct (train_body_cases self model_name ckpt_dir batch_size val_iter
              val_step it lc s Hs)
    as (s1 & log1 & r1 & vm & Hrun & _ & _ & _ & Hc).
  revert Hrun.
  destruct Hc; intros Hrun; try contradiction.
  cbn [for_]. rewrite (bind_raise _ _ _ _ _ _ Hrun). eauto.
Qed.

(** With val_iter <= 0 the first validation reached raises. *)
Lemma loop_starved its : forall lc s,
  val_step <> 0 -> val_iter <= 0 ->
  Exists (fun it => (it + 1) mod val_step = 0) its ->
  (0 <= iter_sample lc)%Q ->
  exists s' log e, for_ its body lc s = (s', log, Raise e).
Proof.
  induction its as [|it its IH]; intros lc s Hvs Hvi Hex Hs.
  - inversion Hex.
  - destruct (train_body_cases self model_name ckpt_dir batch_size val_iter
                val_step it lc s Hs)
      as (s1 & log1 & r1 & vm & Hrun & _ & _ & _ & Hc).
    revert Hrun.
    destruct Hc as [Hz Hf | lc1 Hz Hv Hb Hsm Hf | Hz Hv Hn Hf
                   | lc1 acc Hz Hv Hn Hgt Hb Hsm Hf
                   | lc1 acc Hz Hv Hn Hgt Hb Hsm Hf]; intros Hrun;
      try contradiction; try lia;
      cbn [for_].
    + inversion Hex as [? ? Hit|? ? Hrest]; subst; [contradiction|].
      destruct (IH lc1 s1 Hvs Hvi Hrest) as (s' & log & e & Hrun').
      { rewrite Hsm. now apply sample_after_nonneg. }
      rewrite (bind_ok _ _ _ _ _ _ Hrun), Hrun', after_triple. eauto.
    + rewrite (bind_raise _ _ _ _ _ _ Hrun). eauto.
Qed.

(** The loop calls [eval] on no checkpoint. *)
Lemma loop_never_tests its : forall lc s q,
  (0 <= iter_sample lc)%Q ->
  ~ In (MEval (Some q)) (marks (actions (for_ its body lc s))).
Proof.
  induction its as [|it its IH]; intros lc s q Hs; [intros []|].
  destruct (train_body_cases self model_name ckpt_dir batch_size val_iter
              val_step it lc s Hs)
    as (s1 & log1 & r1 & vm & Hrun & Hm & _ & _ & Hc).
  cbn [for_]. revert Hrun Hm.
  destruct Hc as [Hz Hf | lc1 Hz Hv Hb Hsm Hf | Hz Hv Hn Hf
                 | lc1 acc Hz Hv Hn Hgt Hb Hsm Hf
                 | lc1 acc Hz Hv Hn Hgt Hb Hsm Hf]; intros Hrun Hm;
    try (rewrite (bind_raise _ _ _ _ _ _ Hrun);
         unfold actions; cbn [fst snd]; rewrite Hm;
         intros H; repeat (destruct H as [H|H]; [discriminate H|]);
         now destruct H);
    (assert (Hs1 : (0 <= iter_sample lc1)%Q)
       by (rewrite Hsm; now apply sample_after_nonneg));
    specialize (IH lc1 s1 q Hs1);
    rewrite (bind_ok _ _ _ _ _ _ Hrun), actions_after, marks_app, Hm;
    intros H; apply in_app_or in H; destruct H as [H|H];
    try (now apply IH);
    repeat (destruct H as [H|H]; [discriminate H|]); now destruct H.
Qed.

(** The loop returns only when it completes. *)
Lemma loop_returned start lc s s' log lc' :
  (0 <= iter_sample lc)%Q ->
  for_ (range start (start + train_iter)) body lc s = (s', log, Ok lc') ->
  loop_completes start train_iter val_iter val_step.
Proof.
  intros Hs Hrun.
  destruct (Z_le_gt_dec train_iter 0) as [Hn|Hn]; [now left|right].
  destruct (Z.eq_dec val_step 0) as [Hz|Hz].
  { rewrite range_cons in Hrun by lia.
    destruct (loop_zero_step start (range (start + 1) (start + train_iter))
                lc s Hz Hs) as (? & ? & ? & E).
    rewrite E in Hrun. discriminate Hrun. }
  split; [exact Hz|].
  destruct (Z_le_gt_dec 1 val_iter) as [Hvi|Hvi]; [now left|right].
  intros k Hk Hmod.
  destruct (loop_starved (range start (start + train_iter)) lc s Hz)
    as (? & ? & ? & E); [lia| |exact Hs|].
  - apply List.Exists_exists. exists (start + k). split; [|exact Hmod].
    apply range_In. lia.
  - rewrite E in Hrun. discriminate Hrun.
Qed.

(** A run of [train] whose warm start succeeds and whose loop completes
    reaches the final test evaluation. *)
Lemma train_completes pretrain_model s s1 l1 start :
  train_resume pretrain_model s = (s1, l1, Ok start) ->
  loop_completes start train_iter val_iter val_step ->
  exists s' log r lm b' tail,
    train_ pretrain_model s = (s', log, r) /\
    marks log = lm ++ MEval (Some path) :: tail /\
    (tail = [] \/ exists t, tail = [MAcc t]) /\
    loop_marks path val_step 0 (range start (start + train_iter)) lm b' /\
    steps log = map (fun it => it + 1) (range start (start + train_iter)) /\
    (writes lm = [] -> files s !! path = None ->
     r = Raise (not_found path) /\ tail = [] /\ test_reports log = [] /\
     exists before,
       log = before ++ [EvalCall (Some path) test_iter; Println EmptyString]).
Proof.
  intros Hres Hloop.
  destruct (resume_quiet _ _ _ _ _ Hres) as (Hf & Hm & Hst & Htr).
  destruct (loop_runs start
              (train_locals (make_optimizer (model s) learning_rate
                               weight_decay lr_step_size))
              (on_device cuda s1) Hloop)
    as (s2 & l2 & lc & Hrun2 & Hlm & Hst2 & Htr2 & Hfiles); [cbn; lra|].
  rewrite (train_loop_returns self model_name batch_size ckpt_dir
             test_result_dir learning_rate lr_step_size weight_decay
             train_iter val_iter val_step test_iter cuda _ _ _ _ _ _ _ _
             Hres Hrun2).
  destruct (test_phase self model_name ckpt_dir test_iter s2)
    as (s' & log & r & tail & Hrun & Hm' & Htail & Hst' & Hnone).
  rewrite Hrun, after_triple.
  do 6 eexists. split; [reflexivity|].
  observe. rewrite Hm, Hst, Htr, Hm', Hst', Hst2, Htr2.
  cbn [app]. rewrite !app_nil_r.
  split; [reflexivity|]. split; [exact Htail|]. split; [exact Hlm|].
  split; [reflexivity|].
  intros Hw Hnofile.
  destruct Hnone as (-> & -> & Htr' & before & ->).
  { rewrite (Hfiles Hw), on_device_files, Hf. exact Hnofile. }
  rewrite Htr'. repeat split; auto.
  exists (Println "Start training..." :: l1 ++ l2 ++ before).
  cbn [app]. now rewrite <- !app_assoc.
Qed.

(** A run of [train] reaches the test evaluation only when its loop
    completes. *)
Lemma train_tested pretrain_model s s1 l1 start q before tail :
  train_resume pretrain_model s = (s1, l1, Ok start) ->
  marks (actions (train_ pretrain_model s)) = before ++ MEval (Some q) :: tail ->
  loop_completes start train_iter val_iter val_step.
Proof.
  intros Hres Hmarks.
  destruct (resume_quiet _ _ _ _ _ Hres) as (_ & Hm & _ & _).
  set (lc := train_locals (make_optimizer (model s) learning_rate weight_decay
                             lr_step_size)) in *.
  assert (Hs : (0 <= iter_sample lc)%Q) by (cbn; lra).
  destruct (for_ (range start (start + train_iter)) body lc (on_device cuda s1))
    as [[s2 l2] [lc'|e]] eqn:Hrun.
  - exact (loop_returned start lc _ _ _ _ Hs Hrun).
  - exfalso.
    rewrite (train_loop_raises self model_name batch_size ckpt_dir
               test_result_dir learning_rate lr_step_size weight_decay
               train_iter val_iter val_step test_iter cuda _ _ _ _ _ _ _ _
               Hres Hrun) in Hmarks.
    unfold actions in Hmarks; cbn [fst snd] in Hmarks.
    revert Hmarks. observe. rewrite Hm. cbn [app]. intros Hmarks.
    apply (loop_never_tests (range start (start + train_iter)) lc
             (on_device cuda s1) q Hs).
    rewrite Hrun. unfold actions; cbn [fst snd]. rewrite Hmarks.
    apply in_elt.
Qed.


End Completion.

(** * The claims *)

Lemma append_nonempty (a b : string) : b <> EmptyString -> a +:+ b <> EmptyString.
Proof. destruct a; [auto | discriminate]. Qed.

Lemma os_path_join_nonempty (a b : string) :
  b <> EmptyString -> os_path_join a b <> EmptyString.
Proof.
  intros H. unfold os_path_join.
  destruct (startswith_sep b); [exact H|].
  destruct (_ || _)%bool; repeat apply append_nonempty; exact H.
Qed.

Lemma save_path_nonempty model_name ckpt_dir :
  save_path model_name ckpt_dir <> EmptyString.
Proof.
  apply os_path_join_nonempty, append_nonempty. discriminate.
Qed.

Section Claims.
Context `{C : Collaborators}.
Variable self : Framework.
Variables (model_name : string) (batch_size : Z)
  (ckpt_dir test_result_dir : string)
  (learning_rate : Q) (lr_step_size : Z) (weight_decay : Q) (cuda : bool).

(** C1 (defect of the code). The checkpoint that [train] writes holds the
    parameters under the key state_dict and nothing else.  Loading it gives
    back the parameter state that was saved, but it has no iter entry: a
    training run resumed from it raises KeyError at the read of the
    iteration index (line 126), so the round trip does not restore an
    iteration index. *)
Theorem saved_checkpoint_has_no_iter (acc : Q) (lc : TrainLocals) (s : St) :
  py_gt acc (best_acc lc) = true ->
  let saved := store (train_checkpoint model_name ckpt_dir acc lc s) in
  let path := os_path_join ckpt_dir (model_name +:+ ".pth.tar") in
  files saved !! path = Some {["state_dict" := VState (state_dict (model s))]} /\
  outcome (__load_model__ path saved)
    = Ok {["state_dict" := VState (state_dict (model s))]} /\
  outcome (train_resume (Some path) saved) = Raise (KeyError "iter").
Proof.
  intros Hgt saved path.
  destruct (checkpoint_written model_name ckpt_dir acc lc s Hgt)
    as (s' & log & Hrun & _ & _ & _ & Hf & _).
  assert (Hfile : files saved !! path
                  = Some {["state_dict" := VState (state_dict (model s))]}).
  { subst saved. rewrite Hrun. unfold store; cbn [fst snd].
    rewrite Hf. apply lookup_insert_eq. }
  split; [exact Hfile|]. split.
  - now rewrite (load_found path _ saved Hfile).
  - rewrite (resume_without_iter path
               {["state_dict" := VState (state_dict (model s))]}
               (state_dict (model s)) saved);
      [reflexivity | apply save_path_nonempty | exact Hfile | | ].
    + apply lookup_singleton_eq.
    + now apply lookup_singleton_ne.
Qed.

(** C6. When [path] names no file, [eval] with [path] as checkpoint
    raises the exception No checkpoint found at path, right after its
    first line of output: no episode is drawn, no accuracy is returned and
    the store is unchanged.  [train] with [path] as pretrained checkpoint
    raises the same exception before its first iteration. *)
Theorem missing_checkpoint_aborts (path : string) (s : St) :
  files s !! path = None ->
  (forall support_size query_size query_class eval_iter,
     eval self support_size query_size query_class eval_iter (Some path) s
     = (s, [EvalCall (Some path) eval_iter; Println EmptyString],
        Raise (Exception ("No checkpoint found at '" +:+ path +:+ "'")))) /\
  (path <> EmptyString ->
   forall train_iter val_iter val_step test_iter,
     train self model_name batch_size ckpt_dir test_result_dir learning_rate
       lr_step_size weight_decay train_iter val_iter val_step test_iter cuda
       (Some path) s
     = (s, [Println "Start training..."],
        Raise (Exception ("No checkpoint found at '" +:+ path +:+ "'")))).
Proof.
  intros H. split.
  - intros ss qs qc n.
    apply (eval_raise_select self ss qs qc n (Some path) s s []).
    now apply select_missing.
  - intros Hne ti vi vs tei.
    apply (train_resume_raises self model_name batch_size ckpt_dir
             test_result_dir learning_rate lr_step_size weight_decay
             ti vi vs tei cuda (Some path) s s []).
    now apply resume_missing.
Qed.

(** C10. [eval] returns an accuracy only when eval_iter >= 1.  With
    eval_iter = 0 the body of the loop never runs, [iter_sample] stays 0
    and the final division raises ZeroDivisionError, with the current
    parameters as with a checkpoint that loads. *)
Theorem eval_needs_an_iteration
    (support_size query_size query_class : Z) (s : St) :
  (forall eval_iter ckpt acc,
     outcome (eval self support_size query_size query_class eval_iter ckpt s)
       = Ok acc -> 1 <= eval_iter) /\
  eval self support_size query_size query_class 0 None s
    = (s, [EvalCall None 0; Println EmptyString; Println EmptyString],
       Raise ZeroDivisionError) /\
  (forall path ck sd,
     files s !! path = Some ck ->
     ck !! "state_dict" = Some (VState sd) ->
     let x := eval self support_size query_size query_class 0 (Some path) s in
     outcome x = Raise ZeroDivisionError /\
     episode_loaders (actions x) = [] /\ accuracies (actions x) = []).
Proof.
  split; [|split].
  - intros n ckpt acc.
    destruct (eval_cases self support_size query_size query_class n ckpt s)
      as (s' & log & r & -> & _ & _ & _ & _ & [(a & -> & Hn & _)|(e & -> & _)]).
    + auto.
    + discriminate.
  - apply (eval_no_iteration self _ _ _ 0 None s s [] _ (select_none self s)).
    lia.
  - intros path ck sd Hf Hsd x. subst x.
    rewrite (eval_no_iteration self _ _ _ 0 (Some path) s _ _ _
               (select_loaded self path ck sd s Hf Hsd)) by lia.
    unfold outcome, actions; cbn [fst snd]. now observe.
Qed.


Lemma eval_returns_mean ss qs qc n ckpt s s1 l1 ds :
  eval_dataset_of self ckpt s = (s1, l1, Ok ds) ->
  1 <= n ->
  exists s' log acc,
    eval self ss qs qc n ckpt s = (s', log, Ok acc) /\
    loads log = loads l1 /\
    episode_loaders log = replicate (Z.to_nat n) (ds, train_data_loader self) /\
    length (accuracies log) = Z.to_nat n /\
    (acc == mean (accuracies log))%Q /\
    ((forall a, In a (accuracies log) -> (0 <= a <= 1)%Q) -> (0 <= acc <= 1)%Q).
Proof.
  intros Hsel Hn.
  destruct (select_quiet self ckpt s _ _ _ Hsel)
    as (_ & _ & _ & _ & _ & Hel & Hac).
  destruct (eval_iterations self ss qs qc n ckpt s s1 l1 ds Hsel Hn)
    as (s' & log & acc & Hrun & Hacc & (He1 & He2 & _ & _ & He5 & _) & _ & _).
  rewrite Hrun. do 3 eexists. split; [reflexivity|].
  observe. rewrite Hel, Hac, He1, He5. cbn [app]. rewrite !app_nil_r.
  assert (Hmean : (acc == mean (accuracies log))%Q).
  { unfold mean. rewrite He2, Z2Nat.id by lia. exact Hacc. }
  repeat split; auto.
  - rewrite Hmean. unfold mean. apply mean_in_unit.
    + change 0%Q with (inject_Z 0). rewrite <- Zlt_Qlt. rewrite He2. lia.
    + now apply Qsum_bounds.
  - rewrite Hmean. unfold mean. apply mean_in_unit.
    + change 0%Q with (inject_Z 0). rewrite <- Zlt_Qlt. rewrite He2. lia.
    + now apply Qsum_bounds.
Qed.

(** C7 (amended). For eval_iter >= 1: [eval] without a checkpoint leaves
    the model as it is, reads no file and draws each of its eval_iter
    episodes from the validation loader; with the path of a checkpoint file
    it loads the state dict of that file into the model and draws each
    episode from the test loader.  In both cases it returns the arithmetic
    mean of the eval_iter accuracies read from the model, which is in [0,1]
    when each of them is. *)
Theorem eval_selects_loader_and_averages
    (support_size query_size query_class eval_iter : Z) (s : St) :
  1 <= eval_iter ->
  (eval_dataset_of self None s = (s, [], Ok (val_data_loader self)) /\
   exists s' log acc,
     eval self support_size query_size query_class eval_iter None s
       = (s', log, Ok acc) /\
     loads log = [] /\
     episode_loaders log
       = replicate (Z.to_nat eval_iter)
           (val_data_loader self, train_data_loader self) /\
     length (accuracies log) = Z.to_nat eval_iter /\
     (acc == mean (accuracies log))%Q /\
     ((forall a, In a (accuracies log) -> (0 <= a <= 1)%Q) ->
      (0 <= acc <= 1)%Q)) /\
  (forall path ck sd,
     files s !! path = Some ck ->
     ck !! "state_dict" = Some (VState sd) ->
     eval_dataset_of self (Some path) s
       = (set_model (load_state_dict sd (model s)) s,
          [TorchLoad path;
           Println ("Successfully loaded checkpoint '" +:+ path +:+ "'")],
          Ok (test_data_loader self)) /\
     exists s' log acc,
       eval self support_size query_size query_class eval_iter (Some path) s
         = (s', log, Ok acc) /\
       loads log = [path] /\
       episode_loaders log
         = replicate (Z.to_nat eval_iter)
             (test_data_loader self, train_data_loader self) /\
       length (accuracies log) = Z.to_nat eval_iter /\
       (acc == mean (accuracies log))%Q /\
       ((forall a, In a (accuracies log) -> (0 <= a <= 1)%Q) ->
        (0 <= acc <= 1)%Q)).
Proof.
  intros Hn. split.
  - split; [reflexivity|].
    apply (eval_returns_mean _ _ _ _ None s s [] _ (select_none self s) Hn).
  - intros path ck sd Hf Hsd.
    pose proof (select_loaded self path ck sd s Hf Hsd) as Hsel.
    split; [exact Hsel|].
    apply (eval_returns_mean _ _ _ _ (Some path) s _ _ _ Hsel Hn).
Qed.


(** C9 (amended). A run of [train] whose warm start succeeds calls the
    final test evaluation, on the path ckpt_dir/model_name.pth.tar, when
    its loop completes and only then: when train_iter <= 0, or val_step is
    not 0 and either val_iter >= 1 or no iteration of the run is followed by
    a validation.  In such a run the steps of all train_iter iterations are
    displayed; if no file is at that path before the run and no validation
    returns an accuracy above 0, the run raises No checkpoint found at that
    path from the test evaluation, its last call, and prints no test
    accuracy. *)
Theorem train_without_checkpoint_raises
    (pretrain_model : option string)
    (train_iter val_iter val_step test_iter : Z)
    (s s1 : St) (l1 : list event) (start : Z) :
  train_resume pretrain_model s = (s1, l1, Ok start) ->
  let path := os_path_join ckpt_dir (model_name +:+ ".pth.tar") in
  let x := train self model_name batch_size ckpt_dir test_result_dir
             learning_rate lr_step_size weight_decay train_iter val_iter
             val_step test_iter cuda pretrain_model s in
  ((exists before q tail, marks (actions x) = before ++ MEval (Some q) :: tail)
   <-> loop_completes start train_iter val_iter val_step) /\
  (loop_completes start train_iter val_iter val_step ->
   (exists before tail,
      marks (actions x) = before ++ MEval (Some path) :: tail /\
      forall q, ~ In (MEval (Some q)) before) /\
   steps (actions x)
   = map (fun k : nat => start + 1 + Z.of_nat k) (seq 0 (Z.to_nat train_iter)) /\
   (files s !! path = None ->
    (forall a, In a (validation_accs (marks (actions x))) -> ~ (0 < a)%Q) ->
    outcome x
    = Raise (Exception ("No checkpoint found at '" +:+ path +:+ "'")) /\
    (exists before,
       actions x
       = before ++ [EvalCall (Some path) test_iter; Println EmptyString]) /\
    test_reports (actions x) = [])).
Proof.
  intros Hres path x.
  assert (Hdone : loop_completes start train_iter val_iter val_step ->
            (exists before tail,
               marks (actions x) = before ++ MEval (Some path) :: tail /\
               forall q, ~ In (MEval (Some q)) before) /\
            steps (actions x)
            = map (fun k : nat => start + 1 + Z.of_nat k)
                (seq 0 (Z.to_nat train_iter)) /\
            (files s !! path = None ->
             (forall a, In a (validation_accs (marks (actions x))) ->
                        ~ (0 < a)%Q) ->
             outcome x
             = Raise (Exception ("No checkpoint found at '" +:+ path +:+ "'")) /\
             (exists before,
                actions x
                = before ++ [EvalCall (Some path) test_iter;
                             Println EmptyString]) /\
             test_reports (actions x) = [])).
  { intros Hloop.
    destruct (train_completes self model_name batch_size ckpt_dir
                test_result_dir learning_rate lr_step_size weight_decay
                train_iter val_iter val_step test_iter cuda _ _ _ _ _
                Hres Hloop)
      as (s' & log & r & lm & b' & tail & Hrun & Hm & Htail & Hlm & Hst & Hnone).
    subst x. rewrite Hrun. unfold actions, outcome; cbn [fst snd].
    split; [|split].
    - exists lm, tail. split; [exact Hm|].
      intros q Hin. clear - Hlm Hin.
      induction Hlm; cbn in Hin; intuition discriminate.
    - rewrite Hst. apply range_steps.
    - intros Hfile Hacc.
      destruct (loop_marks_no_improvement _ _ _ _ _ _ Hlm) as [Hw _].
      { intros a Ha. apply Qnot_lt_le, Hacc.
        rewrite Hm. now apply (loop_marks_validation_accs _ _ _ _ _ _ Hlm). }
      destruct (Hnone Hw Hfile) as (-> & -> & Htr & Hbefore).
      auto. }
  split; [|exact Hdone].
  split.
  - intros (before & q & tail & Hm).
    exact (train_tested self model_name batch_size ckpt_dir test_result_dir
             learning_rate lr_step_size weight_decay train_iter val_iter
             val_step test_iter cuda _ _ _ _ _ _ _ _ Hres Hm).
  - intros Hloop. destruct (Hdone Hloop) as [(before & tail & Hm & _) _].
    eauto.
Qed.

(** C3 (amended). In every run of [train], a validation that returns
    [acc] is followed by a checkpoint write if and only if [acc] exceeds 0,
    the initial best accuracy, and every accuracy returned by an earlier
    validation of the run. *)
Theorem checkpoint_written_iff_new_best
    (pretrain_model : option string)
    (train_iter val_iter val_step test_iter : Z) (s : St)
    (pre : list mark) (acc : Q) (post : list mark) :
  marks (actions (train self model_name batch_size ckpt_dir test_result_dir
                    learning_rate lr_step_size weight_decay train_iter
                    val_iter val_step test_iter cuda pretrain_model s))
    = pre ++ MEval None :: MAcc acc :: post ->
  ((exists post',
      post = MSave (os_path_join ckpt_dir (model_name +:+ ".pth.tar")) :: post')
   <->
   (0 < acc)%Q /\ forall a, In (MAcc a) pre -> (a < acc)%Q).
Proof.
  destruct (train_any self model_name batch_size ckpt_dir test_result_dir
              learning_rate lr_step_size weight_decay train_iter val_iter
              val_step test_iter cuda pretrain_model s)
    as (s' & log & r & -> & Htrace & _).
  unfold actions; cbn [fst snd].
  apply (trace_decompose _ _ _ Htrace).
Qed.

(** C4 (defect of the code). In a run from iteration 0 with
    val_step >= 2, the accumulators are not zero at the start of a
    validation window: when the k * val_step iterations before window
    k >= 1 are done, [iter_sample] is val_step - 1.  The reset of line 156
    comes after the display of an iteration whose index is a multiple of
    val_step, so the first display of a window averages that iteration
    with the last val_step - 1 iterations of the window before. *)
Theorem accumulators_not_reset_at_window_start
    (val_iter val_step k : Z) (opt : OptState) (s : St) :
  2 <= val_step -> 1 <= val_iter -> 1 <= k ->
  exists s' log lc,
    for_ (range 0 (k * val_step)) (train_body self model_name batch_size ckpt_dir val_iter val_step) (train_locals opt) s
      = (s', log, Ok lc) /\
    (iter_sample lc == inject_Z (val_step - 1))%Q.
Proof.
  intros Hvs Hvi Hk.
  destruct (loop_complete self model_name ckpt_dir batch_size val_iter val_step
              (range 0 (k * val_step)) (train_locals opt) s)
    as (s' & log & lc & Hrun & _ & _ & _ & Hsamp & _); [lia | lia | cbn; lra |].
  exists s', log, lc. split; [exact Hrun|].
  rewrite Hsamp. cbn [train_locals iter_sample].
  assert (Hn : 0 < k * val_step) by nia.
  rewrite <- (Z2Nat.id (k * val_step)) by lia.
  rewrite samples_before by lia.
  rewrite Z2Nat.id by lia.
  replace ((k * val_step - 1) mod val_step) with (val_step - 1); [reflexivity|].
  apply (Z.mod_unique _ _ (k - 1)); [lia | ring].
Qed.


(** C2 (amended). With train_iter = 10 and val_step = 5, no pretrained
    checkpoint and val_iter >= 1, [train] validates exactly twice, after
    step 5 and after step 10, and then calls the test evaluation.  Each
    validation is followed by at most one checkpoint write, and when the
    two accuracies are 0.6 and 0.8 each of them is followed by one: two
    writes. *)
Theorem ten_iterations_two_validations (val_iter test_iter : Z) (s : St) :
  1 <= val_iter ->
  let path := os_path_join ckpt_dir (model_name +:+ ".pth.tar") in
  exists a1 a2 w1 w2 tail,
    marks (actions (train self model_name batch_size ckpt_dir test_result_dir
                      learning_rate lr_step_size weight_decay 10 val_iter 5
                      test_iter cuda None s))
      = [MStep 1; MStep 2; MStep 3; MStep 4; MStep 5; MEval None; MAcc a1]
        ++ w1 ++
        [MStep 6; MStep 7; MStep 8; MStep 9; MStep 10; MEval None; MAcc a2]
        ++ w2 ++ MEval (Some path) :: tail /\
    (w1 = [] \/ w1 = [MSave path]) /\
    (w2 = [] \/ w2 = [MSave path]) /\
    (tail = [] \/ exists t, tail = [MAcc t]) /\
    ((a1 == 6 # 10)%Q -> (a2 == 8 # 10)%Q ->
     w1 = [MSave path] /\ w2 = [MSave path]).
Proof.
  intros Hvi path.
  destruct (train_complete self model_name batch_size ckpt_dir
              test_result_dir learning_rate lr_step_size weight_decay
              10 val_iter 5 test_iter cuda None s s [] 0 (resume_none s))
    as (s' & log & r & lm & b' & tail & -> & Hm & Htail & Hlm & _);
    [discriminate | exact Hvi |].
  unfold actions; cbn [fst snd]. rewrite Hm. clear Hm.
  change (range 0 (0 + 10)) with [0; 1; 2; 3; 4; 5; 6; 7; 8; 9] in Hlm.
  fold path in Hlm.
  do 4 (apply loop_marks_plain in Hlm as (? & -> & Hlm); [|discriminate]).
  apply loop_marks_validation in Hlm
    as (a1 & w1 & ? & b1 & -> & Hlm & Hw1); [|reflexivity].
  do 4 (apply loop_marks_plain in Hlm as (? & -> & Hlm); [|discriminate]).
  apply loop_marks_validation in Hlm
    as (a2 & w2 & ? & b2 & -> & Hlm & Hw2); [|reflexivity].
  apply loop_marks_end in Hlm as ->.
  exists a1, a2, w1, w2, tail. cbn [app].
  rewrite <- !app_assoc, app_nil_r. cbn [app].
  split; [reflexivity|].
  split; [destruct Hw1 as [(_ & -> & _)|(_ & -> & _)]; auto|].
  split; [destruct Hw2 as [(_ & -> & _)|(_ & -> & _)]; auto|].
  split; [exact Htail|].
  intros H1 H2.
  destruct Hw1 as [(Hle & _ & _)|(_ & -> & ->)]; [lra|].
  destruct Hw2 as [(Hle & _ & _)|(_ & -> & _)]; [lra|].
  auto.
Qed.

End Claims.

(** * Further properties of the harness *)

(** ** Observations and invariants of runs *)

Section ObservationFacts2.
Context `{C : Collaborators}.
Implicit Types (e : event) (l k : list event).

Lemma eval_progress_app l k :
  eval_progress (l ++ k) = eval_progress l ++ eval_progress k.
Proof. apply omap_app. Qed.
Lemma eval_progress_cons e l :
  eval_progress (e :: l)
  = from_option (fun y => y :: eval_progress l) (eval_progress l) (progress_of e).
Proof. apply omap_cons_from. Qed.
Lemma eval_progress_nil : eval_progress [] = [].
Proof. reflexivity. Qed.
Lemma losses_app l k : losses (l ++ k) = losses l ++ losses k.
Proof. apply omap_app. Qed.
Lemma losses_cons e l :
  losses (e :: l) = from_option (fun y => y :: losses l) (losses l) (loss_of e).
Proof. apply omap_cons_from. Qed.
Lemma losses_nil : losses [] = [].
Proof. reflexivity. Qed.
Lemma shown_losses_app l k :
  shown_losses (l ++ k) = shown_losses l ++ shown_losses k.
Proof. apply omap_app. Qed.
Lemma shown_losses_cons e l :
  shown_losses (e :: l)
  = from_option (fun y => y :: shown_losses l) (shown_losses l) (shown_loss_of e).
Proof. apply omap_cons_from. Qed.
Lemma shown_losses_nil : shown_losses [] = [].
Proof. reflexivity. Qed.
Lemma made_dirs_app l k : made_dirs (l ++ k) = made_dirs l ++ made_dirs k.
Proof. apply omap_app. Qed.
Lemma made_dirs_cons e l :
  made_dirs (e :: l)
  = from_option (fun y => y :: made_dirs l) (made_dirs l) (made_dir_of e).
Proof. apply omap_cons_from. Qed.
Lemma made_dirs_nil : made_dirs [] = [].
Proof. reflexivity. Qed.

End ObservationFacts2.

#[export] Hint Rewrite @eval_progress_app @eval_progress_cons @eval_progress_nil
  @losses_app @losses_cons @losses_nil
  @shown_losses_app @shown_losses_cons @shown_losses_nil
  @made_dirs_app @made_dirs_cons @made_dirs_nil : obs.

(** Evaluate the observations of a log, the displays included. *)
Ltac observe_all :=
  autorewrite with obs;
  cbn beta iota delta [from_option mark_of step_of loaders_of accuracy_of
                       load_of report_of write_of progress_of loss_of
                       shown_loss_of made_dir_of].

Section Respects.
Context `{C : Collaborators}.
Context (R : St -> list event -> St -> Prop) `{!RunInvariant R}.

Lemma respects_ret {A} (a : A) : respects R (ret a).
Proof. intros s. apply inv_nil. Qed.

Lemma respects_raise {A} (e : exn) : respects R (@raise St event A e).
Proof. intros s. apply inv_nil. Qed.

Lemma respects_gets {A} (g : St -> A) : respects R (gets g).
Proof. intros s. apply inv_nil. Qed.

Lemma respects_lift {A} (r : res A) : respects R (lift r).
Proof. intros s. apply inv_nil. Qed.

Lemma respects_emit (ev : event) :
  (forall s, R s [ev] s) -> respects R (emit ev).
Proof. intros H s. apply H. Qed.

Lemma respects_set_model (g : St -> Model Params) :
  respects R (modify (fun s => set_model (g s) s)).
Proof. intros s. apply inv_model. Qed.

Lemma respects_bind {A B} (m : M St event A) (f : A -> M St event B) :
  respects R m -> (forall a, respects R (f a)) -> respects R (bind m f).
Proof.
  intros Hm Hf s. specialize (Hm s). unfold bind.
  destruct (m s) as [[s1 l1] [a|e]]; [|exact Hm].
  specialize (Hf a s1). destruct (f a s1) as [[s2 l2] r].
  exact (inv_app _ _ _ _ _ Hm Hf).
Qed.

Lemma respects_bind_ok {A B} (m : M St event A) (f : A -> M St event B) :
  respects R m ->
  (forall a s, outcome (m s) = Ok a -> respects R (f a)) ->
  respects R (bind m f).
Proof.
  intros Hm Hf s. specialize (Hm s). unfold bind.
  destruct (m s) as [[s1 l1] [a|e]] eqn:E; [|exact Hm].
  assert (Ha : outcome (m s) = Ok a) by now rewrite E.
  specialize (Hf a s Ha s1). destruct (f a s1) as [[s2 l2] r].
  exact (inv_app _ _ _ _ _ Hm Hf).
Qed.

Lemma respects_for {L} (body : Z -> L -> M St event L) its :
  (forall it lc, respects R (body it lc)) ->
  forall lc, respects R (for_ its body lc).
Proof.
  intros Hb. induction its as [|it its IH]; intros lc; cbn [for_].
  - apply respects_ret.
  - apply respects_bind; [apply Hb | exact IH].
Qed.

Lemma respects_next_batch l n :
  (forall s, R s [NextBatch l n] s) -> respects R (loader_next_batch l n).
Proof.
  intros H s.
  exact (inv_app _ _ _ _ _ (H s) (inv_heap s _)).
Qed.

Lemma respects_next_new_relation l r ss qs qc :
  (forall s, R s [NextNewRelation l r ss qs qc] s) ->
  respects R (loader_next_new_relation l r ss qs qc).
Proof.
  intros H s.
  exact (inv_app _ _ _ _ _ (H s) (inv_heap s _)).
Qed.

Lemma respects_optimizer_update opt : respects R (optimizer_update opt).
Proof. intros s. apply inv_model. Qed.

Lemma respects_getitem d key : respects R (getitem d key).
Proof.
  unfold getitem. destruct (d !! key); [apply respects_ret | apply respects_raise].
Qed.

Lemma respects_load_state_dict v : respects R (model_load_state_dict v).
Proof.
  destruct v; [apply respects_set_model | apply respects_raise].
Qed.

Lemma respects_value_succ v : respects R (value_succ v).
Proof. destruct v; [apply respects_raise | apply respects_ret]. Qed.

Lemma respects_load_model path :
  (forall s, R s [TorchLoad path] s) ->
  (forall line s, R s [Println line] s) ->
  respects R (__load_model__ path).
Proof.
  intros Hl Hp. unfold __load_model__, os_path_isfile.
  apply respects_bind; [apply respects_gets|]. intros [|].
  - apply respects_bind.
    + unfold torch_load. apply respects_bind; [apply respects_gets|].
      intros fs. destruct (fs !! path); [|apply respects_raise].
      apply respects_bind; [now apply respects_emit|]. intros _.
      apply respects_ret.
    + intros ck. apply respects_bind; [now apply respects_emit|]. intros _.
      apply respects_ret.
  - apply respects_raise.
Qed.

Lemma select_returns (self : Framework) ckpt s ds :
  outcome (eval_dataset_of self ckpt s) = Ok ds ->
  ds = match ckpt with
       | None => val_data_loader self
       | Some _ => test_data_loader self
       end.
Proof.
  destruct ckpt as [path|]; [|now intros [= <-]].
  destruct (files s !! path) as [ck|] eqn:H.
  - unfold eval_dataset_of.
    rewrite (bind_ok _ _ _ _ _ _ (load_found path ck s H)).
    unfold getitem, model_load_state_dict.
    destruct (ck !! "state_dict") as [[sd|i]|]; autorewrite with run;
      cbn; congruence.
  - rewrite (select_missing self path s H). discriminate.
Qed.

Section Eval.
Variable self : Framework.
Variables (ss qs qc n : Z) (ckpt : option string).
Hypothesis Hev : forall e s, eval_action self ss qs qc n ckpt e -> R s [e] s.

Lemma respects_eval : respects R (eval self ss qs qc n ckpt).
Proof.
  unfold eval.
  apply respects_bind; [apply respects_emit; intros; now apply Hev|]. intros _.
  apply respects_bind; [apply respects_emit; intros; now apply Hev|]. intros _.
  apply respects_bind_ok.
  - unfold eval_dataset_of. destruct ckpt as [path|]; [|apply respects_ret].
    apply respects_bind.
    { apply respects_load_model; intros; now apply Hev. }
    intros ck. apply respects_bind; [apply respects_getitem|]. intros sd.
    apply respects_bind; [apply respects_load_state_dict|]. intros _.
    apply respects_ret.
  - intros ds s Hds. apply select_returns in Hds.
    apply respects_bind.
    + apply respects_for. intros it [ir isamp]. unfold eval_body.
      apply respects_bind.
      { apply respects_next_new_relation. intros s'. apply Hev. cbn. auto. }
      intros data. apply respects_bind; [apply respects_set_model|]. intros _.
      apply respects_bind.
      { unfold model_accuracy. apply respects_bind; [apply respects_gets|].
        intros a. apply respects_bind; [|intros _; apply respects_ret].
        apply respects_emit. intros; now apply Hev. }
      intros right. apply respects_bind; [apply respects_lift|]. intros shown.
      apply respects_bind; [|intros _; apply respects_ret].
      apply respects_emit. intros; now apply Hev.
    + intros locals.
      apply respects_bind; [apply respects_emit; intros; now apply Hev|].
      intros _. apply respects_bind; [apply respects_lift|]. intros acc.
      apply respects_bind; [|intros _; apply respects_ret].
      apply respects_emit. intros; now apply Hev.
Qed.

End Eval.

Section Train.
Variable self : Framework.
Variables (model_name : string) (batch_size : Z)
  (ckpt_dir test_result_dir : string)
  (learning_rate : Q) (lr_step_size : Z) (weight_decay : Q)
  (train_iter val_iter val_step test_iter : Z) (cuda : bool)
  (pretrain_model : option string).

Abbreviation allowed :=
  (train_action self model_name batch_size ckpt_dir val_iter test_iter
     pretrain_model).

Hypothesis Hev : forall e s, allowed e -> is_fs_write e = false -> R s [e] s.
Hypothesis Hsave : forall sd,
  respects R (torch_save {["state_dict" := VState sd]}
                (os_path_join ckpt_dir (model_name +:+ ".pth.tar"))).
Hypothesis Hdir : respects R (ensure_dir ckpt_dir).

Lemma respects_own (e : event) :
  match e with
  | Println _ | TrainProgress _ _ _ | ModelLoss _ | ModelAccuracy _
  | PrintTestAccuracy _ => True
  | NextBatch l n => l = train_data_loader self /\ n = batch_size
  | TorchLoad p => pretrain_model = Some p
  | _ => False
  end -> forall s, R s [e] s.
Proof.
  intros H s. apply Hev; [|destruct e; try reflexivity; contradiction].
  right; right. destruct e; try exact H; contradiction.
Qed.

Lemma respects_train_checkpoint acc lc :
  respects R (train_checkpoint model_name ckpt_dir acc lc).
Proof.
  unfold train_checkpoint. destruct (py_gt acc (best_acc lc)); [|apply respects_ret].
  apply respects_bind; [apply respects_emit, respects_own; exact I|]. intros _.
  intros s. rewrite <- bind_bind. revert s.
  apply respects_bind; [exact Hdir|]. intros _.
  apply respects_bind; [apply respects_gets|]. intros sd.
  apply respects_bind; [apply Hsave|]. intros _. apply respects_ret.
Qed.

Lemma respects_train_body it lc :
  respects R (train_body self model_name batch_size ckpt_dir val_iter val_step it lc).
Proof.
  unfold train_body.
  apply respects_bind.
  { apply respects_next_batch, respects_own. auto. }
  intros batch. apply respects_bind; [apply respects_set_model|]. intros _.
  apply respects_bind.
  { unfold model_loss. apply respects_bind; [apply respects_gets|].
    intros l. apply respects_bind; [|intros _; apply respects_ret].
    apply respects_emit, respects_own. exact I. }
  intros loss. apply respects_bind.
  { unfold model_accuracy. apply respects_bind; [apply respects_gets|].
    intros a. apply respects_bind; [|intros _; apply respects_ret].
    apply respects_emit, respects_own. exact I. }
  intros right. apply respects_bind; [apply respects_optimizer_update|].
  intros opt. apply respects_bind; [apply respects_lift|]. intros shown_loss.
  apply respects_bind; [apply respects_lift|]. intros shown_acc.
  apply respects_bind; [apply respects_emit, respects_own; exact I|]. intros _.
  apply respects_bind; [apply respects_lift|]. intros r.
  apply respects_bind; [apply respects_lift|]. intros r'.
  destruct (r' =? 0); [|apply respects_ret].
  apply respects_bind.
  { apply respects_eval. intros e s He. apply Hev; [now left|].
    destruct e; try reflexivity; contradiction. }
  intros acc. apply respects_bind; [apply respects_set_model|]. intros _.
  apply respects_train_checkpoint.
Qed.

Lemma respects_train_resume : respects R (train_resume pretrain_model).
Proof.
  assert (Hl : forall p, pretrain_model = Some p -> forall s, R s [TorchLoad p] s)
    by (intros p Hp; now apply respects_own).
  assert (Hp : forall line s, R s [Println line] s)
    by (intros line; now apply respects_own).
  unfold train_resume. destruct pretrain_model as [path|]; [|apply respects_ret].
  destruct (String.eqb path EmptyString); [apply respects_ret|].
  apply respects_bind.
  { apply respects_load_model; [now apply Hl | exact Hp]. }
  intros ck. apply respects_bind; [apply respects_getitem|]. intros sd.
  apply respects_bind; [apply respects_load_state_dict|]. intros _.
  apply respects_bind; [apply respects_getitem|]. intros i.
  apply respects_value_succ.
Qed.

Lemma respects_train_finish :
  respects R (train_finish self model_name ckpt_dir test_iter).
Proof.
  unfold train_finish.
  apply respects_bind; [apply respects_emit, respects_own; exact I|]. intros _.
  apply respects_bind; [apply respects_emit, respects_own; exact I|]. intros _.
  apply respects_bind.
  { apply respects_eval. intros e s He. apply Hev; [right; now left|].
    destruct e; try reflexivity; contradiction. }
  intros acc. apply respects_emit, respects_own. exact I.
Qed.

Lemma respects_train :
  respects R (train self model_name batch_size ckpt_dir test_result_dir
                learning_rate lr_step_size weight_decay train_iter val_iter
                val_step test_iter cuda pretrain_model).
Proof.
  unfold train.
  apply respects_bind; [apply respects_emit, respects_own; exact I|]. intros _.
  apply respects_bind; [apply respects_gets|]. intros opt.
  apply respects_bind; [apply respects_train_resume|]. intros start_iter.
  apply respects_bind.
  { destruct cuda; [apply respects_set_model | apply respects_ret]. }
  intros _. apply respects_bind.
  { apply respects_for. intros it lc. apply respects_train_body. }
  intros _. apply respects_train_finish.
Qed.

End Train.
End Respects.

Section Instances.
Context `{C : Collaborators}.

#[export] Instance only_invariant (P : event -> Prop) : RunInvariant (only P).
Proof.
  split; unfold only.
  - intros; constructor.
  - intros s l1 s1 l2 s2 H1 H2. apply Forall_app. auto.
  - intros; constructor.
  - intros; constructor.
Qed.

#[export] Instance unchanged_invariant : RunInvariant unchanged.
Proof.
  split; unfold unchanged.
  - auto.
  - intros s l1 s1 l2 s2 [Hf1 Hd1] [Hf2 Hd2]. split; congruence.
  - auto.
  - auto.
Qed.

#[export] Instance dir_once_invariant (d : string) : RunInvariant (dir_once d).
Proof.
  split; unfold dir_once.
  - intros s. rewrite made_dirs_nil. auto.
  - intros s l1 s1 l2 s2 (Ha1 & Hb1) (Ha2 & Hb2).
    rewrite made_dirs_app. split.
    + intros Hp. destruct (Ha1 Hp) as [Hp1 ->].
      destruct (Ha2 Hp1) as [Hp2 ->]. auto.
    + destruct Hb1 as [->|[-> Hp1]].
      * exact Hb2.
      * destruct (Ha2 Hp1) as [Hp2 ->]. right. auto.
  - intros s m. rewrite made_dirs_nil. auto.
  - intros s h. rewrite made_dirs_nil. auto.
Qed.

End Instances.

(** * What [eval] and [train] do around them *)

Section Footprint.
Context `{C : Collaborators}.
Variable self : Framework.

Lemma eval_actions ss qs qc n ckpt s :
  Forall (eval_action self ss qs qc n ckpt)
    (actions (eval self ss qs qc n ckpt s)).
Proof.
  apply (respects_eval (only (eval_action self ss qs qc n ckpt))).
  intros e s' He. constructor; [exact He | constructor].
Qed.

Lemma quiet_log (P : event -> Prop) {B} (f : event -> option B) log :
  (forall e, P e -> f e = None) -> Forall P log -> omap f log = [].
Proof.
  intros H. induction 1 as [|e l He Hl IH]; [reflexivity|].
  rewrite omap_cons_from, (H e He). exact IH.
Qed.

Lemma ensure_dir_run d s :
  ensure_dir d s
  = if bool_decide (present d s) then (s, [], Ok tt)
    else (set_dirs ({[d]} ∪ dirs s) s, [MakeDirs d], Ok tt).
Proof.
  unfold ensure_dir, os_path_exists, os_makedirs, present.
  autorewrite with run. destruct (bool_decide _); reflexivity.
Qed.

End Footprint.

(** * More on [Model.__accuracy__] *)

Lemma to_float_unit (l : list bool) (x : Q) :
  In x (to_float l) -> (0 <= x <= 1)%Q.
Proof.
  unfold to_float. rewrite in_map_iff. intros ([|] & <- & _); lra.
Qed.

Lemma torch_mean_to_float (l : list bool) :
  l <> [] ->
  exists q, torch_mean (to_float l) = Some q /\ (0 <= q <= 1)%Q.
Proof.
  intros Hne. destruct l as [|b l]; [contradiction|].
  eexists. split; [reflexivity|].
  apply mean_in_unit.
  - change 0%Q with (inject_Z 0). rewrite <- Zlt_Qlt.
    unfold to_float. cbn [map length]. lia.
  - apply Qsum_bounds. apply to_float_unit.
Qed.

Lemma tensor_eq_nil_iff (a b : list Z) :
  tensor_eq a b = [] <-> a = [] \/ b = [].
Proof.
  destruct a as [|x a], b as [|y b]; cbn; split; intros H; auto;
    try discriminate; destruct H; discriminate.
Qed.

Lemma tensor_eq_sym (a b : list Z) : tensor_eq a b = tensor_eq b a.
Proof.
  revert b. induction a as [|x a IH]; intros [|y b]; cbn; try reflexivity.
  now rewrite Z.eqb_sym, IH.
Qed.

Lemma accuracy_same_length (pred label : Tensor) :
  length pred = length label ->
  __accuracy__ pred label = Ok (torch_mean (to_float (tensor_eq pred label))).
Proof.
  intros H. unfold __accuracy__, tensor_eq_broadcast, view_flat.
  now rewrite H, Nat.eqb_refl.
Qed.

Lemma matches_all (a b : list Z) :
  length a = length b -> (matches a b = length a <-> a = b).
Proof.
  revert b. induction a as [|x a IH]; intros [|y b] H; cbn in *;
    try discriminate; [tauto|].
  injection H as H. pose proof (matches_le a b) as Hle.
  destruct (Z.eq_dec x y) as [->|Hxy]; split.
  - intros E. f_equal. apply IH; [exact H | lia].
  - intros [= ->]. assert (matches b b = length b) by (now apply IH). lia.
  - lia.
  - intros [= -> ->]. contradiction.
Qed.

Lemma broadcast_outcomes (a b : list Z) :
  match tensor_eq_broadcast a b with
  | Ok eqs =>
      (length a = length b \/ length a = 1%nat \/ length b = 1%nat) /\
      (eqs = [] <-> a = [] \/ b = [])
  | Raise e =>
      e = RuntimeError /\ length a <> length b /\
      length a <> 1%nat /\ length b <> 1%nat
  end.
Proof.
  unfold tensor_eq_broadcast.
  destruct (Nat.eqb_spec (length a) (length b)) as [E|E].
  - split; [now left | apply tensor_eq_nil_iff].
  - destruct a as [|x [|x' a]], b as [|y [|y' b]]; cbn [length map] in *;
      try congruence;
      repeat split; auto; try discriminate; try lia;
      intros H; try discriminate H; auto; destruct H; discriminate.
Qed.

(** X1. On two tensors of integer dtype, [__accuracy__] has three
    outcomes: a number, which is then in [0,1]; NaN, exactly when both flat
    views exist and the comparison has no element; RuntimeError, exactly
    when [pred.view(-1)] or [label.view(-1)] does not exist, or the two
    lengths differ and neither is 1. *)
Theorem accuracy_outcomes (pred label : TensorObj) :
  match accuracy_call pred label with
  | Ok (Some q) =>
      (0 <= q <= 1)%Q /\
      viewable pred = true /\ viewable label = true /\
      data pred <> [] /\ data label <> [] /\
      (length (data pred) = length (data label) \/
       length (data pred) = 1%nat \/ length (data label) = 1%nat)
  | Ok None =>
      viewable pred = true /\ viewable label = true /\
      ((data pred = [] /\
        (data label = [] \/ length (data label) = 1%nat)) \/
       (data label = [] /\ length (data pred) = 1%nat))
  | Raise e =>
      e = RuntimeError /\
      (viewable pred = false \/ viewable label = false \/
       (length (data pred) <> length (data label) /\
        length (data pred) <> 1%nat /\ length (data label) <> 1%nat))
  end.
Proof.
  unfold accuracy_call, tensor_view.
  destruct (viewable pred); [|now auto].
  destruct (viewable label); [|now auto].
  generalize (data pred) (data label). clear pred label.
  intros pred label.
  unfold __accuracy__, view_flat.
  pose proof (broadcast_outcomes pred label) as H.
  destruct (tensor_eq_broadcast pred label) as [eqs|e];
    [|destruct H as [-> H]; now auto].
  destruct H as [Hlen Hnil].
  destruct eqs as [|b l].
  - cbn. do 2 (split; [reflexivity|]).
    destruct Hnil as [Hnil _]. destruct (Hnil eq_refl) as [-> | ->].
    + left. split; [reflexivity|].
      destruct Hlen as [H|[H|H]]; [left|discriminate H|now right].
      destruct label; [reflexivity | discriminate H].
    + destruct Hlen as [H|[H|H]]; [left|now right|discriminate H].
      destruct pred; [auto | discriminate H].
  - destruct (torch_mean_to_float (b :: l)) as (q & -> & Hq); [discriminate|].
    split; [exact Hq|]. do 2 (split; [reflexivity|]).
    split; [|split; [|exact Hlen]]; intros ->;
      destruct Hnil as [_ Hnil]; discriminate Hnil; auto.
Qed.

(** X2. [__accuracy__] does not depend on which argument is the
    prediction and which the label. *)
Theorem accuracy_symmetric (pred label : Tensor) :
  __accuracy__ pred label = __accuracy__ label pred.
Proof.
  unfold __accuracy__, tensor_eq_broadcast, view_flat.
  rewrite (Nat.eqb_sym (length label)), (tensor_eq_sym label pred).
  destruct (length pred =? length label)%nat eqn:E; [reflexivity|].
  assert (Hmap : forall (z : Z) l,
             map (fun y => z =? y) l = map (fun x => x =? z) l)
    by (intros z l; apply map_ext; intros; apply Z.eqb_sym).
  destruct pred as [|x [|x' pred]], label as [|y [|y' label]];
    try discriminate E; try reflexivity; now rewrite Hmap.
Qed.

Lemma Qdiv_inject_eq (m n k : Z) :
  0 < n -> ((inject_Z m / inject_Z n == inject_Z k)%Q <-> m = k * n).
Proof.
  intros Hn.
  assert (Hne : ~ (inject_Z n == 0)%Q).
  { change 0%Q with (inject_Z 0). rewrite inject_Z_injective. lia. }
  split; intros H.
  - apply inject_Z_injective. rewrite inject_Z_mult, <- H. now field.
  - subst m. rewrite inject_Z_mult. now field.
Qed.

(** X3. On two tensors of integer dtype and of one length for which
    [__accuracy__] returns a number, that number is 1 exactly when the
    two have the same data and 0 exactly when they agree at no
    position. *)
Theorem accuracy_one_iff_equal (pred label : TensorObj) (q : Q) :
  length (data pred) = length (data label) ->
  accuracy_call pred label = Ok (Some q) ->
  ((q == 1)%Q <-> data pred = data label) /\
  ((q == 0)%Q <-> matches (data pred) (data label) = 0%nat).
Proof.
  intros Hlen. unfold accuracy_call, tensor_view.
  destruct (viewable pred); [|discriminate].
  destruct (viewable label); [|discriminate].
  revert Hlen. generalize (data pred) (data label). clear pred label.
  intros pred label Hlen.
  rewrite (accuracy_same_length _ _ Hlen).
  assert (Hl : length (to_float (tensor_eq pred label)) = length pred).
  { unfold to_float. rewrite length_map. now apply tensor_eq_length. }
  unfold torch_mean.
  destruct (to_float (tensor_eq pred label)) as [|x l] eqn:E; [discriminate|].
  rewrite Hl, <- E. intros [= <-].
  assert (Hpos : 0 < Z.of_nat (length pred))
    by (rewrite <- Hl; cbn [length]; lia).
  rewrite Qsum_tensor_eq.
  change 1%Q with (inject_Z 1). change 0%Q with (inject_Z 0).
  rewrite !Qdiv_inject_eq by exact Hpos.
  rewrite <- (matches_all _ _ Hlen). split; split; lia.
Qed.



(** * More on [__load_model__] and [eval] *)

Section MoreEval.
Context `{C : Collaborators}.
Variable self : Framework.

(** X5. [__load_model__] returns the dict stored at the path, after one
    [torch.load] and its line of output, when the path names a file, and
    raises No checkpoint found otherwise, without any action; in both
    cases the store is as before. *)
Theorem load_model_outcomes (ckpt : string) (s : St) :
  match files s !! ckpt with
  | Some checkpoint =>
      __load_model__ ckpt s
      = (s, [TorchLoad ckpt;
             Println ("Successfully loaded checkpoint '" +:+ ckpt +:+ "'")],
         Ok checkpoint)
  | None =>
      __load_model__ ckpt s
      = (s, [], Raise (Exception ("No checkpoint found at '" +:+ ckpt +:+ "'")))
  end.
Proof.
  destruct (files s !! ckpt) as [ck|] eqn:H.
  - exact (load_found ckpt ck s H).
  - exact (load_missing ckpt s H).
Qed.

(** X6. Whatever its arguments and its outcome, [eval] leaves the files
    and the directories as they are, and performs only actions of
    [eval_action]: it draws no training batch, reads no loss, creates no
    directory, writes no file, and loads no file but its checkpoint. *)
Theorem eval_leaves_file_system
    (support_size query_size query_class eval_iter : Z)
    (ckpt : option string) (s : St) :
  let x := eval self support_size query_size query_class eval_iter ckpt s in
  files (store x) = files s /\ dirs (store x) = dirs s /\
  Forall (eval_action self support_size query_size query_class eval_iter ckpt)
    (actions x).
Proof.
  intros x. subst x.
  destruct (respects_eval unchanged self support_size query_size query_class
              eval_iter ckpt) with (s := s) as [Hf Hd].
  { intros e s' _. split; reflexivity. }
  split; [exact Hf|]. split; [exact Hd|]. apply eval_actions.
Qed.

Lemma select_without_state_dict path ck s :
  files s !! path = Some ck ->
  ck !! "state_dict" = None ->
  eval_dataset_of self (Some path) s
  = (s, [TorchLoad path; loaded_line path], Raise (KeyError "state_dict")).
Proof.
  intros H Hsd. unfold eval_dataset_of.
  rewrite (bind_ok _ _ _ _ _ _ (load_found path ck s H)).
  unfold getitem. rewrite Hsd. autorewrite with run. reflexivity.
Qed.

Lemma resume_without_state_dict path ck s :
  path <> EmptyString ->
  files s !! path = Some ck ->
  ck !! "state_dict" = None ->
  train_resume (Some path) s
  = (s, [TorchLoad path; loaded_line path], Raise (KeyError "state_dict")).
Proof.
  intros Hne H Hsd. unfold train_resume.
  destruct (String.eqb_spec path EmptyString) as [E|_]; [contradiction|].
  rewrite (bind_ok _ _ _ _ _ _ (load_found path ck s H)).
  unfold getitem. rewrite Hsd. autorewrite with run. reflexivity.
Qed.

End MoreEval.

Section MoreTrain.
Context `{C : Collaborators}.
Variable self : Framework.
Variables (model_name : string) (batch_size : Z)
  (ckpt_dir test_result_dir : string)
  (learning_rate : Q) (lr_step_size : Z) (weight_decay : Q) (cuda : bool).

(** X7. A checkpoint file without the key state_dict is loaded and then
    rejected with KeyError, by [eval] before it draws an episode and by
    [train] before its first iteration; the model is not changed. *)
Theorem checkpoint_without_state_dict
    (path : string) (ck : gmap string value) (s : St) :
  files s !! path = Some ck ->
  ck !! "state_dict" = None ->
  (forall support_size query_size query_class eval_iter,
     eval self support_size query_size query_class eval_iter (Some path) s
     = (s, [EvalCall (Some path) eval_iter; Println EmptyString;
            TorchLoad path;
            Println ("Successfully loaded checkpoint '" +:+ path +:+ "'")],
        Raise (KeyError "state_dict"))) /\
  (path <> EmptyString ->
   forall train_iter val_iter val_step test_iter,
     train self model_name batch_size ckpt_dir test_result_dir learning_rate
       lr_step_size weight_decay train_iter val_iter val_step test_iter cuda
       (Some path) s
     = (s, [Println "Start training..."; TorchLoad path;
            Println ("Successfully loaded checkpoint '" +:+ path +:+ "'")],
        Raise (KeyError "state_dict"))).
Proof.
  intros H Hsd. split.
  - intros ss qs qc n.
    apply (eval_raise_select self ss qs qc n (Some path) s s
             [TorchLoad path; loaded_line path]).
    now apply select_without_state_dict with (ck := ck).
  - intros Hne ti vi vs tei.
    apply (train_resume_raises self model_name batch_size ckpt_dir
             test_result_dir learning_rate lr_step_size weight_decay
             ti vi vs tei cuda (Some path) s s
             [TorchLoad path; loaded_line path]).
    now apply resume_without_state_dict with (ck := ck).
Qed.

(** X8. A warm start from a checkpoint that has a state dict but no
    iteration index fails with KeyError after the state dict is loaded:
    [train] raises before its first iteration and leaves the model with
    the parameters of the checkpoint. *)
Theorem failed_resume_keeps_loaded_parameters
    (path : string) (ck : gmap string value) (sd : Params)
    (train_iter val_iter val_step test_iter : Z) (s : St) :
  path <> EmptyString ->
  files s !! path = Some ck ->
  ck !! "state_dict" = Some (VState sd) ->
  ck !! "iter" = None ->
  let x := train self model_name batch_size ckpt_dir test_result_dir
             learning_rate lr_step_size weight_decay train_iter val_iter
             val_step test_iter cuda (Some path) s in
  outcome x = Raise (KeyError "iter") /\
  steps (actions x) = [] /\
  state_dict (model (store x)) = sd /\
  store x = set_model (load_state_dict sd (model s)) s.
Proof.
  intros Hne H Hsd Hi x. subst x.
  rewrite (train_resume_raises self model_name batch_size ckpt_dir
             test_result_dir learning_rate lr_step_size weight_decay
             train_iter val_iter val_step test_iter cuda (Some path) s _ _ _
             (resume_without_iter path ck sd s Hne H Hsd Hi)).
  unfold outcome, actions, store; cbn [fst snd]. observe. auto.
Qed.

End MoreTrain.

(** * Runs of [train] that stop early *)

Section EarlyStop.
Context `{C : Collaborators}.
Variable self : Framework.
Variables (model_name : string) (batch_size : Z)
  (ckpt_dir test_result_dir : string)
  (learning_rate : Q) (lr_step_size : Z) (weight_decay : Q) (cuda : bool).

Abbreviation path := (save_path model_name ckpt_dir).


(** X9. With val_step = 0, a run of [train] that has an iteration to do
    raises ZeroDivisionError in its first iteration, after the display of
    that step: line 156 divides by val_step.  Nothing is validated and no
    file is written. *)
Theorem zero_val_step_stops_first_iteration
    (pretrain_model : option string) (train_iter val_iter test_iter : Z)
    (s s1 : St) (l1 : list event) (start : Z) :
  train_resume pretrain_model s = (s1, l1, Ok start) ->
  1 <= train_iter ->
  let x := train self model_name batch_size ckpt_dir test_result_dir
             learning_rate lr_step_size weight_decay train_iter val_iter 0
             test_iter cuda pretrain_model s in
  outcome x = Raise ZeroDivisionError /\
  marks (actions x) = [MStep (start + 1)] /\
  files (store x) = files s.
Proof.
  intros Hres Hn x. subst x.
  destruct (resume_quiet _ _ _ _ _ Hres) as (Hf1 & Hm1 & _ & _).
  set (lc := train_locals (make_optimizer (model s) learning_rate weight_decay
                             lr_step_size)).
  destruct (train_body_cases self model_name ckpt_dir batch_size val_iter 0
              start lc (on_device cuda s1))
    as (s2 & log2 & r2 & vm & Hrun & Hm & _ & _ & Hc); [cbn; lra|].
  revert Hrun Hm.
  destruct Hc as [Hz Hf | lc1 Hz Hv Hb Hsm Hf | Hz Hv Hn' Hf
                 | lc1 acc Hz Hv Hn' Hgt Hb Hsm Hf
                 | lc1 acc Hz Hv Hn' Hgt Hb Hsm Hf]; intros Hrun Hm;
    try contradiction.
  rewrite (train_loop_raises self model_name batch_size ckpt_dir
             test_result_dir learning_rate lr_step_size weight_decay
             train_iter val_iter 0 test_iter cuda pretrain_model
             s s1 l1 start s2 log2 ZeroDivisionError Hres).
  - unfold outcome, actions, store; cbn [fst snd]. observe.
    rewrite Hm1, Hm. cbn [app].
    repeat split. rewrite Hf, on_device_files. exact Hf1.
  - rewrite range_cons by lia. cbn [for_]. fold lc.
    now rewrite (bind_raise _ _ _ _ _ _ Hrun).
Qed.


(** X11. With train_iter <= 0 the loop of [train] has no iteration: the
    run goes straight to the test evaluation of the checkpoint path, and
    when no file is there it raises No checkpoint found, having drawn no
    batch and shown no step. *)
Theorem train_without_iterations
    (train_iter val_iter val_step test_iter : Z) (s : St) :
  train_iter <= 0 ->
  files s !! os_path_join ckpt_dir (model_name +:+ ".pth.tar") = None ->
  train self model_name batch_size ckpt_dir test_result_dir learning_rate
    lr_step_size weight_decay train_iter val_iter val_step test_iter cuda
    None s
  = (on_device cuda s,
     [Println "Start training...";
      Println (newline +:+ "####################" +:+ newline);
      Println ("Finish training " +:+ model_name);
      EvalCall (Some (os_path_join ckpt_dir (model_name +:+ ".pth.tar")))
        test_iter;
      Println EmptyString],
     Raise (Exception
              ("No checkpoint found at '"
               +:+ os_path_join ckpt_dir (model_name +:+ ".pth.tar") +:+ "'"))).
Proof.
  intros Hn Hfile.
  rewrite (train_from_loop self model_name batch_size ckpt_dir test_result_dir
             learning_rate lr_step_size weight_decay train_iter val_iter
             val_step test_iter cuda None s s [] 0 (resume_none s)).
  rewrite range_nil by lia. cbn [for_]. rewrite bind_ret.
  assert (Hdev : files (on_device cuda s) !! path = None)
    by (now rewrite on_device_files).
  unfold train_finish. autorewrite with run.
  rewrite (bind_raise _ _ _ _ _ _
             (eval_raise_select self 10 10 2 test_iter (Some path) _ _ _ _
                (select_missing self path (on_device cuda s) Hdev))).
  autorewrite with run. reflexivity.
Qed.

End EarlyStop.

(** * What a run of [train] touches *)

Section TrainFootprint.
Context `{C : Collaborators}.
Variable self : Framework.
Variables (model_name : string) (batch_size : Z)
  (ckpt_dir test_result_dir : string)
  (learning_rate : Q) (lr_step_size : Z) (weight_decay : Q)
  (train_iter val_iter val_step test_iter : Z) (cuda : bool)
  (pretrain_model : option string).

Abbreviation path := (os_path_join ckpt_dir (model_name +:+ ".pth.tar")).
Abbreviation train_ :=
  (train self model_name batch_size ckpt_dir test_result_dir learning_rate
     lr_step_size weight_decay train_iter val_iter val_step test_iter cuda
     pretrain_model).

(** X12. Every action of a run of [train], whatever its outcome, is one
    of [train_action]: batches come from the training loader with the
    batch size given; episodes come from the validation or the test
    loader, with the training loader as reference and the sizes 10, 10
    and 2; the only files loaded are the pretrained checkpoint and the
    checkpoint of the model; the only directory created is ckpt_dir; the
    only file written is the checkpoint of the model, with a state dict
    as its one entry. *)
Theorem train_footprint (s : St) :
  Forall (train_action self model_name batch_size ckpt_dir val_iter test_iter
            pretrain_model)
    (actions (train_ s)).
Proof.
  refine (respects_train
            (only (train_action self model_name batch_size ckpt_dir val_iter
                     test_iter pretrain_model))
            self model_name batch_size ckpt_dir test_result_dir learning_rate
            lr_step_size weight_decay train_iter val_iter val_step test_iter
            cuda pretrain_model _ _ _ s).
  - intros e s' He _. constructor; [exact He | constructor].
  - intros sd s'. unfold only, torch_save, actions. cbn.
    constructor; [|constructor].
    right; right. split; [reflexivity | now exists sd].
  - intros s'. rewrite ensure_dir_run. unfold only, actions.
    destruct (bool_decide _); cbn [fst snd]; constructor; [|constructor].
    right; right. reflexivity.
Qed.

(** X14. A run of [train] calls [os.makedirs] at most once, on ckpt_dir,
    and not at all when ckpt_dir exists at the start: the test of line 166
    sees the directory that an earlier checkpoint write has created. *)
Theorem train_creates_directory_once (s : St) :
  let x := train_ s in
  (made_dirs (actions x) = [] \/ made_dirs (actions x) = [ckpt_dir]) /\
  (present ckpt_dir s -> made_dirs (actions x) = []).
Proof.
  intros x. subst x.
  assert (H : dir_once ckpt_dir s (actions (train_ s)) (store (train_ s))).
  { refine (respects_train (dir_once ckpt_dir)
              self model_name batch_size ckpt_dir test_result_dir learning_rate
              lr_step_size weight_decay train_iter val_iter val_step test_iter
              cuda pretrain_model _ _ _ s).
    - intros e s' _ He. unfold dir_once.
      assert (made_dirs [e] = []) as ->
          by (destruct e; discriminate || reflexivity).
      auto.
    - intros sd s'. unfold dir_once, torch_save, store, actions, present. cbn.
      split; [|now left].
      intros [Hd|Hf]; (split; [|reflexivity]); [now left|right].
      rewrite lookup_insert_is_Some. destruct (decide (path = ckpt_dir)); auto.
    - intros s'. rewrite ensure_dir_run. unfold dir_once, store, actions.
      destruct (bool_decide_reflect (present ckpt_dir s')) as [Hp|Hp];
        cbn [fst snd].
      + rewrite made_dirs_nil. auto.
      + split; [intros; contradiction|]. right. split; [reflexivity|].
        left. cbn [dirs set_dirs]. apply elem_of_union. left.
        now apply elem_of_singleton. }
  destruct H as [Ha Hb]. split.
  - destruct Hb as [Hb|[Hb _]]; auto.
  - intros Hp. now destruct (Ha Hp).
Qed.

End TrainFootprint.

(** * Which validation the checkpoint is from *)

Lemma trace_no_save_bound p b m :
  trace p b m -> writes m = [] ->
  forall a, In a (validation_accs m) -> (a <= b)%Q.
Proof.
  induction 1 as [b|b n m H IH|b|b a0 m Hlt H IH|b a0 m Hle H IH|b q tail Ht];
    intros Hw a Hin.
  - destruct Hin.
  - apply IH; [exact Hw | exact Hin].
  - destruct Hin.
  - discriminate Hw.
  - cbn in Hin. destruct Hin as [<-|Hin]; [exact Hle|].
    apply IH; [exact Hw | exact Hin].
  - destruct Ht as [->|[t ->]]; destruct Hin.
Qed.

Lemma trace_last_save p b m :
  trace p b m ->
  forall pre a post,
    m = pre ++ MEval None :: MAcc a :: MSave p :: post ->
    writes post = [] ->
    forall a', In a' (validation_accs post) -> (a' <= a)%Q.
Proof.
  induction 1 as [b|b n m H IH|b|b a0 m Hlt H IH|b a0 m Hle H IH|b q tail Ht];
    intros pre a post E Hw.
  - destruct pre; discriminate.
  - destruct pre as [|x pre]; [discriminate|].
    injection E as <- E. exact (IH _ _ _ E Hw).
  - destruct pre as [|? [|? ?]]; discriminate.
  - destruct pre as [|x pre].
    + injection E as <- <-. now apply (trace_no_save_bound p a0 m).
    + destruct pre as [|y pre]; [discriminate|].
      destruct pre as [|z pre]; [discriminate|].
      injection E as <- <- <- E. exact (IH _ _ _ E Hw).
  - destruct pre as [|x pre].
    + injection E as <- E. subst m. now apply trace_no_save_first in H.
    + destruct pre as [|y pre]; [discriminate|].
      injection E as <- <- E. exact (IH _ _ _ E Hw).
  - destruct pre as [|x pre]; [discriminate|].
    injection E as <- E.
    destruct Ht as [->|[t ->]].
    + destruct pre; discriminate.
    + destruct pre as [|? [|? ?]]; discriminate.
Qed.

Section BestCheckpoint.
Context `{C : Collaborators}.
Variable self : Framework.
Variables (model_name : string) (batch_size : Z)
  (ckpt_dir test_result_dir : string)
  (learning_rate : Q) (lr_step_size : Z) (weight_decay : Q) (cuda : bool).

(** X15. In every run of [train], the last checkpoint write follows the
    first validation that reached the greatest accuracy of the run: the
    accuracy before that write exceeds every earlier validation accuracy
    and is not exceeded by a later one. *)
Theorem last_checkpoint_is_of_best_validation
    (pretrain_model : option string)
    (train_iter val_iter val_step test_iter : Z) (s : St)
    (pre : list mark) (acc : Q) (post : list mark) :
  marks (actions (train self model_name batch_size ckpt_dir test_result_dir
                    learning_rate lr_step_size weight_decay train_iter
                    val_iter val_step test_iter cuda pretrain_model s))
    = pre ++ MEval None :: MAcc acc
        :: MSave (os_path_join ckpt_dir (model_name +:+ ".pth.tar")) :: post ->
  writes post = [] ->
  (0 < acc)%Q /\
  (forall a, In (MAcc a) pre -> (a < acc)%Q) /\
  (forall a, In a (validation_accs post) -> (a <= acc)%Q).
Proof.
  destruct (train_any self model_name batch_size ckpt_dir test_result_dir
              learning_rate lr_step_size weight_decay train_iter val_iter
              val_step test_iter cuda pretrain_model s)
    as (s' & log & r & -> & Htrace & _).
  unfold actions; cbn [fst snd]. intros E Hw.
  destruct (trace_decompose _ _ _ Htrace _ _ _ E) as [Hsaved _].
  destruct Hsaved as [Hpos Hpre]; [eauto|].
  split; [exact Hpos|]. split; [exact Hpre|].
  exact (trace_last_save _ _ _ Htrace _ _ _ E Hw).
Qed.

End BestCheckpoint.

(** * The test evaluation and the validation schedule *)

Lemma loop_marks_head p vs b its m b' :
  loop_marks p vs b its m b' -> m = [] \/ exists k m', m = MStep k :: m'.
Proof. destruct 1; eauto. Qed.

Lemma validated_steps_tail (q : string) (tail : list mark) :
  tail = [] \/ (exists t, tail = [MAcc t]) ->
  validated_steps (MEval (Some q) :: tail) = [].
Proof. intros [->|[t ->]]; reflexivity. Qed.

Lemma validated_steps_skip (k : Z) (m : list mark) :
  (forall m', m <> MEval None :: m') ->
  validated_steps (MStep k :: m) = validated_steps m.
Proof.
  intros H. destruct m as [|[| [c|] | |] m']; try reflexivity.
  now destruct (H m').
Qed.

Lemma loop_marks_validated p vs b its m b' :
  loop_marks p vs b its m b' ->
  forall q tail,
    tail = [] \/ (exists t, tail = [MAcc t]) ->
    validated_steps (m ++ MEval (Some q) :: tail)
    = List.filter (fun k => k mod vs =? 0) (map (fun it => it + 1) its).
Proof.
  induction 1 as [b|b it its m b' Hv H IH|b it its a m b' Hv Hle H IH
                 |b it its a m b' Hv Hlt H IH]; intros q tail Ht.
  - now apply validated_steps_tail.
  - cbn [map List.filter app].
    destruct (Z.eqb_spec ((it + 1) mod vs) 0) as [E|_]; [contradiction|].
    rewrite validated_steps_skip; [now apply IH|].
    intros m' E.
    destruct (loop_marks_head _ _ _ _ _ _ H) as [->|(k & m0 & ->)];
      discriminate E.
  - cbn [map List.filter app validated_steps].
    rewrite Hv. cbn [Z.eqb]. f_equal. now apply IH.
  - cbn [map List.filter app validated_steps].
    rewrite Hv. cbn [Z.eqb]. f_equal. now apply IH.
Qed.

Lemma div_succ (x vs : Z) :
  0 < vs ->
  (x + 1) / vs = x / vs + (if (x + 1) mod vs =? 0 then 1 else 0).
Proof.
  intros Hvs. destruct (Z.eqb_spec ((x + 1) mod vs) 0) as [E|E];
    Z.to_euclidean_division_equations; nia.
Qed.

Lemma multiples_in_range (vs a : Z) (n : nat) :
  0 < vs ->
  length (List.filter (fun k => k mod vs =? 0)
            (map (fun it => it + 1) (range a (a + Z.of_nat n))))
  = Z.to_nat ((a + Z.of_nat n) / vs - a / vs).
Proof.
  intros Hvs. induction n as [|n IH].
  - rewrite range_nil by lia. cbn [map List.filter length].
    replace (a + Z.of_nat 0) with a by lia. now rewrite Z.sub_diag.
  - rewrite (range_app a (a + Z.of_nat n)) by lia.
    rewrite (range_cons (a + Z.of_nat n)) by lia.
    rewrite (range_nil (a + Z.of_nat n + 1)) by lia.
    rewrite map_app, List.filter_app, length_app, IH.
    replace (a + Z.of_nat (S n)) with (a + Z.of_nat n + 1) by lia.
    rewrite (div_succ (a + Z.of_nat n) vs Hvs).
    assert (Hmono : a / vs <= (a + Z.of_nat n) / vs)
      by (apply Z.div_le_mono; lia).
    cbn [map List.filter].
    destruct (Z.eqb_spec ((a + Z.of_nat n + 1) mod vs) 0); cbn [length]; lia.
Qed.

Section Schedule.
Context `{C : Collaborators}.
Variable self : Framework.
Variables (model_name : string) (batch_size : Z)
  (ckpt_dir test_result_dir : string)
  (learning_rate : Q) (lr_step_size : Z) (weight_decay : Q) (cuda : bool).

Abbreviation path := (save_path model_name ckpt_dir).

(** X16. In a run of [train] whose warm start succeeds and whose
    validation is well configured, the steps that a validation follows
    are exactly the displayed steps that are multiples of val_step; for a
    positive val_step there are
    (start + train_iter) / val_step - start / val_step of them. *)
Theorem validations_follow_multiples_of_val_step
    (pretrain_model : option string)
    (train_iter val_iter val_step test_iter : Z)
    (s s1 : St) (l1 : list event) (start : Z) :
  train_resume pretrain_model s = (s1, l1, Ok start) ->
  val_step <> 0 -> 1 <= val_iter ->
  let x := train self model_name batch_size ckpt_dir test_result_dir
             learning_rate lr_step_size weight_decay train_iter val_iter
             val_step test_iter cuda pretrain_model s in
  validated_steps (marks (actions x))
  = List.filter (fun k => k mod val_step =? 0)
      (map (fun it => it + 1) (range start (start + train_iter))) /\
  (0 < val_step -> 0 <= train_iter ->
   length (validated_steps (marks (actions x)))
   = Z.to_nat ((start + train_iter) / val_step - start / val_step)).
Proof.
  intros Hres Hvs Hvi x.
  destruct (train_complete self model_name batch_size ckpt_dir
              test_result_dir learning_rate lr_step_size weight_decay
              train_iter val_iter val_step test_iter cuda _ _ _ _ _
              Hres Hvs Hvi)
    as (s' & log & r & lm & b' & tail & Hrun & Hm & Htail & Hlm & _).
  assert (Hval : validated_steps (marks (actions x))
                 = List.filter (fun k => k mod val_step =? 0)
                     (map (fun it => it + 1) (range start (start + train_iter)))).
  { subst x. rewrite Hrun. unfold actions; cbn [fst snd]. rewrite Hm.
    exact (loop_marks_validated _ _ _ _ _ _ Hlm _ _ Htail). }
  split; [exact Hval|].
  intros Hpos Hn. rewrite Hval.
  rewrite <- (Z2Nat.id train_iter) by exact Hn.
  now apply multiples_in_range.
Qed.

(** X17. In a run of [train] whose warm start succeeds and whose loop
    completes, with test_iter >= 1: when a file that holds a state dict is
    at the checkpoint path before the run and no validation of the run
    returns an accuracy above 0, the run writes nothing, its test
    evaluation loads that earlier file and the run returns: the test
    accuracy it prints is that of parameters the run did not produce. *)
Theorem test_evaluation_of_an_earlier_checkpoint
    (pretrain_model : option string)
    (train_iter val_iter val_step test_iter : Z)
    (s s1 : St) (l1 : list event) (start : Z)
    (ck : gmap string value) (sd : Params) :
  train_resume pretrain_model s = (s1, l1, Ok start) ->
  loop_completes start train_iter val_iter val_step -> 1 <= test_iter ->
  let path := os_path_join ckpt_dir (model_name +:+ ".pth.tar") in
  let x := train self model_name batch_size ckpt_dir test_result_dir
             learning_rate lr_step_size weight_decay train_iter val_iter
             val_step test_iter cuda pretrain_model s in
  files s !! path = Some ck ->
  ck !! "state_dict" = Some (VState sd) ->
  (forall a, In a (validation_accs (marks (actions x))) -> ~ (0 < a)%Q) ->
  outcome x = Ok tt /\
  files (store x) = files s /\
  writes (marks (actions x)) = [] /\
  (exists t, test_reports (actions x) = [t]) /\
  (exists before rest,
     actions x
     = before ++ EvalCall (Some path) test_iter :: Println EmptyString
         :: TorchLoad path
         :: Println ("Successfully loaded checkpoint '" +:+ path +:+ "'")
         :: rest).
Proof.
  intros Hres Hdone Hti p x Hfile Hsd Hacc. subst p.
  destruct (resume_quiet _ _ _ _ _ Hres) as (Hf1 & Hm1 & _ & Htr1).
  destruct (loop_runs self model_name batch_size ckpt_dir train_iter val_iter
              val_step start
              (train_locals (make_optimizer (model s) learning_rate
                               weight_decay lr_step_size))
              (on_device cuda s1) Hdone)
    as (s2 & l2 & lc & Hloop & Hlm & _ & Htr2 & Hfiles); [cbn; lra|].
  pose proof (train_loop_returns self model_name batch_size ckpt_dir
                test_result_dir learning_rate lr_step_size weight_decay
                train_iter val_iter val_step test_iter cuda _ _ _ _ _ _ _ _
                Hres Hloop) as Hrun.
  destruct (test_phase self model_name ckpt_dir test_iter s2)
    as (s3 & l3 & r3 & tail & Hfin & Hm3 & Htail & _ & _).
  assert (Hmarks : marks (actions x)
                   = marks l2 ++ MEval (Some path) :: tail).
  { subst x. rewrite Hrun, Hfin, after_triple. unfold actions; cbn [fst snd].
    observe. rewrite Hm1, Hm3. reflexivity. }
  assert (Hw : writes (marks l2) = []).
  { apply (loop_marks_no_improvement _ _ _ _ _ _ Hlm).
    intros a Ha. apply Qnot_lt_le, Hacc. rewrite Hmarks.
    now apply (loop_marks_validation_accs _ _ _ _ _ _ Hlm). }
  assert (Hf2 : files s2 !! path = Some ck).
  { rewrite (Hfiles Hw), on_device_files, Hf1. exact Hfile. }
  destruct (eval_iterations self 10 10 2 test_iter (Some path) s2 _ _ _
              (select_loaded self path ck sd s2 Hf2 Hsd) Hti)
    as (s4 & l4 & acc & Heval & _ & Hep & Hf4 & _).
  destruct Hep as (_ & _ & Hm4 & _ & _ & Htr4).
  assert (Hfin' : train_finish self model_name ckpt_dir test_iter s2
                  = (s4,
                     [Println (newline +:+ "####################" +:+ newline);
                      Println ("Finish training " +:+ model_name)]
                     ++ (EvalCall (Some path) test_iter :: Println EmptyString
                           :: [TorchLoad path; loaded_line path] ++ l4
                           ++ [Println EmptyString; EvalReturn acc])
                     ++ [PrintTestAccuracy acc], Ok tt)).
  { unfold train_finish. autorewrite with run. fold path.
    rewrite (bind_ok _ _ _ _ _ _ Heval). autorewrite with run.
    cbn [app]. now rewrite <- ?app_assoc. }
  subst x. rewrite Hrun, Hfin', after_triple.
  unfold outcome, actions, store; cbn [fst snd].
  split; [reflexivity|]. split.
  { rewrite Hf4. cbn [files set_model]. rewrite (Hfiles Hw), on_device_files.
    exact Hf1. }
  split.
  { unfold loaded_line. observe. rewrite Hm1, Hm4. cbn [app]. observe.
    rewrite Hw. reflexivity. }
  split.
  { exists acc. unfold loaded_line. observe. rewrite Htr1, Htr2, Htr4.
    reflexivity. }
  eexists (Println "Start training..." :: l1 ++ l2 ++ [_; _]), _.
  cbn [app]. rewrite <- !app_assoc. cbn [app]. reflexivity.
Qed.

End Schedule.

(** * The progress lines *)

Lemma Qsum_app (l k : list Q) : (Qsum (l ++ k) == Qsum l + Qsum k)%Q.
Proof.
  induction l as [|x l IH]; cbn [app].
  - unfold Qsum at 2. cbn. lra.
  - rewrite !Qsum_cons, IH. lra.
Qed.

Lemma Qsum_one (x : Q) : (Qsum [x] == x)%Q.
Proof. unfold Qsum. cbn. lra. Qed.

Section EvalProgress.
Context `{C : Collaborators}.
Variable self : Framework.

Lemma select_shows_nothing ckpt s s1 l1 r :
  eval_dataset_of self ckpt s = (s1, l1, r) ->
  eval_progress l1 = [] /\ accuracies l1 = [].
Proof.
  destruct ckpt as [path|]; [|intros [= <- <- <-]; cbn; auto].
  destruct (files s !! path) as [ck|] eqn:H.
  - unfold eval_dataset_of.
    rewrite (bind_ok _ _ _ _ _ _ (load_found path ck s H)).
    unfold getitem, model_load_state_dict.
    destruct (ck !! "state_dict") as [[sd|i]|]; autorewrite with run;
      intros [= <- <- <-]; cbn; auto.
  - rewrite (select_missing self path s H). intros [= <- <- <-]. cbn; auto.
Qed.

(** The progress lines of the loop of [eval], from any accumulators. *)
Lemma eval_loop_progress ds ss qs qc its : forall ir isamp s,
  (0 <= isamp)%Q ->
  let x := for_ its (eval_body self ds ss qs qc) (ir, isamp) s in
  length (eval_progress (actions x)) = length its /\
  length (accuracies (actions x)) = length its /\
  forall k it, its !! k = Some it ->
    exists a,
      eval_progress (actions x) !! k = Some (it + 1, a) /\
      (a == 100 * (ir + Qsum (take (S k) (accuracies (actions x))))
            / (isamp + inject_Z (Z.of_nat (S k))))%Q.
Proof.
  induction its as [|it its IH]; intros ir isamp s Hs x; subst x.
  - cbn. repeat split; auto. intros k it H. destruct k; discriminate H.
  - pose proof (eval_body_run self ds ss qs qc it ir isamp s Hs) as Hb.
    cbn zeta in Hb.
    set (m := forward_new _ (model s)) in Hb.
    set (s1 := set_model m _) in Hb.
    specialize (IH (ir + _accuracy m)%Q (isamp + 1)%Q s1).
    destruct IH as (Hl1 & Hl2 & Hk); [lra|].
    cbn [for_]. rewrite (bind_ok _ _ _ _ _ _ Hb).
    rewrite actions_after. observe_all. cbn [app length].
    split; [now rewrite Hl1|]. split; [now rewrite Hl2|].
    intros [|k] it' Hit; cbn in Hit.
    + injection Hit as <-. eexists. split; [reflexivity|].
      cbn [take]. rewrite Qsum_one. change (inject_Z (Z.of_nat 1)) with 1%Q.
      reflexivity.
    + destruct (Hk k it' Hit) as (a & Ha & Heq).
      exists a. split; [exact Ha|].
      rewrite Heq. cbn [take]. rewrite Qsum_cons, (inject_nat_S (S k)).
      apply Qdiv_comp; ring.
Qed.

(** X18. The k-th progress line of [eval] shows the step k and, in
    percent, the mean of the accuracies of the first k episodes; a call
    that returns has shown eval_iter lines. *)
Theorem eval_progress_shows_running_mean
    (support_size query_size query_class eval_iter : Z)
    (ckpt : option string) (s : St) :
  let x := eval self support_size query_size query_class eval_iter ckpt s in
  (forall k step a,
     eval_progress (actions x) !! k = Some (step, a) ->
     step = Z.of_nat k + 1 /\
     (a == 100 * mean (take (S k) (accuracies (actions x))))%Q) /\
  (forall acc,
     outcome x = Ok acc ->
     length (eval_progress (actions x)) = Z.to_nat eval_iter).
Proof.
  intros x. subst x.
  destruct (eval_dataset_of self ckpt s) as [[s1 l1] [ds|e]] eqn:Hsel;
    destruct (select_shows_nothing ckpt s _ _ _ Hsel) as [Hp1 Ha1].
  - pose proof (eval_loop_progress ds support_size query_size query_class
                  (range 0 eval_iter) 0%Q 0%Q s1) as Hloop.
    destruct (eval_loop_run self ds support_size query_size query_class
                (range 0 eval_iter) 0%Q 0%Q s1)
      as (s' & log & ir' & isamp' & Hrun & _ & His & _); [lra|].
    cbn zeta in Hloop. rewrite Hrun in Hloop.
    unfold actions in Hloop; cbn [fst snd] in Hloop.
    destruct Hloop as (Hl1 & Hl2 & Hk); [lra|].
    assert (Hlog : exists tail,
               actions (eval self support_size query_size query_class
                          eval_iter ckpt s)
               = EvalCall ckpt eval_iter :: Println EmptyString
                   :: l1 ++ log ++ Println EmptyString :: tail /\
               eval_progress tail = [] /\ accuracies tail = []).
    { unfold eval. autorewrite with run.
      rewrite (bind_ok _ _ _ _ _ _ Hsel), (bind_ok _ _ _ _ _ _ Hrun).
      autorewrite with run. cbn [fst snd].
      destruct (py_div ir' isamp') as [acc|e]; autorewrite with run;
        unfold actions; cbn [fst snd]; rewrite <- ?app_assoc;
        eexists; (split; [reflexivity|]); auto. }
    destruct Hlog as (tail & Hlog & Hpt & Hat).
    rewrite Hlog. observe_all. rewrite Hp1, Ha1, Hpt, Hat. cbn [app].
    rewrite !app_nil_r. split.
    + intros k step a Hlook.
      assert (Hlt : (k < length (range 0 eval_iter))%nat).
      { rewrite <- Hl1. now apply lookup_lt_Some in Hlook. }
      destruct (lookup_lt_is_Some_2 (range 0 eval_iter) k Hlt) as [it Hit].
      destruct (Hk k it Hit) as (a' & Ha' & Heq).
      rewrite Hlook in Ha'. injection Ha' as -> ->.
      unfold range in Hit. apply lookup_seqZ in Hit as [-> _].
      split; [lia|].
      rewrite Heq. unfold mean. rewrite length_take, Hl2.
      replace (S k `min` length (range 0 eval_iter))%nat with (S k) by lia.
      unfold Qdiv. rewrite !Qplus_0_l. ring.
    + intros acc _. rewrite Hl1. apply range_length.
  - rewrite (eval_raise_select self _ _ _ _ _ _ _ _ _ Hsel).
    unfold outcome, actions; cbn [fst snd]. observe_all. rewrite Hp1.
    split; [|discriminate].
    intros k step a H. destruct k; discriminate H.
Qed.

End EvalProgress.

Section TrainDisplay.
Context `{C : Collaborators}.
Variable self : Framework.
Variables (model_name ckpt_dir : string) (batch_size val_iter val_step : Z).

Abbreviation body :=
  (train_body self model_name batch_size ckpt_dir val_iter val_step).

Lemma eval_shows_no_loss ss qs qc n ckpt s :
  losses (actions (eval self ss qs qc n ckpt s)) = [] /\
  shown_losses (actions (eval self ss qs qc n ckpt s)) = [].
Proof.
  pose proof (eval_actions self ss qs qc n ckpt s) as H.
  split; apply (quiet_log _ _ _) with (2 := H);
    intros e He; destruct e; try reflexivity; destruct He.
Qed.

Lemma checkpoint_shows_no_loss acc lc s :
  exists s' log lc',
    train_checkpoint model_name ckpt_dir acc lc s = (s', log, Ok lc') /\
    losses log = [] /\ shown_losses log = [] /\
    iter_loss lc' = iter_loss lc /\ iter_sample lc' = iter_sample lc.
Proof.
  unfold train_checkpoint.
  destruct (py_gt acc (best_acc lc)).
  - unfold os_path_exists, os_makedirs, torch_save. autorewrite with run.
    destruct (bool_decide _); autorewrite with run;
      do 3 eexists; (split; [reflexivity|]); observe_all; cbn; auto.
  - exists s, [], lc. auto.
Qed.

(** One iteration that completes: the loss it reads, the loss it shows
    and the accumulators it leaves. *)
Lemma train_body_display it lc s :
  val_step <> 0 -> 1 <= val_iter -> (0 <= iter_sample lc)%Q ->
  exists s' log lc' l,
    body it lc s = (s', log, Ok lc') /\
    losses log = [l] /\
    shown_losses log
      = [(it + 1, ((iter_loss lc + l) / (iter_sample lc + 1))%Q)] /\
    iter_loss lc' = (if it mod val_step =? 0 then 0 else iter_loss lc + l)%Q /\
    iter_sample lc' = sample_after val_step it (iter_sample lc).
Proof.
  intros Hz Hvi Hs.
  unfold train_body, model_forward_base, model_loss, model_accuracy, item.
  autorewrite with run.
  rewrite !(py_div_ok _ (iter_sample lc + 1)) by lra.
  autorewrite with run.
  cbn [set_model set_heap model heap].
  set (b := fst (next_batch _ _ _)).
  set (h := snd (next_batch _ _ _)).
  set (o := fst (optimizer_step _ _)).
  set (m2 := snd (optimizer_step _ _)).
  rewrite !py_mod_ok by assumption. autorewrite with run.
  set (lc1 := if it mod val_step =? 0 then _ else _).
  assert (Hl1 : iter_loss lc1
                = (if it mod val_step =? 0 then 0
                   else iter_loss lc + _loss (forward_base b (model s)))%Q)
    by (subst lc1; now destruct (it mod val_step =? 0)).
  assert (Hs1 : iter_sample lc1 = sample_after val_step it (iter_sample lc))
    by (subst lc1; unfold sample_after; now destruct (it mod val_step =? 0)).
  clearbody lc1.
  destruct (Z.eqb_spec ((it + 1) mod val_step) 0) as [Hv|Hv]; cbn iota.
  - match goal with
    |- context [bind (eval self 10 10 2 val_iter None) _ ?s0] =>
      destruct (eval_iterations self 10 10 2 val_iter None s0 _ _ _
                  (select_none self s0)) as
        (s1 & log & acc & Hrun & _ & _ & _ & _); [lia|];
      destruct (eval_shows_no_loss 10 10 2 val_iter None s0) as [He1 He2]
    end.
    rewrite Hrun in He1, He2. unfold actions in He1, He2; cbn [fst snd] in *.
    autorewrite with obs in He1, He2.
    cbn beta iota delta [from_option loss_of shown_loss_of app] in He1, He2.
    rewrite app_nil_r in He1, He2.
    rewrite (bind_ok _ _ _ _ _ _ Hrun). autorewrite with run.
    match goal with |- context [train_checkpoint _ _ acc lc1 ?s0] =>
      destruct (checkpoint_shows_no_loss acc lc1 s0) as
        (s2 & log2 & lc2 & Hck & Hc1 & Hc2 & Hc3 & Hc4)
    end.
    rewrite Hck. autorewrite with run.
    do 4 eexists. split; [reflexivity|].
    observe_all. cbn [app]. rewrite ?app_nil_r.
    rewrite He1, He2, Hc1, Hc2. cbn [app].
    repeat split; congruence.
  - do 4 eexists. split; [reflexivity|]. observe_all. cbn [app].
    repeat split; assumption.
Qed.


Lemma window_size_pos k : (1 <= window_size val_step k <= S k)%nat.
Proof.
  destruct k as [|j]; cbn [window_size]; [lia|].
  destruct (Z_lt_le_dec 0 val_step) as [Hvs|Hvs].
  - pose proof (Z.mod_pos_bound (Z.of_nat j) val_step Hvs).
    pose proof (Z.mod_le (Z.of_nat j) val_step). lia.
  - destruct (Z.eq_dec val_step 0) as [->|Hne].
    + rewrite Z.mod_0_r. lia.
    + pose proof (Z.mod_neg_bound (Z.of_nat j) val_step). lia.
Qed.

Lemma window_size_reset n :
  Z.of_nat n mod val_step = 0 -> window_size val_step (S n) = 1%nat.
Proof. intros H. cbn [window_size]. now rewrite H. Qed.

Lemma window_size_grow n :
  0 < val_step -> Z.of_nat n mod val_step <> 0 ->
  window_size val_step (S n) = S (window_size val_step n).
Proof.
  intros Hvs H. destruct n as [|j]; [now rewrite Z.mod_0_l in H by lia|].
  cbn [window_size]. f_equal.
  pose proof (mod_pred (Z.of_nat (S j)) val_step Hvs H) as Hp.
  replace (Z.of_nat (S j) - 1) with (Z.of_nat j) in Hp by lia.
  pose proof (Z.mod_pos_bound (Z.of_nat j) val_step Hvs). lia.
Qed.

(** The run of the first [n] iterations from iteration 0. *)
Lemma loop_display (n : nat) opt s :
  1 <= val_step -> 1 <= val_iter ->
  exists s' log lc,
    for_ (range 0 (Z.of_nat n)) body (train_locals opt) s = (s', log, Ok lc) /\
    length (losses log) = n /\ length (shown_losses log) = n /\
    (iter_sample lc == inject_Z (Z.of_nat (window_size val_step n)) - 1)%Q /\
    (iter_loss lc == Qsum (drop (S n - window_size val_step n) (losses log)))%Q /\
    forall k step d,
      shown_losses log !! k = Some (step, d) ->
      step = Z.of_nat k + 1 /\
      (d == mean (drop (S k - window_size val_step k)
                    (take (S k) (losses log))))%Q.
Proof.
  intros Hvs Hvi. induction n as [|n IH].
  - exists s, [], (train_locals opt).
    do 5 (split; [reflexivity|]).
    intros k step d H. destruct k; discriminate H.
  - destruct IH as (s1 & log & lc & Hrun & Hl & Hd & Hsamp & Hloss & Hshown).
    pose proof (window_size_pos n) as Hw.
    assert (Hs : (0 <= iter_sample lc)%Q).
    { assert (1 <= inject_Z (Z.of_nat (window_size val_step n)))%Q
        by (change 1%Q with (inject_Z 1); rewrite <- Zle_Qle; lia).
      rewrite Hsamp. lra. }
    destruct (train_body_display (Z.of_nat n) lc s1) as
      (s2 & logb & lc' & l & Hb & Hbl & Hbd & Hbloss & Hbsamp); [lia|lia|exact Hs|].
    rewrite Nat2Z.inj_succ. unfold Z.succ. rewrite range_snoc by lia.
    rewrite for_app, (bind_ok _ _ _ _ _ _ Hrun). cbn [for_].
    rewrite (bind_ok _ _ _ _ _ _ Hb).
    autorewrite with run.
    do 3 eexists. split; [reflexivity|].
    rewrite app_nil_r, losses_app, shown_losses_app, Hbl, Hbd, !length_app, Hl, Hd.
    cbn [length].
    assert (Hdrop : drop (S n - window_size val_step n) (losses log ++ [l])
                    = drop (S n - window_size val_step n) (losses log) ++ [l])
      by (apply drop_app_le; lia).
    split; [lia|]. split; [lia|]. split; [|split].
    + rewrite Hbsamp. unfold sample_after.
      destruct (Z.eqb_spec (Z.of_nat n mod val_step) 0) as [E|E].
      * rewrite (window_size_reset n E). reflexivity.
      * rewrite (window_size_grow n) by lia. rewrite Hsamp, inject_nat_S. ring.
    + rewrite Hbloss.
      destruct (Z.eqb_spec (Z.of_nat n mod val_step) 0) as [E|E].
      * rewrite (window_size_reset n E). rewrite drop_ge; [reflexivity|].
        rewrite length_app, Hl. cbn [length]. lia.
      * rewrite (window_size_grow n) by lia.
        replace (S (S n) - S (window_size val_step n))%nat
          with (S n - window_size val_step n)%nat by lia.
        rewrite Hdrop, Qsum_app, Qsum_one, Hloss. reflexivity.
    + intros k step d Hk.
      destruct (lt_dec k n) as [Hlt|Hge].
      * rewrite lookup_app_l in Hk by lia.
        rewrite take_app_le by lia. now apply Hshown.
      * rewrite lookup_app_r in Hk by lia. rewrite Hd in Hk.
        destruct (k - n)%nat as [|j] eqn:Ekn; [|destruct j; discriminate Hk].
        assert (k = n) as -> by lia.
        injection Hk as <- <-. split; [reflexivity|].
        rewrite take_ge by (rewrite length_app, Hl; cbn [length]; lia).
        rewrite Hdrop. unfold mean.
        rewrite Qsum_app, Qsum_one, length_app, length_drop, Hl. cbn [length].
        replace (n - (S n - window_size val_step n) + 1)%nat
          with (window_size val_step n) by lia.
        rewrite Hloss, Hsamp. apply Qdiv_comp; ring.
Qed.

End TrainDisplay.

Section TrainDisplayRun.
Context `{C : Collaborators}.
Variable self : Framework.
Variables (model_name : string) (batch_size : Z)
  (ckpt_dir test_result_dir : string)
  (learning_rate : Q) (lr_step_size : Z) (weight_decay : Q) (cuda : bool).

Lemma finish_shows_no_loss test_iter s :
  losses (actions (train_finish self model_name ckpt_dir test_iter s)) = [] /\
  shown_losses (actions (train_finish self model_name ckpt_dir test_iter s)) = [].
Proof.
  unfold train_finish. autorewrite with run.
  match goal with
  |- context [bind (eval self 10 10 2 test_iter ?c) _ s] =>
    destruct (eval_shows_no_loss self 10 10 2 test_iter c s) as [He1 He2];
    destruct (eval self 10 10 2 test_iter c s) as [[s3 l3] [acc|e]] eqn:Hrun
  end; unfold actions in He1, He2; cbn [fst snd] in He1, He2.
  - rewrite (bind_ok _ _ _ _ _ _ Hrun). autorewrite with run.
    unfold actions; cbn [fst snd]. observe_all. rewrite He1, He2. auto.
  - rewrite (bind_raise _ _ _ _ _ _ Hrun). autorewrite with run.
    unfold actions; cbn [fst snd]. observe_all. rewrite He1, He2. auto.
Qed.

(** X19. In a run of [train] from iteration 0 with val_step >= 1 and
    val_iter >= 1, the loss shown at step k + 1 is the mean of the losses
    of the last [window_size val_step k] iterations: iteration 0 alone at
    step 1, and from then on the iterations after the last multiple of
    val_step below k, so that the step after a validation still averages
    the iterations before it. *)
Theorem displayed_loss_is_a_window_mean
    (train_iter val_iter val_step test_iter : Z) (s : St) :
  1 <= val_step -> 1 <= val_iter ->
  let x := train self model_name batch_size ckpt_dir test_result_dir
             learning_rate lr_step_size weight_decay train_iter val_iter
             val_step test_iter cuda None s in
  length (losses (actions x)) = Z.to_nat train_iter /\
  length (shown_losses (actions x)) = Z.to_nat train_iter /\
  forall k step d,
    shown_losses (actions x) !! k = Some (step, d) ->
    step = Z.of_nat k + 1 /\
    (d == mean (drop (S k - window_size val_step k)
                  (take (S k) (losses (actions x)))))%Q.
Proof.
  intros Hvs Hvi x. subst x.
  destruct (loop_display self model_name ckpt_dir batch_size val_iter val_step
              (Z.to_nat train_iter)
              (make_optimizer (model s) learning_rate weight_decay lr_step_size)
              (on_device cuda s) Hvs Hvi)
    as (s2 & l2 & lc & Hloop & Hl & Hd & _ & _ & Hshown).
  assert (Hrange : range 0 (0 + train_iter)
                   = range 0 (Z.of_nat (Z.to_nat train_iter))).
  { destruct (Z_le_gt_dec 0 train_iter) as [H|H].
    - now rewrite Z2Nat.id by exact H.
    - rewrite !range_nil by lia. reflexivity. }
  rewrite <- Hrange in Hloop.
  rewrite (train_loop_returns self model_name batch_size ckpt_dir
             test_result_dir learning_rate lr_step_size weight_decay
             train_iter val_iter val_step test_iter cuda None s s [] 0
             s2 l2 lc (resume_none s) Hloop).
  destruct (finish_shows_no_loss test_iter s2) as [Hf1 Hf2].
  rewrite actions_after. cbn [app]. observe_all.
  rewrite Hf1, Hf2, !app_nil_r.
  split; [exact Hl|]. split; [exact Hd|]. exact Hshown.
Qed.

End TrainDisplayRun.

(** * The version test of [Framework.item] *)

Lemma split_on_no_dot (s : string) :
  no_dot s = true -> split_on "." s = [s].
Proof.
  induction s as [|c r IH]; [reflexivity|]. cbn [no_dot split_on].
  destruct (Ascii.eqb c "."); [discriminate|]. cbn [negb andb].
  intros H. now rewrite (IH H).
Qed.

Lemma split_on_dot (a b : string) :
  no_dot a = true -> split_on "." (a +:+ "." +:+ b) = a :: split_on "." b.
Proof.
  induction a as [|c r IH]; [reflexivity|]. cbn [no_dot].
  destruct (Ascii.eqb c ".") eqn:E; [discriminate|]. cbn [negb andb].
  intros H.
  change (split_on "." (String c (r +:+ "." +:+ b))
          = String c r :: split_on "." b).
  cbn [split_on]. rewrite E. now rewrite (IH H).
Qed.

Lemma append_empty_r (s : string) : s +:+ EmptyString = s.
Proof.
  induction s as [|c r IH]; [reflexivity|].
  change (String c (r +:+ EmptyString) = String c r). now rewrite IH.
Qed.

(** X20. The test of [item] reads the second dot-separated component of
    the version and nothing else: a version without a dot raises
    IndexError; otherwise the branch [x[0]] is taken exactly when that
    component, read by [int], is below 4, whatever the first component,
    and ValueError is raised when it is no integer.  So 1.3 takes the
    branch of 0.3. *)
Theorem item_branch_ignores_major_version :
  (forall version,
     no_dot version = true -> item_uses_index version = inl IndexError) /\
  (forall major minor tail,
     no_dot major = true -> no_dot minor = true ->
     tail = EmptyString \/ (exists rest, tail = "." +:+ rest) ->
     item_uses_index (major +:+ "." +:+ minor +:+ tail)
     = match python_int minor with
       | Some n => inr (n <? 4)
       | None => inl (ValueError minor)
       end).
Proof.
  split.
  - intros version H. unfold item_uses_index.
    now rewrite (split_on_no_dot version H).
  - intros major minor tail Hmajor Hminor Htail. unfold item_uses_index.
    rewrite (split_on_dot major _ Hmajor).
    destruct Htail as [->|[rest ->]].
    + rewrite append_empty_r. now rewrite (split_on_no_dot minor Hminor).
    + now rewrite (split_on_dot minor rest Hminor).
Qed.

(** [item_branch_ignores_major_version] on 0.3.1, 1.3.0, 0.4.1 and
    1.13.0. *)
Lemma item_branch_ignores_major_version_witness :
  item_uses_index "0.3.1" = inr true /\
  item_uses_index "1.3.0" = inr true /\
  item_uses_index "0.4.1" = inr false /\
  item_uses_index "1.13.0+cu117" = inr false /\
  item_uses_index "nightly" = inl IndexError.
Proof.
  destruct item_branch_ignores_major_version as [Hno Hdot].
  pose proof (Hdot "0" "3" ".1" eq_refl eq_refl (or_intror (ex_intro _ "1" eq_refl))).
  pose proof (Hdot "1" "3" ".0" eq_refl eq_refl (or_intror (ex_intro _ "0" eq_refl))).
  pose proof (Hdot "0" "4" ".1" eq_refl eq_refl (or_intror (ex_intro _ "1" eq_refl))).
  pose proof (Hdot "1" "13" ".0+cu117" eq_refl eq_refl
                (or_intror (ex_intro _ "0+cu117" eq_refl))).
  pose proof (Hno "nightly" eq_refl).
  auto.
Defined.

(** * A run that writes a checkpoint and tests it *)

Lemma loop_marks_no_write p vs b its m b' :
  loop_marks p vs b its m b' ->
  writes m = [] -> forall a, In (MAcc a) m -> (a <= b)%Q.
Proof.
  induction 1 as [b|b it its m b' Hv H IH|b it its a0 m b' Hv Hle H IH
                 |b it its a0 m b' Hv Hlt H IH]; intros Hw a Hin.
  - destruct Hin.
  - destruct Hin as [E|Hin]; [discriminate|]. now apply IH.
  - destruct Hin as [E|[E|[E|Hin]]]; try discriminate.
    + now injection E as <-.
    + now apply IH.
  - discriminate Hw.
Qed.

Lemma loop_marks_accs_back p vs b its m b' :
  loop_marks p vs b its m b' ->
  forall a q tail,
    tail = [] \/ (exists t, tail = [MAcc t]) ->
    In a (validation_accs (m ++ MEval (Some q) :: tail)) -> In (MAcc a) m.
Proof.
  induction 1 as [b|b it its m b' Hv H IH|b it its a0 m b' Hv Hle H IH
                 |b it its a0 m b' Hv Hlt H IH]; intros a q tail Ht Hin.
  - destruct Ht as [->|[t ->]]; destruct Hin.
  - right. exact (IH _ _ _ Ht Hin).
  - cbn in Hin. destruct Hin as [<-|Hin]; [right; right; now left|].
    do 3 right. exact (IH _ _ _ Ht Hin).
  - cbn in Hin. destruct Hin as [<-|Hin]; [right; right; now left|].
    do 4 right. exact (IH _ _ _ Ht Hin).
Qed.

Section LastSaveFacts.
Context `{C : Collaborators}.

Lemma last_save_app (l k : list event) :
  last_save (l ++ k)
  = match last_save k with Some obj => Some obj | None => last_save l end.
Proof.
  unfold last_save. rewrite omap_app.
  destruct (omap save_of k) as [|x k'] using rev_ind.
  - now rewrite app_nil_r.
  - now rewrite app_assoc, !last_snoc.
Qed.

Lemma saves_writes (log : list event) :
  omap save_of log = [] <-> writes (marks log) = [].
Proof.
  induction log as [|e log IH]; [split; reflexivity|].
  rewrite omap_cons_from. observe.
  destruct e; cbn [from_option save_of mark_of]; observe; try exact IH.
  split; discriminate.
Qed.

Lemma last_save_none (log : list event) :
  writes (marks log) = [] -> last_save log = None.
Proof.
  intros H. apply saves_writes in H. unfold last_save. now rewrite H.
Qed.

Lemma last_save_some (log : list event) :
  writes (marks log) <> [] -> exists obj, last_save log = Some obj.
Proof.
  intros H. unfold last_save. apply last_is_Some.
  intros E. apply H. now apply saves_writes.
Qed.

#[export] Instance saved_last_invariant (path : string) :
  RunInvariant (saved_last path).
Proof.
  assert (Hnil : forall s, saved_last path s [] s) by (intros s; reflexivity).
  split; [exact Hnil | | intros s m; exact (Hnil s) | intros s h; exact (Hnil s)].
  unfold saved_last. intros s l1 s1 l2 s2 H1 H2.
  rewrite last_save_app. destruct (last_save l2) as [obj|]; [exact H2|].
  destruct (last_save l1) as [obj|].
  - now rewrite H2.
  - congruence.
Qed.

End LastSaveFacts.

Section CheckpointFile.
Context `{C : Collaborators}.
Variable self : Framework.
Variables (model_name : string) (batch_size : Z)
  (ckpt_dir test_result_dir : string)
  (learning_rate : Q) (lr_step_size : Z) (weight_decay : Q)
  (train_iter val_iter val_step test_iter : Z) (cuda : bool)
  (pretrain_model : option string).

Abbreviation path := (os_path_join ckpt_dir (model_name +:+ ".pth.tar")).
Abbreviation train_ :=
  (train self model_name batch_size ckpt_dir test_result_dir learning_rate
     lr_step_size weight_decay train_iter val_iter val_step test_iter cuda
     pretrain_model).

(** X13. After a run of [train], whatever its outcome, the file at
    ckpt_dir/model_name.pth.tar holds the object of the last [torch.save]
    of the run, a dict with the one key state_dict, or, when the run wrote
    no checkpoint, what it held before the run: a run that raises leaves
    the checkpoint of its last improvement in place. *)
Theorem checkpoint_file_is_last_save (s : St) :
  match last_save (actions (train_ s)) with
  | Some obj =>
      writes (marks (actions (train_ s))) <> [] /\
      files (store (train_ s)) !! path = Some obj /\
      exists sd, obj = {["state_dict" := VState sd]}
  | None =>
      writes (marks (actions (train_ s))) = [] /\
      files (store (train_ s)) !! path = files s !! path
  end.
Proof.
  assert (H : saved_last path s (actions (train_ s)) (store (train_ s))).
  { refine (respects_train (saved_last path)
              self model_name batch_size ckpt_dir test_result_dir learning_rate
              lr_step_size weight_decay train_iter val_iter val_step test_iter
              cuda pretrain_model _ _ _ s).
    - intros e s' _ He. unfold saved_last.
      assert (last_save [e] = None) as ->
          by (destruct e; reflexivity || discriminate He).
      reflexivity.
    - intros sd s'. unfold saved_last, torch_save, store, actions. cbn.
      split; [apply lookup_insert_eq | now exists sd].
    - intros s'. rewrite ensure_dir_run. unfold saved_last, store, actions.
      destruct (bool_decide _); reflexivity. }
  unfold saved_last in H.
  destruct (last_save (actions (train_ s))) as [obj|] eqn:E.
  - split; [|exact H]. intros Hw. apply last_save_none in Hw. congruence.
  - split; [|exact H]. apply saves_writes.
    unfold last_save in E. now apply last_None in E.
Qed.

End CheckpointFile.

Section WrittenAndTested.
Context `{C : Collaborators}.
Variable self : Framework.
Variables (model_name : string) (batch_size : Z)
  (ckpt_dir test_result_dir : string)
  (learning_rate : Q) (lr_step_size : Z) (weight_decay : Q) (cuda : bool).

Abbreviation path := (save_path model_name ckpt_dir).

(** The checkpoint file after iterations of the training loop. *)
Lemma loop_saved_last val_iter val_step its lc s :
  let x := for_ its
             (train_body self model_name batch_size ckpt_dir val_iter val_step)
             lc s in
  saved_last path s (actions x) (store x).
Proof.
  intros x. subst x. revert lc s.
  refine (respects_for (saved_last path) _ its _).
  intros it lc.
  apply respects_train_body with (test_iter := 0) (pretrain_model := None).
  - apply saved_last_invariant.
  - intros e s _ He. unfold saved_last.
    assert (last_save [e] = None) as ->
        by (destruct e; reflexivity || discriminate He).
    reflexivity.
  - intros sd s. unfold saved_last, torch_save, store, actions. cbn.
    split; [apply lookup_insert_eq | now exists sd].
  - intros s. rewrite ensure_dir_run. unfold saved_last, store, actions.
    destruct (bool_decide _); reflexivity.
Qed.

(** X21. In a run of [train] whose warm start succeeds, whose validation
    is well configured and in which some validation returns an accuracy
    above 0, with test_iter >= 1: the loop writes a checkpoint; the test
    evaluation loads the object the run saved last, a state dict alone,
    draws test_iter episodes from the test loader, and the run prints as
    test accuracy the mean of their accuracies and returns. *)
Theorem written_checkpoint_is_tested
    (pretrain_model : option string)
    (train_iter val_iter val_step test_iter : Z)
    (s s1 : St) (l1 : list event) (start : Z) :
  train_resume pretrain_model s = (s1, l1, Ok start) ->
  val_step <> 0 -> 1 <= val_iter -> 1 <= test_iter ->
  let file := os_path_join ckpt_dir (model_name +:+ ".pth.tar") in
  let x := train self model_name batch_size ckpt_dir test_result_dir
             learning_rate lr_step_size weight_decay train_iter val_iter
             val_step test_iter cuda pretrain_model s in
  (exists a, In a (validation_accs (marks (actions x))) /\ (0 < a)%Q) ->
  outcome x = Ok tt /\
  exists sd t before log,
    last_save (actions x) = Some {["state_dict" := VState sd]} /\
    files (store x) !! file = Some {["state_dict" := VState sd]} /\
    actions x
    = before
      ++ [EvalCall (Some file) test_iter; Println EmptyString;
          TorchLoad file;
          Println ("Successfully loaded checkpoint '" +:+ file +:+ "'")]
      ++ log
      ++ [Println EmptyString; EvalReturn t; PrintTestAccuracy t] /\
    episode_loaders log
    = replicate (Z.to_nat test_iter)
        (test_data_loader self, train_data_loader self) /\
    (t == mean (accuracies log))%Q /\
    test_reports (actions x) = [t].
Proof.
  intros Hres Hvs Hvi Hti file x (a & Ha & Hpos). subst file.
  destruct (resume_quiet _ _ _ _ _ Hres) as (Hf1 & Hm1 & _ & Htr1).
  destruct (loop_complete self model_name ckpt_dir batch_size val_iter val_step
              (range start (start + train_iter))
              (train_locals (make_optimizer (model s) learning_rate
                               weight_decay lr_step_size))
              (on_device cuda s1) Hvs Hvi)
    as (s2 & l2 & lc & Hloop & Hlm & _ & Htr2 & _ & _); [cbn; lra|].
  pose proof (train_loop_returns self model_name batch_size ckpt_dir
                test_result_dir learning_rate lr_step_size weight_decay
                train_iter val_iter val_step test_iter cuda _ _ _ _ _ _ _ _
                Hres Hloop) as Hrun.
  destruct (test_phase self model_name ckpt_dir test_iter s2)
    as (s3 & l3 & r3 & tail & Hfin & Hm3 & Htail & _ & _).
  assert (Hmarks : marks (actions x)
                   = marks l2 ++ MEval (Some path) :: tail).
  { subst x. rewrite Hrun, Hfin, after_triple. unfold actions; cbn [fst snd].
    observe. rewrite Hm1, Hm3. reflexivity. }
  assert (Hw : writes (marks l2) <> []).
  { intros Hw. rewrite Hmarks in Ha.
    apply (loop_marks_accs_back _ _ _ _ _ _ Hlm _ _ _ Htail) in Ha.
    pose proof (loop_marks_no_write _ _ _ _ _ _ Hlm Hw a Ha) as Hle.
    cbn [best_acc train_locals] in Hle. lra. }
  destruct (last_save_some l2 Hw) as (obj & Hobj).
  pose proof (loop_saved_last val_iter val_step
                (range start (start + train_iter))
                (train_locals (make_optimizer (model s) learning_rate
                                 weight_decay lr_step_size))
                (on_device cuda s1)) as Hsaved.
  cbn zeta in Hsaved. rewrite Hloop in Hsaved.
  unfold saved_last, actions, store in Hsaved; cbn [fst snd] in Hsaved.
  rewrite Hobj in Hsaved. destruct Hsaved as (Hf2 & sd & ->).
  destruct (eval_iterations self 10 10 2 test_iter (Some path) s2 _ _ _
              (select_loaded self path _ sd s2 Hf2 (lookup_singleton_eq _ _))
              Hti)
    as (s4 & l4 & acc & Heval & Hacc & Hep & Hf4 & _).
  destruct Hep as (He1 & He2 & Hm4 & _ & _ & Htr4).
  assert (Hfin' : train_finish self model_name ckpt_dir test_iter s2
                  = (s4,
                     [Println (newline +:+ "####################" +:+ newline);
                      Println ("Finish training " +:+ model_name)]
                     ++ [EvalCall (Some path) test_iter; Println EmptyString;
                         TorchLoad path; loaded_line path]
                     ++ l4
                     ++ [Println EmptyString; EvalReturn acc;
                         PrintTestAccuracy acc], Ok tt)).
  { unfold train_finish. autorewrite with run. fold path.
    rewrite (bind_ok _ _ _ _ _ _ Heval). autorewrite with run.
    cbn [app]. now rewrite <- ?app_assoc. }
  subst x. rewrite Hrun, Hfin', after_triple.
  unfold outcome, actions, store; cbn [fst snd].
  split; [reflexivity|].
  exists sd, acc,
    (Println "Start training..." :: l1 ++ l2
       ++ [Println (newline +:+ "####################" +:+ newline);
           Println ("Finish training " +:+ model_name)]), l4.
  split.
  { change (Println "Start training..." :: ?l) with ([Println "Start training..."] ++ l).
    rewrite !last_save_app.
    rewrite (last_save_none l4) by (now rewrite Hm4).
    rewrite Hobj. reflexivity. }
  split.
  { rewrite Hf4. exact Hf2. }
  split.
  { cbn [app]. rewrite <- !app_assoc. reflexivity. }
  split; [exact He1|]. split.
  { unfold mean. rewrite He2, Z2Nat.id by lia. exact Hacc. }
  unfold loaded_line. observe. rewrite Htr1, Htr2, Htr4. reflexivity.
Qed.

End WrittenAndTested.

(** * Instances on the scripted collaborators *)

Import Demo.

(** C8 as stated fails on empty tensors: the result is NaN, no value of
    [0,1]. *)
Lemma accuracy_of_empty_tensors_counterexample :
  ~ exists q : Q, __accuracy__ [] [] = Ok (Some q) /\ (0 <= q <= 1)%Q.
Proof. intros (q & H & _). discriminate H. Qed.

(** [accuracy_fraction] on two tensors that agree at two of four
    positions. *)
Lemma accuracy_fraction_witness :
  length [1; 0; 1; 1] = length [1; 1; 1; 0] /\
  [1; 0; 1; 1] <> [] /\
  exists q : Q,
    __accuracy__ [1; 0; 1; 1] [1; 1; 1; 0] = Ok (Some q) /\
    (q == inject_Z (Z.of_nat (matches [1; 0; 1; 1]%Z [1; 1; 1; 0]%Z))
          / inject_Z (Z.of_nat (length [1; 0; 1; 1]%Z)))%Q /\
    (0 <= q <= 1)%Q.
Proof.
  split; [reflexivity|]. split; [discriminate|].
  apply (accuracy_fraction [1; 0; 1; 1] [1; 1; 1; 0]);
    [reflexivity | discriminate].
Defined.

(** C2 as stated fails: with accuracies 0.6 then 0.8 the run writes two
    checkpoints. *)
Lemma one_write_for_two_improvements_counterexample :
  ~ (let ms := marks (actions (run_train 10 1 5 1 None
                                 (start [6 # 10; 8 # 10; 1 # 2]))) in
     validation_accs ms = [6 # 10; 8 # 10] -> length (writes ms) = 1%nat).
Proof.
  intros H. cbv zeta in H.
  assert (E : validation_accs
                (marks (actions (run_train 10 1 5 1 None
                                   (start [6 # 10; 8 # 10; 1 # 2]))))
              = [6 # 10; 8 # 10]) by (vm_compute; reflexivity).
  specialize (H E). vm_compute in H. discriminate H.
Qed.

(** C3 as stated fails: a first validation that returns 0 exceeds every
    earlier accuracy, there being none, and is followed by no write. *)
Lemma first_validation_at_zero_counterexample :
  ~ (forall pre a post,
       marks (actions (run_train 1 1 1 1 None (start [0 # 1; 1 # 2])))
         = pre ++ MEval None :: MAcc a :: post ->
       ((exists post', post = MSave "./checkpoint/m.pth.tar" :: post') <->
        (forall a', In (MAcc a') pre -> (a' < a)%Q))).
Proof.
  intros H.
  specialize (H [MStep 1] 0%Q [MEval (Some "./checkpoint/m.pth.tar")]).
  destruct H as [_ H]; [vm_compute; reflexivity|].
  destruct H as [post' Hp].
  - intros a' [E|[]]. discriminate E.
  - discriminate Hp.
Qed.

(** C7 as stated fails for eval_iter = 0: no mean is returned. *)
Lemma eval_without_iterations_counterexample :
  ~ exists acc : Q,
      outcome (eval fw 10 10 2 0 None (start [1 # 2])) = Ok acc.
Proof. intros (acc & H). vm_compute in H. discriminate H. Qed.

(** C9 as stated fails for val_step = 0: no validation returns an accuracy
    above 0 and no checkpoint file exists, yet the run raises
    ZeroDivisionError in its first iteration and never calls the test
    evaluation. *)
Lemma train_stops_before_test_evaluation_counterexample :
  ~ (let x := run_train 3 1 0 1 None (start [1 # 2]) in
     files (start [1 # 2]) !! "./checkpoint/m.pth.tar" = None ->
     (forall a, In a (validation_accs (marks (actions x))) -> ~ (0 < a)%Q) ->
     (exists before tail,
        marks (actions x)
        = before ++ MEval (Some "./checkpoint/m.pth.tar") :: tail) /\
     outcome x
     = Raise (Exception "No checkpoint found at './checkpoint/m.pth.tar'")).
Proof.
  intros H. cbv zeta in H.
  destruct H as [_ H]; [reflexivity | vm_compute; intros a [] | ].
  vm_compute in H. discriminate H.
Qed.


(** [saved_checkpoint_has_no_iter] on a first best accuracy of 1/2. *)
Lemma saved_checkpoint_has_no_iter_witness :
  py_gt (1 # 2) (best_acc locals) = true /\
  outcome (train_resume (Some "./checkpoint/m.pth.tar")
             (store (train_checkpoint "m" "./checkpoint" (1 # 2)
                       locals (start []))))
  = Raise (KeyError "iter").
Proof.
  split; [reflexivity|].
  destruct (saved_checkpoint_has_no_iter (C := world) "m" "./checkpoint"
              (1 # 2) locals (start []) eq_refl) as (_ & _ & H).
  exact H.
Defined.

(** [missing_checkpoint_aborts] on an empty file system. *)
Lemma missing_checkpoint_aborts_witness :
  files (start []) !! "nowhere" = None /\
  eval fw 10 10 2 1000 (Some "nowhere") (start [])
  = (start [], [EvalCall (Some "nowhere") 1000; Println EmptyString],
     Raise (Exception "No checkpoint found at 'nowhere'")).
Proof.
  split; [reflexivity|].
  destruct (missing_checkpoint_aborts (C := world) fw "m" 500 "./checkpoint"
              "./test_result" 1 200000000 (1 # 100000) false "nowhere"
              (start []) eq_refl) as [H _].
  exact (H 10 10 2 1000).
Defined.

(** [eval_selects_loader_and_averages] on two episodes. *)
Lemma eval_selects_loader_and_averages_witness :
  1 <= 2 /\
  exists s' log acc,
    eval fw 10 10 2 2 None (start [1 # 2; 1 # 4]) = (s', log, Ok acc) /\
    loads log = [] /\
    episode_loaders log = replicate (Z.to_nat 2) (1%nat, 0%nat) /\
    length (accuracies log) = Z.to_nat 2 /\
    (acc == mean (accuracies log))%Q /\
    ((forall a, In a (accuracies log) -> (0 <= a <= 1)%Q) -> (0 <= acc <= 1)%Q).
Proof.
  split; [lia|].
  destruct (eval_selects_loader_and_averages (C := world) fw 10 10 2 2
              (start [1 # 2; 1 # 4])) as [[_ H] _]; [lia|].
  exact H.
Defined.


(** [train_without_checkpoint_raises] on two validations that return 0. *)
Lemma train_without_checkpoint_raises_witness :
  train_resume None (start [0 # 1; 0 # 1]) = (start [0 # 1; 0 # 1], [], Ok 0) /\
  loop_completes 0 2 1 1 /\
  files (start [0 # 1; 0 # 1]) !! "./checkpoint/m.pth.tar" = None /\
  (forall a,
     In a (validation_accs
             (marks (actions (run_train 2 1 1 1 None (start [0 # 1; 0 # 1]))))) ->
     ~ (0 < a)%Q) /\
  steps (actions (run_train 2 1 1 1 None (start [0 # 1; 0 # 1]))) = [1; 2] /\
  outcome (run_train 2 1 1 1 None (start [0 # 1; 0 # 1]))
  = Raise (Exception "No checkpoint found at './checkpoint/m.pth.tar'").
Proof.
  assert (H0 : train_resume None (start [0 # 1; 0 # 1])
               = (start [0 # 1; 0 # 1], [], Ok 0)) by reflexivity.
  assert (H1 : loop_completes 0 2 1 1) by (right; split; [lia | left; lia]).
  assert (H3 : files (start [0 # 1; 0 # 1]) !! "./checkpoint/m.pth.tar" = None)
    by reflexivity.
  assert (H4 : forall a,
             In a (validation_accs
                     (marks (actions (run_train 2 1 1 1 None
                                        (start [0 # 1; 0 # 1]))))) ->
             ~ (0 < a)%Q).
  { vm_compute. intros a [E|[E|[]]] L; subst a; discriminate L. }
  repeat (split; [assumption|]).
  destruct (train_without_checkpoint_raises (C := world) fw "m" 500
              "./checkpoint" "./test_result" 1 200000000 (1 # 100000) false
              None 2 1 1 1 _ _ _ _ H0) as [_ H].
  destruct (H H1) as (_ & Hst & Hr).
  split; [exact Hst|].
  destruct (Hr H3 H4) as [Ho _]. exact Ho.
Defined.

(** [checkpoint_written_iff_new_best] at the first validation of a run
    with accuracies 0.6 then 0.8. *)
Lemma checkpoint_written_iff_new_best_witness :
  marks (actions (run_train 10 1 5 1 None (start [6 # 10; 8 # 10; 1 # 2])))
  = [MStep 1; MStep 2; MStep 3; MStep 4; MStep 5]
    ++ MEval None :: MAcc (6 # 10)
    :: [MSave "./checkpoint/m.pth.tar";
        MStep 6; MStep 7; MStep 8; MStep 9; MStep 10;
        MEval None; MAcc (8 # 10); MSave "./checkpoint/m.pth.tar";
        MEval (Some "./checkpoint/m.pth.tar"); MAcc (1 # 2)] /\
  ((exists post',
      [MSave "./checkpoint/m.pth.tar";
       MStep 6; MStep 7; MStep 8; MStep 9; MStep 10;
       MEval None; MAcc (8 # 10); MSave "./checkpoint/m.pth.tar";
       MEval (Some "./checkpoint/m.pth.tar"); MAcc (1 # 2)]
      = MSave "./checkpoint/m.pth.tar" :: post')
   <->
   (0 < 6 # 10)%Q /\
   forall a, In (MAcc a) [MStep 1; MStep 2; MStep 3; MStep 4; MStep 5] ->
             (a < 6 # 10)%Q).
Proof.
  split; [vm_compute; reflexivity|].
  apply (checkpoint_written_iff_new_best (C := world) fw "m" 500
           "./checkpoint" "./test_result" 1 200000000 (1 # 100000) false
           None 10 1 5 1 (start [6 # 10; 8 # 10; 1 # 2])).
  vm_compute. reflexivity.
Defined.

(** [accumulators_not_reset_at_window_start] with val_step = 5, at the
    start of iteration 5. *)
Lemma accumulators_not_reset_at_window_start_witness :
  2 <= 5 /\ 1 <= 1 /\ 1 <= 1 /\
  exists s' log lc,
    for_ (range 0 (1 * 5)) (train_body fw "m" 500 "./checkpoint" 1 5)
      locals (start [1 # 2])
    = (s', log, Ok lc) /\
    (iter_sample lc == inject_Z (5 - 1))%Q.
Proof.
  repeat (split; [lia|]).
  apply (accumulators_not_reset_at_window_start (C := world) fw "m" 500
           "./checkpoint" 1 5 1 tt (start [1 # 2])); lia.
Defined.

(** [ten_iterations_two_validations] on the scripted collaborators. *)
Lemma ten_iterations_two_validations_witness :
  1 <= 1 /\
  exists a1 a2 w1 w2 tail,
    marks (actions (run_train 10 1 5 1 None (start [6 # 10; 8 # 10; 1 # 2])))
    = [MStep 1; MStep 2; MStep 3; MStep 4; MStep 5; MEval None; MAcc a1]
      ++ w1 ++
      [MStep 6; MStep 7; MStep 8; MStep 9; MStep 10; MEval None; MAcc a2]
      ++ w2 ++ MEval (Some "./checkpoint/m.pth.tar") :: tail /\
    (w1 = [] \/ w1 = [MSave "./checkpoint/m.pth.tar"]) /\
    (w2 = [] \/ w2 = [MSave "./checkpoint/m.pth.tar"]) /\
    (tail = [] \/ exists t, tail = [MAcc t]) /\
    ((a1 == 6 # 10)%Q -> (a2 == 8 # 10)%Q ->
     w1 = [MSave "./checkpoint/m.pth.tar"] /\
     w2 = [MSave "./checkpoint/m.pth.tar"]).
Proof.
  split; [lia|].
  apply (ten_iterations_two_validations (C := world) fw "m" 500
           "./checkpoint" "./test_result" 1 200000000 (1 # 100000) false
           1 1 (start [6 # 10; 8 # 10; 1 # 2])).
  lia.
Defined.

(** * Instances of the further properties *)

Import Stores.

(** [accuracy_one_iff_equal] on two equal tensors. *)
Lemma accuracy_one_iff_equal_witness :
  length (data {| data := [1; 0; 1]; viewable := true |})
  = length (data {| data := [1; 0; 1]; viewable := true |}) /\
  exists q : Q,
    accuracy_call {| data := [1; 0; 1]; viewable := true |}
      {| data := [1; 0; 1]; viewable := true |} = Ok (Some q) /\
    (q == 1)%Q.
Proof.
  split; [reflexivity|]. eexists. split; [reflexivity|].
  destruct (accuracy_one_iff_equal {| data := [1; 0; 1]; viewable := true |}
              {| data := [1; 0; 1]; viewable := true |} _ eq_refl eq_refl)
    as [[_ H] _].
  now apply H.
Defined.


(** [checkpoint_without_state_dict] on a file that holds an iteration
    index alone. *)
Lemma checkpoint_without_state_dict_witness :
  files without_state_dict !! "bad.pth.tar"
    = Some {["iter" := @VInt world 3]} /\
  ({["iter" := @VInt world 3]} : gmap string value) !! "state_dict" = None /\
  eval fw 10 10 2 5 (Some "bad.pth.tar") without_state_dict
  = (without_state_dict,
     [EvalCall (Some "bad.pth.tar") 5; Println EmptyString;
      TorchLoad "bad.pth.tar";
      Println "Successfully loaded checkpoint 'bad.pth.tar'"],
     Raise (KeyError "state_dict")).
Proof.
  assert (H1 : files without_state_dict !! "bad.pth.tar"
               = Some {["iter" := @VInt world 3]}) by reflexivity.
  assert (H2 : ({["iter" := @VInt world 3]} : gmap string value)
                 !! "state_dict" = None) by reflexivity.
  split; [exact H1|]. split; [exact H2|].
  destruct (checkpoint_without_state_dict (C := world) fw "m" 500
              "./checkpoint" "./test_result" 1 200000000 (1 # 100000) false
              "bad.pth.tar" _ without_state_dict H1 H2) as [H _].
  exact (H 10 10 2 5).
Defined.

(** [failed_resume_keeps_loaded_parameters] on a checkpoint as [train]
    writes it. *)
Lemma failed_resume_keeps_loaded_parameters_witness :
  "half.pth.tar" <> EmptyString /\
  files without_iter !! "half.pth.tar"
    = Some {["state_dict" := @VState world 7]} /\
  outcome (run_train 3 1 2 1 (Some "half.pth.tar") without_iter)
    = Raise (KeyError "iter") /\
  state_dict (model (store (run_train 3 1 2 1 (Some "half.pth.tar")
                              without_iter))) = 7.
Proof.
  assert (H0 : "half.pth.tar" <> EmptyString) by discriminate.
  assert (H1 : files without_iter !! "half.pth.tar"
               = Some {["state_dict" := @VState world 7]}) by reflexivity.
  split; [exact H0|]. split; [exact H1|].
  destruct (failed_resume_keeps_loaded_parameters (C := world) fw "m" 500
              "./checkpoint" "./test_result" 1 200000000 (1 # 100000) false
              "half.pth.tar" _ 7 3 1 2 1 without_iter H0 H1 eq_refl eq_refl)
    as (Ho & _ & Hp & _).
  split; [exact Ho | exact Hp].
Defined.

(** [zero_val_step_stops_first_iteration] on three iterations. *)
Lemma zero_val_step_stops_first_iteration_witness :
  train_resume None (start [1 # 2]) = (start [1 # 2], [], Ok 0) /\
  1 <= 3 /\
  outcome (run_train 3 1 0 1 None (start [1 # 2])) = Raise ZeroDivisionError /\
  marks (actions (run_train 3 1 0 1 None (start [1 # 2]))) = [MStep (0 + 1)].
Proof.
  assert (H0 : train_resume None (start [1 # 2]) = (start [1 # 2], [], Ok 0))
    by reflexivity.
  assert (H1 : 1 <= 3) by lia.
  split; [exact H0|]. split; [exact H1|].
  destruct (zero_val_step_stops_first_iteration (C := world) fw "m" 500
              "./checkpoint" "./test_result" 1 200000000 (1 # 100000) false
              None 3 1 1 _ _ _ _ H0 H1) as (Ho & Hm & _).
  split; [exact Ho | exact Hm].
Defined.


(** [train_without_iterations] on an empty file system. *)
Lemma train_without_iterations_witness :
  0 <= 0 /\
  files (start []) !! os_path_join "./checkpoint" ("m" +:+ ".pth.tar") = None /\
  outcome (run_train 0 1 1 1 None (start []))
  = Raise (Exception "No checkpoint found at './checkpoint/m.pth.tar'").
Proof.
  assert (H0 : 0 <= 0) by lia.
  assert (H1 : files (start []) !! os_path_join "./checkpoint" ("m" +:+ ".pth.tar")
               = None) by reflexivity.
  split; [exact H0|]. split; [exact H1|].
  unfold run_train.
  rewrite (train_without_iterations (C := world) fw "m" 500
             "./checkpoint" "./test_result" 1 200000000 (1 # 100000) false
             0 1 1 1 (start []) H0 H1).
  reflexivity.
Defined.

(** [last_checkpoint_is_of_best_validation] on validations that return
    0.6, 0.8 and 0.7. *)
Lemma last_checkpoint_is_of_best_validation_witness :
  marks (actions (run_train 3 1 1 1 None
                    (start [6 # 10; 8 # 10; 7 # 10; 1 # 2])))
  = [MStep 1; MEval None; MAcc (6 # 10); MSave "./checkpoint/m.pth.tar";
     MStep 2]
    ++ MEval None :: MAcc (8 # 10) :: MSave "./checkpoint/m.pth.tar"
    :: [MStep 3; MEval None; MAcc (7 # 10);
        MEval (Some "./checkpoint/m.pth.tar"); MAcc (1 # 2)] /\
  writes [MStep 3; MEval None; MAcc (7 # 10);
          MEval (Some "./checkpoint/m.pth.tar"); MAcc (1 # 2)] = [] /\
  forall a,
    In a (validation_accs
            [MStep 3; MEval None; MAcc (7 # 10);
             MEval (Some "./checkpoint/m.pth.tar"); MAcc (1 # 2)]) ->
    (a <= 8 # 10)%Q.
Proof.
  assert (H0 : marks (actions (run_train 3 1 1 1 None
                                 (start [6 # 10; 8 # 10; 7 # 10; 1 # 2])))
               = [MStep 1; MEval None; MAcc (6 # 10);
                  MSave "./checkpoint/m.pth.tar"; MStep 2]
                 ++ MEval None :: MAcc (8 # 10)
                 :: MSave "./checkpoint/m.pth.tar"
                 :: [MStep 3; MEval None; MAcc (7 # 10);
                     MEval (Some "./checkpoint/m.pth.tar"); MAcc (1 # 2)])
    by (vm_compute; reflexivity).
  assert (H1 : writes [MStep 3; MEval None; MAcc (7 # 10);
                       MEval (Some "./checkpoint/m.pth.tar"); MAcc (1 # 2)]
               = []) by reflexivity.
  split; [exact H0|]. split; [exact H1|].
  destruct (last_checkpoint_is_of_best_validation (C := world) fw "m" 500
              "./checkpoint" "./test_result" 1 200000000 (1 # 100000) false
              None 3 1 1 1 (start [6 # 10; 8 # 10; 7 # 10; 1 # 2])
              _ _ _ H0 H1) as (_ & _ & H).
  exact H.
Defined.

(** [validations_follow_multiples_of_val_step] on ten iterations with
    val_step = 5. *)
Lemma validations_follow_multiples_of_val_step_witness :
  train_resume None (start [6 # 10; 8 # 10; 1 # 2])
    = (start [6 # 10; 8 # 10; 1 # 2], [], Ok 0) /\
  5 <> 0 /\ 1 <= 1 /\
  validated_steps
    (marks (actions (run_train 10 1 5 1 None (start [6 # 10; 8 # 10; 1 # 2]))))
  = [5; 10].
Proof.
  assert (H0 : train_resume None (start [6 # 10; 8 # 10; 1 # 2])
               = (start [6 # 10; 8 # 10; 1 # 2], [], Ok 0)) by reflexivity.
  assert (H1 : 5 <> 0) by lia.
  assert (H2 : 1 <= 1) by lia.
  split; [exact H0|]. split; [exact H1|]. split; [exact H2|].
  destruct (validations_follow_multiples_of_val_step (C := world) fw "m" 500
              "./checkpoint" "./test_result" 1 200000000 (1 # 100000) false
              None 10 1 5 1 _ _ _ _ H0 H1 H2) as [H _].
  exact H.
Defined.

(** [test_evaluation_of_an_earlier_checkpoint] on two validations that
    return 0. *)
Lemma test_evaluation_of_an_earlier_checkpoint_witness :
  train_resume None with_old_checkpoint = (with_old_checkpoint, [], Ok 0) /\
  loop_completes 0 2 1 1 /\ 1 <= 1 /\
  files with_old_checkpoint !! os_path_join "./checkpoint" ("m" +:+ ".pth.tar")
    = Some {["state_dict" := @VState world 7]} /\
  (forall a,
     In a (validation_accs
             (marks (actions (run_train 2 1 1 1 None with_old_checkpoint)))) ->
     ~ (0 < a)%Q) /\
  outcome (run_train 2 1 1 1 None with_old_checkpoint) = Ok tt /\
  files (store (run_train 2 1 1 1 None with_old_checkpoint))
    = files with_old_checkpoint.
Proof.
  assert (H0 : train_resume None with_old_checkpoint
               = (with_old_checkpoint, [], Ok 0)) by reflexivity.
  assert (H1 : loop_completes 0 2 1 1) by (right; split; [lia | left; lia]).
  assert (H2 : 1 <= 1) by lia.
  assert (H3 : files with_old_checkpoint
                 !! os_path_join "./checkpoint" ("m" +:+ ".pth.tar")
               = Some {["state_dict" := @VState world 7]}) by reflexivity.
  assert (H4 : forall a,
             In a (validation_accs
                     (marks (actions (run_train 2 1 1 1 None
                                        with_old_checkpoint)))) ->
             ~ (0 < a)%Q).
  { vm_compute. intros a [E|[E|[]]] L; subst a; discriminate L. }
  split; [exact H0|]. split; [exact H1|]. split; [exact H2|].
  split; [exact H3|]. split; [exact H4|].
  destruct (test_evaluation_of_an_earlier_checkpoint (C := world) fw "m" 500
              "./checkpoint" "./test_result" 1 200000000 (1 # 100000) false
              None 2 1 1 1 _ _ _ _ _ 7 H0 H1 H2 H3 eq_refl H4)
    as (Ho & Hf & _).
  split; [exact Ho | exact Hf].
Defined.

(** [displayed_loss_is_a_window_mean] on three iterations with
    val_step = 2. *)
Lemma displayed_loss_is_a_window_mean_witness :
  1 <= 2 /\ 1 <= 1 /\
  length (losses (actions (run_train 3 1 2 1 None (start [1 # 2; 1 # 2]))))
  = Z.to_nat 3 /\
  length (shown_losses
            (actions (run_train 3 1 2 1 None (start [1 # 2; 1 # 2]))))
  = Z.to_nat 3.
Proof.
  assert (H0 : 1 <= 2) by lia.
  assert (H1 : 1 <= 1) by lia.
  split; [exact H0|]. split; [exact H1|].
  destruct (displayed_loss_is_a_window_mean (C := world) fw "m" 500
              "./checkpoint" "./test_result" 1 200000000 (1 # 100000) false
              3 1 2 1 (start [1 # 2; 1 # 2]) H0 H1) as (Hl & Hd & _).
  split; [exact Hl | exact Hd].
Defined.

(** [written_checkpoint_is_tested] on validations that return 0.6 and
    0.8. *)
Lemma written_checkpoint_is_tested_witness :
  train_resume None (start [6 # 10; 8 # 10; 1 # 2])
    = (start [6 # 10; 8 # 10; 1 # 2], [], Ok 0) /\
  1 <> 0 /\ 1 <= 1 /\ 1 <= 1 /\
  (exists a,
     In a (validation_accs
             (marks (actions (run_train 2 1 1 1 None
                                (start [6 # 10; 8 # 10; 1 # 2]))))) /\
     (0 < a)%Q) /\
  outcome (run_train 2 1 1 1 None (start [6 # 10; 8 # 10; 1 # 2])) = Ok tt.
Proof.
  assert (H0 : train_resume None (start [6 # 10; 8 # 10; 1 # 2])
               = (start [6 # 10; 8 # 10; 1 # 2], [], Ok 0)) by reflexivity.
  assert (H1 : 1 <> 0) by lia.
  assert (H2 : 1 <= 1) by lia.
  assert (H3 : exists a,
             In a (validation_accs
                     (marks (actions (run_train 2 1 1 1 None
                                        (start [6 # 10; 8 # 10; 1 # 2]))))) /\
             (0 < a)%Q).
  { exists (6 # 10). split; [|reflexivity].
    vm_compute. left. reflexivity. }
  split; [exact H0|]. split; [exact H1|]. split; [exact H2|].
  split; [exact H2|]. split; [exact H3|].
  exact (proj1 (written_checkpoint_is_tested (C := world) fw "m" 500
                  "./checkpoint" "./test_result" 1 200000000 (1 # 100000)
                  false None 2 1 1 1 _ _ _ _ H0 H1 H2 H2 H3)).
Defined.
